(** * Onboarding and compliance core of the donation tracker

    A shallow embedding of the administration service
    ([api/internal/services/admin_service.go], [utils.go]) and of the
    request rate limiter ([api/internal/middleware]), with the properties
    of the tax-ID validator, the registration workflow, the audit engine
    and the limiter.

    Conventions.  A Go [string] is a byte sequence: it is a Rocq [string]
    (a list of 8-bit [ascii]).  Go's [int] and [uint] are 64 bits wide; the
    quantities below (lengths of in-memory slices, sums of at most thirteen
    one-byte products) stay far away from the bounds, so they are [Z] and
    [N] without wrap-around, while byte arithmetic ([cnpj[i] - '0'], a
    [uint8]) has its wrap-around written out.  A Go call that indexes out
    of range panics: this is [None]. *)

From Stdlib Require Import ZArith Ascii String DecimalString.
From stdpp Require Import base option list strings gmap.

Local Open Scope string_scope.
Local Open Scope list_scope.
Local Open Scope Z_scope.

(** ** Bytes and strings *)

Module GoString.

  (** [s[i]]: a panic ([None]) when [i] is out of range. *)
Definition index (s : string) (i : nat) : option ascii := String.get i s.

Definition len (s : string) : nat := String.length s.

Definition code (c : ascii) : Z := Z.of_nat (nat_of_ascii c).

  (** [a - b] on [uint8]. *)
Definition byte_sub (a b : ascii) : Z := (code a - code b) mod 256.

  (** [hash += string(c)]. *)
Definition push (s : string) (c : ascii) : string := s +:+ String c EmptyString.

Fixpoint bytes (s : string) : list ascii :=
    match s with
    | EmptyString => []
    | String c r => c :: bytes r
    end.

(** The string [s] with its byte at [i] replaced by [c]. *)
Fixpoint set_byte (s : string) (i : nat) (c : ascii) : string :=
  match s, i with
  | EmptyString, _ => EmptyString
  | String _ r, O => String c r
  | String a r, S i' => String a (set_byte r i' c)
  end.

End GoString.

Import GoString.

(** ** The tax-ID validator: [validateCNPJFormat] *)

(** The character class [[0-9]]. *)
Definition is_digit (c : ascii) : bool :=
  (48 <=? code c) && (code c <=? 57).

(** [regexp.MustCompile(`[^0-9]`).ReplaceAllString(cnpj, "")].  The
    pattern matches one code point outside ['0'..'9'] at a time; the bytes
    of a multi-byte or ill-formed UTF-8 sequence are all above 127, so
    every byte that is not an ASCII digit disappears and every digit
    stays. *)
Fixpoint strip_non_digits (cnpj : string) : string :=
  match cnpj with
  | EmptyString => EmptyString
  | String c r =>
      if is_digit c then String c (strip_non_digits r) else strip_non_digits r
  end.

(** [for i := 1; i < len(cnpj); i++ { if cnpj[i] != cnpj[0] { allEqual =
    false; break } }], with [n] the number of iterations that are left. *)
Fixpoint allEqual_loop (cnpj : string) (i n : nat) : option bool :=
  match n with
  | O => Some true
  | S n' =>
      ci ← index cnpj i;
      c0 ← index cnpj 0;
      if negb (Ascii.eqb ci c0) then Some false
      else allEqual_loop cnpj (S i) n'
  end.

(** [for i := 0; i < n; i++ { digit := int(cnpj[i] - '0'); sum += digit *
    weight[i] }]. *)
Fixpoint sum_loop (cnpj : string) (weight : list Z) (i n : nat) (sum : Z)
  : option Z :=
  match n with
  | O => Some sum
  | S n' =>
      c ← index cnpj i;
      w ← weight !! i;
      sum_loop cnpj weight (S i) n' (sum + byte_sub c "0" * w)
  end.

(** [verificationDigit := 0; if remainder >= 2 { verificationDigit = 11 -
    remainder }].  Go's [%] truncates: [Z.rem]. *)
Definition verificationDigit (sum : Z) : Z :=
  let remainder := Z.rem sum 11 in
  if 2 <=? remainder then 11 - remainder else 0.

Definition msg_length : string := "CNPJ deve conter 14 dígitos".
Definition msg_all_equal : string := "CNPJ inválido: todos os dígitos são iguais".
Definition msg_first_digit : string :=
  "CNPJ inválido: primeiro dígito verificador incorreto".
Definition msg_second_digit : string :=
  "CNPJ inválido: segundo dígito verificador incorreto".
Definition msg_valid : string := "CNPJ válido".

Definition validateCNPJFormat (cnpj : string) : option (bool * string) :=
  let cnpj := strip_non_digits cnpj in
  if negb (len cnpj =? 14)%nat then Some (false, msg_length)
  else
    allEqual ← allEqual_loop cnpj 1 (len cnpj - 1);
    if (allEqual : bool) then Some (false, msg_all_equal)
    else
      sum ← sum_loop cnpj [5; 4; 3; 2; 9; 8; 7; 6; 5; 4; 3; 2] 0 12 0;
      let verificationDigit1 := verificationDigit sum in
      c12 ← index cnpj 12;
      if negb (byte_sub c12 "0" =? verificationDigit1)
      then Some (false, msg_first_digit)
      else
        sum ← sum_loop cnpj [6; 5; 4; 3; 2; 9; 8; 7; 6; 5; 4; 3; 2] 0 13 0;
        let verificationDigit2 := verificationDigit sum in
        c13 ← index cnpj 13;
        if negb (byte_sub c13 "0" =? verificationDigit2)
        then Some (false, msg_second_digit)
        else Some (true, msg_valid).

(** *** The validator as the specification words it *)

Module ChecksumSpec.

Definition digit_value (c : ascii) : Z := code c - 48.

  (** The digits of a tax ID, everything else stripped. *)
Definition digits (taxID : string) : list Z :=
    digit_value <$> filter (fun c => is_digit c = true) (bytes taxID).

Definition weighted_sum (ds ws : list Z) : Z :=
    foldr Z.add 0 (zip_with Z.mul ds ws).

  (** check = 0 if sum mod 11 < 2, else 11 - (sum mod 11). *)
Definition check_digit (ds ws : list Z) : Z :=
    let r := weighted_sum ds ws mod 11 in
    if r <? 2 then 0 else 11 - r.

Definition weights1 : list Z := [5; 4; 3; 2; 9; 8; 7; 6; 5; 4; 3; 2].
Definition weights2 : list Z := [6; 5; 4; 3; 2; 9; 8; 7; 6; 5; 4; 3; 2].

Definition all_identical (ds : list Z) : bool :=
    match ds with
    | [] => true
    | d :: r => forallb (Z.eqb d) r
    end.

Definition first_check_ok (ds : list Z) : bool :=
    bool_decide (ds !! 12%nat = Some (check_digit (take 12 ds) weights1)).

Definition second_check_ok (ds : list Z) : bool :=
    bool_decide (ds !! 13%nat = Some (check_digit (take 13 ds) weights2)).

Definition validate (taxID : string) : bool * string :=
    let ds := digits taxID in
    if negb (length ds =? 14)%nat then (false, msg_length)
    else if all_identical ds then (false, msg_all_equal)
    else if negb (first_check_ok ds) then (false, msg_first_digit)
    else if negb (second_check_ok ds) then (false, msg_second_digit)
    else (true, msg_valid).

End ChecksumSpec.

(** ** The data model: [models.go] *)

(** [time.Time] is an instant in nanoseconds, [time.Duration] a number of
    nanoseconds.  The [float64] amounts of donations, receipts and
    expenses are never read by the code below and are left out. *)

Module NGORegistrationRequest.
Record t := mk {
    Name : string; Description : string; Category : string; CNPJ : string;
    Email : string; Phone : string; Address : string; ResponsibleID : N;
    LogoURL : string }.
End NGORegistrationRequest.

(** [type NGORegistrationStatus string] and its four constants. *)
Definition NGORegistrationStatus : Type := string.
Definition NGOStatusPending : NGORegistrationStatus := "pendente".
Definition NGOStatusValidating : NGORegistrationStatus := "validando".
Definition NGOStatusRejected : NGORegistrationStatus := "rejeitado".
Definition NGOStatusApproved : NGORegistrationStatus := "aprovado".

Module NGORegistration.
Record t := mk {
    ID : N; Name : string; Description : string; Category : string;
    CNPJ : string; CNPJValid : bool; CNPJValidationMsg : string;
    Email : string; Phone : string; Address : string; ResponsibleID : N;
    LogoURL : string; DocumentsIPFS : string; BlockchainRef : string;
    Status : NGORegistrationStatus; AdminComments : string;
    CreatedAt : Z; UpdatedAt : Z }.

  (** [models.NGORegistration{}]. *)
Definition zero : t :=
    mk 0 "" "" "" "" false "" "" "" "" 0 "" "" "" "" "" 0 0.

  (** Assignments to one field. *)
Definition set_CNPJValid (v : bool) (r : t) : t :=
    mk (ID r) (Name r) (Description r) (Category r) (CNPJ r) v
       (CNPJValidationMsg r) (Email r) (Phone r) (Address r) (ResponsibleID r)
       (LogoURL r) (DocumentsIPFS r) (BlockchainRef r) (Status r)
       (AdminComments r) (CreatedAt r) (UpdatedAt r).
Definition set_CNPJValidationMsg (v : string) (r : t) : t :=
    mk (ID r) (Name r) (Description r) (Category r) (CNPJ r) (CNPJValid r)
       v (Email r) (Phone r) (Address r) (ResponsibleID r)
       (LogoURL r) (DocumentsIPFS r) (BlockchainRef r) (Status r)
       (AdminComments r) (CreatedAt r) (UpdatedAt r).
Definition set_DocumentsIPFS (v : string) (r : t) : t :=
    mk (ID r) (Name r) (Description r) (Category r) (CNPJ r) (CNPJValid r)
       (CNPJValidationMsg r) (Email r) (Phone r) (Address r) (ResponsibleID r)
       (LogoURL r) v (BlockchainRef r) (Status r)
       (AdminComments r) (CreatedAt r) (UpdatedAt r).
Definition set_BlockchainRef (v : string) (r : t) : t :=
    mk (ID r) (Name r) (Description r) (Category r) (CNPJ r) (CNPJValid r)
       (CNPJValidationMsg r) (Email r) (Phone r) (Address r) (ResponsibleID r)
       (LogoURL r) (DocumentsIPFS r) v (Status r)
       (AdminComments r) (CreatedAt r) (UpdatedAt r).
Definition set_Status (v : NGORegistrationStatus) (r : t) : t :=
    mk (ID r) (Name r) (Description r) (Category r) (CNPJ r) (CNPJValid r)
       (CNPJValidationMsg r) (Email r) (Phone r) (Address r) (ResponsibleID r)
       (LogoURL r) (DocumentsIPFS r) (BlockchainRef r) v
       (AdminComments r) (CreatedAt r) (UpdatedAt r).
Definition set_AdminComments (v : string) (r : t) : t :=
    mk (ID r) (Name r) (Description r) (Category r) (CNPJ r) (CNPJValid r)
       (CNPJValidationMsg r) (Email r) (Phone r) (Address r) (ResponsibleID r)
       (LogoURL r) (DocumentsIPFS r) (BlockchainRef r) (Status r)
       v (CreatedAt r) (UpdatedAt r).
Definition set_UpdatedAt (v : Z) (r : t) : t :=
    mk (ID r) (Name r) (Description r) (Category r) (CNPJ r) (CNPJValid r)
       (CNPJValidationMsg r) (Email r) (Phone r) (Address r) (ResponsibleID r)
       (LogoURL r) (DocumentsIPFS r) (BlockchainRef r) (Status r)
       (AdminComments r) (CreatedAt r) v.
End NGORegistration.

Module NGO.
Record t := mk {
    ID : N; Name : string; Description : string; Category : string;
    CNPJ : string; Email : string; Phone : string; Address : string;
    LogoURL : string; DocumentsIPFS : string; BlockchainRef : string;
    ResponsibleID : N; CreatedAt : Z; UpdatedAt : Z }.

  (** [models.NGO{}]. *)
Definition zero : t := mk 0 "" "" "" "" "" "" "" "" "" "" 0 0 0.
End NGO.

Module Donation.
Record t := mk {
    ID : N; DonorID : N; NGOID : N; CreatedAt : Z; Status : string;
    TransactionHash : string }.
End Donation.

Module DonationReceipt.
Record t := mk {
    ID : N; DonationID : N; DonorName : string; DonorEmail : string;
    NGOName : string; Date : Z; TransactionHash : string; IPFSHash : string;
    PdfURL : string }.
End DonationReceipt.

Module Expense.
Record t := mk {
    ID : N; DonationID : N; NGOID : N; Description : string;
    Category : string; ReceiptIPFS : string; BlockchainRef : string;
    Status : string; CreatedAt : Z; UpdatedAt : Z }.
End Expense.

Module AuditRequest.
Record t := mk { EntityType : string; EntityID : N }.
End AuditRequest.

Module AuditResult.
Record t := mk {
    EntityType : string; EntityID : N; BlockchainValid : bool;
    IPFSValid : bool; BlockchainRef : string; IPFSRef : string;
    ValidationDate : Z; ValidationErrors : list string }.

Definition set_outcome (bv iv : bool) (bref iref : string)
      (errs : list string) (r : t) : t :=
    mk (EntityType r) (EntityID r) bv iv bref iref (ValidationDate r) errs.
End AuditResult.

Module AuditLog.
Record t := mk {
    ID : N; AdminID : N; Action : string; EntityType : string; EntityID : N;
    PreviousState : string; NewState : string; Comments : string;
    BlockchainValid : bool; IPFSValid : bool; ValidationErrors : list string;
    CreatedAt : Z }.
End AuditLog.

(** ** The services and the world they live in *)

(** The fields of [DonationService] and [ExpenseService] that the
    administration service reads or writes through its two pointers. *)
Module DonationService.
Record t := mk {
    donations : list Donation.t; ngos : list NGO.t;
    receipts : list DonationReceipt.t }.
End DonationService.

Module ExpenseService.
Record t := mk { expenses : list Expense.t }.
End ExpenseService.

Module AdminService.
Record t := mk {
    donations : list Donation.t; ngos : list NGO.t;
    ngoRegistrations : list NGORegistration.t;
    auditLogs : list AuditLog.t }.
End AdminService.

(** The heap holds the three service objects ([AdminService] points to the
    other two).  The environment is part of the world: [clock k] is what
    the [k]-th reading of [time.Now()] returns, [ticks] counts the readings
    made so far, and [prng seed k] is the [k]-th raw output of [math/rand]
    after [rand.Seed(seed)]. *)
Record World := mkWorld {
  admin : AdminService.t;
  donationService : DonationService.t;
  expenseService : ExpenseService.t;
  clock : nat → Z;
  ticks : nat;
  prng : Z → nat → nat }.

Definition with_admin (a : AdminService.t) (w : World) : World :=
  mkWorld a (donationService w) (expenseService w) (clock w) (ticks w) (prng w).
Definition with_donationService (d : DonationService.t) (w : World) : World :=
  mkWorld (admin w) d (expenseService w) (clock w) (ticks w) (prng w).
Definition with_ticks (k : nat) (w : World) : World :=
  mkWorld (admin w) (donationService w) (expenseService w) (clock w) k (prng w).

(** A method call: it runs in a world and returns a value and the new
    world, or panics. *)
Definition M (A : Type) : Type := World → option (A * World).

#[global] Instance M_ret : MRet M := λ A a w, Some (a, w).
#[global] Instance M_bind : MBind M := λ A B f m w,
  match m w with
  | Some (a, w') => f a w'
  | None => None
  end.

Definition get_world : M World := λ w, Some (w, w).
Definition or_panic {A} (o : option A) : M A := λ w, (λ a, (a, w)) <$> o.

(** Go's [(T, error)]: the value and the error, [None] for [nil]. *)
Definition error : Type := option string.
Definition errors_New (msg : string) : error := Some msg.

Definition time_Now : M Z :=
  λ w, Some (clock w (ticks w), with_ticks (S (ticks w)) w).

(** [rand.Intn(n)] for the [k]-th draw after [rand.Seed(seed)]: a number
    in [[0, n)]. *)
Definition rand_Intn (w : World) (seed : Z) (k : nat) (n : nat) : nat :=
  (prng w seed k mod n)%nat.

Definition get_admin : M AdminService.t := λ w, Some (admin w, w).
Definition modify_admin (f : AdminService.t → AdminService.t) : M unit :=
  λ w, Some (tt, with_admin (f (admin w)) w).

Definition set_ngos (v : list NGO.t) (s : AdminService.t) : AdminService.t :=
  AdminService.mk (AdminService.donations s) v
    (AdminService.ngoRegistrations s) (AdminService.auditLogs s).
Definition set_ngoRegistrations (v : list NGORegistration.t)
    (s : AdminService.t) : AdminService.t :=
  AdminService.mk (AdminService.donations s) (AdminService.ngos s) v
    (AdminService.auditLogs s).
Definition set_auditLogs (v : list AuditLog.t) (s : AdminService.t)
  : AdminService.t :=
  AdminService.mk (AdminService.donations s) (AdminService.ngos s)
    (AdminService.ngoRegistrations s) v.

(** [s.ngoRegistrations[index]], read. *)
Definition registration_at (index : nat) : M NGORegistration.t :=
  λ w, (λ reg, (reg, w)) <$> AdminService.ngoRegistrations (admin w) !! index.

(** [s.ngoRegistrations[index].Field = v]. *)
Definition assign_registration (index : nat)
    (f : NGORegistration.t → NGORegistration.t) : M unit :=
  λ w,
    let regs := AdminService.ngoRegistrations (admin w) in
    (λ reg, (tt, with_admin (set_ngoRegistrations (<[index := f reg]> regs)
                               (admin w)) w)) <$> regs !! index.

(** [for i, reg := range s.ngoRegistrations { if reg.ID == registrationID
    { registration = reg; index = i; found = true; break } }]: the first
    record with that ID and its index, [None] when [found] stays false. *)
Definition find_registration (registrationID : N)
  : M (option (nat * NGORegistration.t)) :=
  λ w, Some (list_find (λ reg, NGORegistration.ID reg = registrationID)
               (AdminService.ngoRegistrations (admin w)), w).

(** [s.donationService.ngos = append(s.donationService.ngos, ngo)]. *)
Definition donationService_append_ngo (ngo : NGO.t) : M unit :=
  λ w,
    let d := donationService w in
    Some (tt, with_donationService
                (DonationService.mk (DonationService.donations d)
                   (DonationService.ngos d ++ [ngo])
                   (DonationService.receipts d)) w).

(** [fmt.Sprintf("%d", n)]. *)
Definition Sprintf_d (n : Z) : string := NilZero.string_of_int (Z.to_int n).

(** [fmt.Sprintf("%v", l)] for a slice of strings. *)
Definition Sprintf_v (l : list string) : string :=
  "[" +:+ String.concat " " l +:+ "]".

Abbreviation regs w := (AdminService.ngoRegistrations (admin w)).

(** The world after [s.ngoRegistrations[i] = r] and after
    [s.auditLogs = append(s.auditLogs, log)]. *)
Definition update_registration (i : nat) (r : NGORegistration.t) (w : World)
  : World :=
  with_admin (set_ngoRegistrations (<[i := r]> (regs w)) (admin w)) w.
Definition log_appended (log : AuditLog.t) (w : World) : World :=
  with_admin (set_auditLogs (AdminService.auditLogs (admin w) ++ [log])
                (admin w)) w.

(** The world after a registration is appended, and after a new
    organization is appended to the lists of both services. *)
Definition registration_appended (r : NGORegistration.t) (w : World) : World :=
  with_admin (set_ngoRegistrations (regs w ++ [r]) (admin w)) w.
Definition ngo_minted (ngo : NGO.t) (w : World) : World :=
  with_donationService
    (DonationService.mk (DonationService.donations (donationService w))
       (DonationService.ngos (donationService w) ++ [ngo])
       (DonationService.receipts (donationService w)))
    (with_admin (set_ngos (AdminService.ngos (admin w) ++ [ngo]) (admin w)) w).

(** ** [utils.go] *)

Definition charset_hex : string := "abcdef0123456789".
Definition charset_alnum : string :=
  "abcdefghijklmnopqrstuvwxyzABCDEFGHIJKLMNOPQRSTUVWXYZ0123456789".

(** [for i := 0; i < n; i++ { hash += string(charset[rand.Intn(len(charset))])
    }], [k] draws having been made since the seeding. *)
Fixpoint hash_loop (w : World) (charset : string) (seed : Z) (k n : nat)
    (hash : string) : option string :=
  match n with
  | O => Some hash
  | S n' =>
      c ← index charset (rand_Intn w seed k (len charset));
      hash_loop w charset seed (S k) n' (push hash c)
  end.

Definition generateMockTransactionHash : M string :=
  seed ← time_Now;
  w ← get_world;
  or_panic (hash_loop w charset_hex seed 0 64 "0x").

Definition generateMockHash (length : Z) : M string :=
  seed ← time_Now;
  w ← get_world;
  or_panic (hash_loop w charset_alnum seed 0 (Z.to_nat length) "").

(** ** [admin_service.go] *)

Definition NewAdminService : AdminService.t := AdminService.mk [] [] [] [].

Definition logAuditAction (adminID : N) (action entityType : string)
    (entityID : N) (previousState newState : string) : M unit :=
  s ← get_admin;
  let logID := N.of_nat (length (AdminService.auditLogs s) + 1) in
  createdAt ← time_Now;
  let log :=
    AuditLog.mk logID adminID action entityType entityID previousState
      newState newState false false [] createdAt in
  modify_admin (λ s, set_auditLogs (AdminService.auditLogs s ++ [log]) s).

Definition err_cnpj_registered : string := "CNPJ já registrado no sistema".
Definition err_cnpj_active_ngo : string := "CNPJ já pertence a uma ONG ativa".
Definition err_registration_not_found : string := "registro de ONG não encontrado".
Definition err_upload_needs_valid_cnpj : string :=
  "CNPJ deve ser validado antes do upload de documentos".
Definition err_cnpj_not_validated : string := "CNPJ não foi validado".
Definition err_documents_missing : string := "documentos não foram enviados".
Definition err_ngo_not_found : string := "ONG não encontrada".
Definition err_donation_not_found : string := "doação não encontrada".
Definition err_expense_not_found : string := "despesa não encontrada".

Definition RegisterNGO (req : NGORegistrationRequest.t)
  : M (NGORegistration.t * error) :=
  s ← get_admin;
  if bool_decide (Exists (λ reg, NGORegistration.CNPJ reg
                                 = NGORegistrationRequest.CNPJ req)
                    (AdminService.ngoRegistrations s))
  then mret (NGORegistration.zero, errors_New err_cnpj_registered)
  else if bool_decide (Exists (λ ngo, NGO.CNPJ ngo
                                      = NGORegistrationRequest.CNPJ req)
                         (AdminService.ngos s))
  then mret (NGORegistration.zero, errors_New err_cnpj_active_ngo)
  else
    v ← or_panic (validateCNPJFormat (NGORegistrationRequest.CNPJ req));
    let isValid := v.1 in
    let msg := v.2 in
    let registrationID :=
      N.of_nat (length (AdminService.ngoRegistrations s) + 1) in
    createdAt ← time_Now;
    updatedAt ← time_Now;
    let registration :=
      NGORegistration.mk registrationID
        (NGORegistrationRequest.Name req)
        (NGORegistrationRequest.Description req)
        (NGORegistrationRequest.Category req)
        (NGORegistrationRequest.CNPJ req)
        isValid msg
        (NGORegistrationRequest.Email req)
        (NGORegistrationRequest.Phone req)
        (NGORegistrationRequest.Address req)
        (NGORegistrationRequest.ResponsibleID req)
        (NGORegistrationRequest.LogoURL req)
        "" "" NGOStatusPending "" createdAt updatedAt in
    modify_admin (λ s, set_ngoRegistrations
                         (AdminService.ngoRegistrations s ++ [registration]) s);;
    logAuditAction 0 "ngo_registration_created" "ngo_registration"
      registrationID ""
      ("Registro de ONG solicitado: " +:+ NGORegistrationRequest.Name req
       +:+ " (CNPJ: " +:+ NGORegistrationRequest.CNPJ req +:+ ")");;
    mret (registration, None).

Definition ValidateCNPJOnline (registrationID : N)
  : M (NGORegistration.t * error) :=
  found ← find_registration registrationID;
  match found with
  | None => mret (NGORegistration.zero, errors_New err_registration_not_found)
  | Some (index, registration) =>
      if NGORegistration.CNPJValid registration then
        assign_registration index (NGORegistration.set_CNPJValid true);;
        assign_registration index
          (NGORegistration.set_CNPJValidationMsg
             "CNPJ verificado online e válido");;
        assign_registration index
          (NGORegistration.set_Status NGOStatusValidating);;
        now ← time_Now;
        assign_registration index (NGORegistration.set_UpdatedAt now);;
        logAuditAction 0 "cnpj_validated" "ngo_registration" registrationID
          (NGORegistration.Status registration) NGOStatusValidating;;
        reg ← registration_at index;
        mret (reg, None)
      else
        mret (NGORegistration.zero,
              errors_New (NGORegistration.CNPJValidationMsg registration))
  end.

Definition UploadNGODocuments (registrationID : N) (fileContent : list ascii)
  : M (NGORegistration.t * error) :=
  found ← find_registration registrationID;
  match found with
  | None => mret (NGORegistration.zero, errors_New err_registration_not_found)
  | Some (index, registration) =>
      if negb (NGORegistration.CNPJValid registration) then
        mret (NGORegistration.zero, errors_New err_upload_needs_valid_cnpj)
      else
        h ← generateMockHash 46;
        let ipfsHash := "Qm" +:+ h in
        assign_registration index (NGORegistration.set_DocumentsIPFS ipfsHash);;
        now ← time_Now;
        assign_registration index (NGORegistration.set_UpdatedAt now);;
        logAuditAction 0 "documents_uploaded" "ngo_registration"
          registrationID ""
          ("Documentos enviados para IPFS: " +:+ ipfsHash);;
        reg ← registration_at index;
        mret (reg, None)
  end.

Definition ApproveNGO (registrationID adminID : N) (comments : string)
  : M (NGO.t * error) :=
  found ← find_registration registrationID;
  match found with
  | None => mret (NGO.zero, errors_New err_registration_not_found)
  | Some (regIndex, registration) =>
      if negb (NGORegistration.CNPJValid registration) then
        mret (NGO.zero, errors_New err_cnpj_not_validated)
      else if String.eqb (NGORegistration.DocumentsIPFS registration) "" then
        mret (NGO.zero, errors_New err_documents_missing)
      else
        blockchainRef ← generateMockTransactionHash;
        assign_registration regIndex
          (NGORegistration.set_BlockchainRef blockchainRef);;
        assign_registration regIndex
          (NGORegistration.set_Status NGOStatusApproved);;
        assign_registration regIndex
          (NGORegistration.set_AdminComments comments);;
        now ← time_Now;
        assign_registration regIndex (NGORegistration.set_UpdatedAt now);;
        s ← get_admin;
        let ngoID := N.of_nat (length (AdminService.ngos s) + 1) in
        createdAt ← time_Now;
        updatedAt ← time_Now;
        let ngo :=
          NGO.mk ngoID
            (NGORegistration.Name registration)
            (NGORegistration.Description registration)
            (NGORegistration.Category registration)
            (NGORegistration.CNPJ registration)
            (NGORegistration.Email registration)
            (NGORegistration.Phone registration)
            (NGORegistration.Address registration)
            (NGORegistration.LogoURL registration)
            (NGORegistration.DocumentsIPFS registration)
            blockchainRef
            (NGORegistration.ResponsibleID registration)
            createdAt updatedAt in
        modify_admin (λ s, set_ngos (AdminService.ngos s ++ [ngo]) s);;
        donationService_append_ngo ngo;;
        logAuditAction adminID "ngo_approved" "ngo" ngoID
          NGOStatusValidating NGOStatusApproved;;
        mret (ngo, None)
  end.

Definition RejectNGO (registrationID adminID : N) (reason : string)
  : M (NGORegistration.t * error) :=
  found ← find_registration registrationID;
  match found with
  | None => mret (NGORegistration.zero, errors_New err_registration_not_found)
  | Some (index, registration) =>
      assign_registration index (NGORegistration.set_Status NGOStatusRejected);;
      assign_registration index (NGORegistration.set_AdminComments reason);;
      now ← time_Now;
      assign_registration index (NGORegistration.set_UpdatedAt now);;
      logAuditAction adminID "ngo_rejected" "ngo_registration" registrationID
        (NGORegistration.Status registration) NGOStatusRejected;;
      reg ← registration_at index;
      mret (reg, None)
  end.

(** The characters of [[0-9a-fA-F]]. *)
Definition is_hex (c : ascii) : bool :=
  is_digit c
  || ((97 <=? code c) && (code c <=? 102))
  || ((65 <=? code c) && (code c <=? 70)).

(** [[0-9a-fA-F]{n}$]: exactly [n] hexadecimal characters up to the end of
    the text. *)
Fixpoint match_hex_to_end (n : nat) (s : string) : bool :=
  match n, s with
  | O, EmptyString => true
  | S n', String c r => is_hex c && match_hex_to_end n' r
  | _, _ => false
  end.

(** [regexp.MustCompile("^0x[0-9a-fA-F]{64}$").MatchString(reference)]. *)
Definition hexPattern_MatchString (reference : string) : bool :=
  match reference with
  | String "0" (String "x" r) => match_hex_to_end 64 r
  | _ => false
  end.

Definition verifyBlockchainReference (reference : string) : bool :=
  if String.eqb reference "" then false
  else if (len reference <? 2)%nat
          || negb (String.eqb (substring 0 2 reference) "0x") then false
  else if negb (len reference =? 66)%nat then false
  else hexPattern_MatchString reference.

Definition verifyIPFSReference (reference : string) : bool :=
  if String.eqb reference "" then false
  else if (len reference <? 2)%nat
          || negb (String.eqb (substring 0 2 reference) "Qm") then false
  else if (len reference <? 46)%nat then false
  else true.

Definition err_blockchain_invalid : string :=
  "Referência na blockchain inválida ou não encontrada".
Definition err_ipfs_invalid : string :=
  "Referência no IPFS inválida ou não encontrada".

(** The [switch req.EntityType] of [AuditEntity]: the two references of
    the entity, or the error of the branch that returns early. *)
Definition resolve_references (req : AuditRequest.t) (w : World)
  : (string * string) + string :=
  let entityType := AuditRequest.EntityType req in
  let entityID := AuditRequest.EntityID req in
  if String.eqb entityType "ngo" then
    match list_find (λ ngo, NGO.ID ngo = entityID)
            (AdminService.ngos (admin w)) with
    | Some (_, ngo) => inl (NGO.BlockchainRef ngo, NGO.DocumentsIPFS ngo)
    | None => inr err_ngo_not_found
    end
  else if String.eqb entityType "donation" then
    match list_find (λ donation, Donation.ID donation = entityID)
            (DonationService.donations (donationService w)) with
    | Some (_, donation) =>
        let ipfsRef :=
          match list_find (λ receipt, DonationReceipt.DonationID receipt
                                      = entityID)
                  (DonationService.receipts (donationService w)) with
          | Some (_, receipt) => DonationReceipt.IPFSHash receipt
          | None => ""
          end in
        inl (Donation.TransactionHash donation, ipfsRef)
    | None => inr err_donation_not_found
    end
  else if String.eqb entityType "expense" then
    match list_find (λ expense, Expense.ID expense = entityID)
            (ExpenseService.expenses (expenseService w)) with
    | Some (_, expense) =>
        inl (Expense.BlockchainRef expense, Expense.ReceiptIPFS expense)
    | None => inr err_expense_not_found
    end
  else inr ("tipo de entidade desconhecido: " +:+ entityType).

Definition AuditEntity (req : AuditRequest.t) (adminID : N)
  : M (AuditResult.t * error) :=
  validationDate ← time_Now;
  let result :=
    AuditResult.mk (AuditRequest.EntityType req) (AuditRequest.EntityID req)
      false false "" "" validationDate [] in
  w ← get_world;
  match resolve_references req w with
  | inr e => mret (result, errors_New e)
  | inl (blockchainRef, ipfsRef) =>
      let validationErrors : list string := [] in
      let blockchainValid := verifyBlockchainReference blockchainRef in
      let validationErrors :=
        if negb blockchainValid
        then validationErrors ++ [err_blockchain_invalid]
        else validationErrors in
      let ipfsValid := verifyIPFSReference ipfsRef in
      let validationErrors :=
        if negb ipfsValid
        then validationErrors ++ [err_ipfs_invalid]
        else validationErrors in
      let result :=
        AuditResult.set_outcome blockchainValid ipfsValid blockchainRef
          ipfsRef validationErrors result in
      let comments :=
        if (0 <? length validationErrors)%nat
        then "Auditoria com erros: " +:+ Sprintf_v validationErrors
        else "Auditoria concluída com sucesso" in
      logAuditAction adminID "audit_performed" (AuditRequest.EntityType req)
        (AuditRequest.EntityID req) "" comments;;
      mret (result, None)
  end.

(** ** The workflow as a transition system *)

Inductive Op :=
| OpRegister (req : NGORegistrationRequest.t)
| OpValidateCNPJOnline (registrationID : N)
| OpUploadNGODocuments (registrationID : N) (fileContent : list ascii)
| OpApprove (registrationID adminID : N) (comments : string)
| OpReject (registrationID adminID : N) (reason : string)
| OpAudit (req : AuditRequest.t) (adminID : N).

(** One call; what it returned is dropped, only the error is kept. *)
Definition run_op (op : Op) : M error :=
  match op with
  | OpRegister req => r ← RegisterNGO req; mret r.2
  | OpValidateCNPJOnline id => r ← ValidateCNPJOnline id; mret r.2
  | OpUploadNGODocuments id f => r ← UploadNGODocuments id f; mret r.2
  | OpApprove id a c => r ← ApproveNGO id a c; mret r.2
  | OpReject id a c => r ← RejectNGO id a c; mret r.2
  | OpAudit req a => r ← AuditEntity req a; mret r.2
  end.

(** The registration an operation is aimed at. *)
Definition target (op : Op) : option N :=
  match op with
  | OpValidateCNPJOnline id | OpUploadNGODocuments id _
  | OpApprove id _ _ | OpReject id _ _ => Some id
  | OpRegister _ | OpAudit _ _ => None
  end.

(** The worlds the service can be in: it starts from [NewAdminService]
    (the other two services, the clock and the generator are arbitrary)
    and moves by calls of its methods. *)
Inductive reachable : World → Prop :=
| reachable_new (w : World) :
    admin w = NewAdminService → reachable w
| reachable_call (w w' : World) (op : Op) (e : error) :
    reachable w → run_op op w = Some (e, w') → reachable w'.

(** ** The rate limiter: [middleware.RateLimiter] *)

(** What the handler does to a [gin.Context]: the caller's address is
    read, response headers are set, and the request is passed on
    ([c.Next()]) or answered at once ([c.AbortWithStatusJSON]). *)
Module gin.
Record Context := mk {
  ClientIP : string;
  Headers : gmap string string;
  Aborted : option (Z * string);
  NextCalled : bool }.

Definition request (ip : string) : Context := mk ip ∅ None false.

Definition Header (key value : string) (c : Context) : Context :=
  mk (ClientIP c) (<[key := value]> (Headers c)) (Aborted c) (NextCalled c).
Definition Next (c : Context) : Context :=
  mk (ClientIP c) (Headers c) (Aborted c) true.
Definition AbortWithStatusJSON (code : Z) (err : string) (c : Context)
  : Context :=
  mk (ClientIP c) (Headers c) (Some (code, err)) (NextCalled c).
End gin.

Definition StatusTooManyRequests : Z := 429.

Module time.
(** One second, as a [time.Duration]. *)
Definition Second : Z := 1000000000.
Definition Minute : Z := 60 * Second.
(** [t.Add(d)], [t.After(u)], [t.Unix()]. *)
Definition Add (t d : Z) : Z := t + d.
Definition After (t u : Z) : bool := bool_decide (u < t).
Definition Unix (t : Z) : Z := t `div` Second.
End time.

Module RateLimiter.
Record t := mk {
  ipLimits : gmap string (list Z);
  maxRequests : Z;
  windowLength : Z;
  enabled : bool }.

Definition set_ipLimits (m : gmap string (list Z)) (rl : t) : t :=
  mk m (maxRequests rl) (windowLength rl) (enabled rl).
End RateLimiter.

Definition NewRateLimiter (maxRequests windowLength : Z) : RateLimiter.t :=
  RateLimiter.mk ∅ maxRequests windowLength true.

Definition SetEnabled (enabled : bool) (rl : RateLimiter.t) : RateLimiter.t :=
  RateLimiter.mk (RateLimiter.ipLimits rl) (RateLimiter.maxRequests rl)
    (RateLimiter.windowLength rl) enabled.

(** [rl.ipLimits[ip]] read: the empty slice for a missing key. *)
Definition requests_of (rl : RateLimiter.t) (ip : string) : list Z :=
  default [] (RateLimiter.ipLimits rl !! ip).

Definition err_rate_limited : string :=
  "Limite de requisições excedido. Tente novamente mais tarde.".

(** [if _, exists := rl.ipLimits[ip]; exists { ... } else { ... }]: the
    requests of [ip] that are after [validTime] are kept, and a caller seen
    for the first time gets an empty slice. *)
Definition prune (rl : RateLimiter.t) (ip : string) (validTime : Z)
  : RateLimiter.t :=
  match RateLimiter.ipLimits rl !! ip with
  | Some requests =>
      let validRequests :=
        filter (λ t, time.After t validTime = true) requests in
      RateLimiter.set_ipLimits
        (<[ip := validRequests]> (RateLimiter.ipLimits rl)) rl
  | None =>
      RateLimiter.set_ipLimits (<[ip := []]> (RateLimiter.ipLimits rl)) rl
  end.

(** The handler returned by [RateLimit()], run under the lock; [now] is
    its one reading of [time.Now()]. *)
Definition RateLimit (rl : RateLimiter.t) (now : Z) (c : gin.Context)
  : RateLimiter.t * gin.Context :=
  if negb (RateLimiter.enabled rl) then (rl, gin.Next c)
  else
    let ip := gin.ClientIP c in
    let validTime := time.Add now (- RateLimiter.windowLength rl) in
    let rl := prune rl ip validTime in
    if RateLimiter.maxRequests rl <=? Z.of_nat (length (requests_of rl ip))
    then
      let c := gin.Header "X-RateLimit-Limit"
                 (Sprintf_d (RateLimiter.maxRequests rl)) c in
      let c := gin.Header "X-RateLimit-Remaining" "0" c in
      let resetTime := time.Add validTime (RateLimiter.windowLength rl) in
      let c := gin.Header "X-RateLimit-Reset"
                 (Sprintf_d (time.Unix resetTime)) c in
      (rl, gin.AbortWithStatusJSON StatusTooManyRequests err_rate_limited c)
    else
      let rl :=
        RateLimiter.set_ipLimits
          (<[ip := requests_of rl ip ++ [now]]> (RateLimiter.ipLimits rl)) rl in
      let c := gin.Header "X-RateLimit-Limit"
                 (Sprintf_d (RateLimiter.maxRequests rl)) c in
      let c := gin.Header "X-RateLimit-Remaining"
                 (Sprintf_d (RateLimiter.maxRequests rl
                             - Z.of_nat (length (requests_of rl ip)))) c in
      (rl, gin.Next c).

(** A run of the limiter: the requests arrive one after the other, each
    from an address at an instant, each in a context of its own. *)
Fixpoint serve (rl : RateLimiter.t) (calls : list (string * Z))
  : RateLimiter.t * list gin.Context :=
  match calls with
  | [] => (rl, [])
  | (ip, now) :: rest =>
      let r := RateLimit rl now (gin.request ip) in
      let rs := serve r.1 rest in
      (rs.1, r.2 :: rs.2)
  end.

(** *** The limiter as the specification words it *)

Module RateLimiterSpec.

Record Decision := mkDecision { allowed : bool; limit : Z; remaining : Z }.

(** One admission call on the recorded timestamps of a caller: drop the
    timestamps at or before [now - W]; reject when [N] or more are left;
    otherwise record [now] and admit. *)
Definition admission (N W : Z) (recorded : list Z) (now : Z)
  : Decision * list Z :=
  let cutoff := now - W in
  let retained := filter (λ t, ¬ t ≤ cutoff) recorded in
  if bool_decide (N ≤ Z.of_nat (length retained))
  then (mkDecision false N 0, retained)
  else
    let recorded' := retained ++ [now] in
    (mkDecision true N (N - Z.of_nat (length recorded')), recorded').

(** The decision a context carries. *)
Definition decided (c : gin.Context) (d : Decision) : Prop :=
  gin.NextCalled c = allowed d
  ∧ (gin.Aborted c = None ↔ allowed d = true)
  ∧ gin.Headers c !! "X-RateLimit-Limit" = Some (Sprintf_d (limit d))
  ∧ gin.Headers c !! "X-RateLimit-Remaining" = Some (Sprintf_d (remaining d)).

End RateLimiterSpec.

(** *** What the specification says of the ledger reference *)

(** The two-character ledger prefix followed by exactly 64 hexadecimal
    characters. *)
Definition ledger_reference_well_formed (reference : string) : Prop :=
  ∃ h : string,
    reference = "0x" +:+ h ∧ String.length h = 64%nat
    ∧ Forall (λ c, is_hex c = true) (bytes h).

(** The error kinds of the specification, read off the messages of the
    code's [errors.New]. *)
Definition DuplicateTaxID (e : error) : Prop :=
  e = Some err_cnpj_registered ∨ e = Some err_cnpj_active_ngo.
Definition NotFound (e : error) : Prop := e = Some err_registration_not_found.
Definition PreconditionFailed (e : error) : Prop :=
  e = Some err_cnpj_not_validated ∨ e = Some err_documents_missing.

(** ** Vocabulary of the statements *)

(** The entry [logAuditAction] appends in world [w], its clock reading
    being the one numbered [at_tick]. *)
Definition audit_log (w : World) (adminID : N) (action entityType : string)
    (entityID : N) (previousState newState : string) (at_tick : nat)
  : AuditLog.t :=
  AuditLog.mk (N.of_nat (length (AdminService.auditLogs (admin w)) + 1))
    adminID action entityType entityID previousState newState newState
    false false [] (clock w at_tick).

(** The record [ApproveNGO] leaves in place of [reg]. *)
Definition approved_registration (blockchainRef comments : string) (now : Z)
    (reg : NGORegistration.t) : NGORegistration.t :=
  NGORegistration.set_UpdatedAt now
    (NGORegistration.set_AdminComments comments
       (NGORegistration.set_Status NGOStatusApproved
          (NGORegistration.set_BlockchainRef blockchainRef reg))).

(** The organization [ApproveNGO] creates from [reg] in world [w]. *)
Definition minted_ngo (w : World) (blockchainRef : string)
    (reg : NGORegistration.t) : NGO.t :=
  NGO.mk (N.of_nat (length (AdminService.ngos (admin w)) + 1))
    (NGORegistration.Name reg) (NGORegistration.Description reg)
    (NGORegistration.Category reg) (NGORegistration.CNPJ reg)
    (NGORegistration.Email reg) (NGORegistration.Phone reg)
    (NGORegistration.Address reg) (NGORegistration.LogoURL reg)
    (NGORegistration.DocumentsIPFS reg) blockchainRef
    (NGORegistration.ResponsibleID reg)
    (clock w (S (S (ticks w)))) (clock w (S (S (S (ticks w))))).

(** The tax ID is that of a stored registration, whatever its status, or
    of an organization of the administration service. *)
Definition tax_id_in_use (cnpj : string) (w : World) : Prop :=
  Exists (λ reg, NGORegistration.CNPJ reg = cnpj) (regs w)
  ∨ Exists (λ ngo, NGO.CNPJ ngo = cnpj) (AdminService.ngos (admin w)).

(** The record [RegisterNGO] stores for [req] in world [w]; the flag and
    the message are those of the validator (see
    [validateCNPJFormat_eq_validate]). *)
Definition new_registration (w : World) (req : NGORegistrationRequest.t)
  : NGORegistration.t :=
  let v := ChecksumSpec.validate (NGORegistrationRequest.CNPJ req) in
  NGORegistration.mk (N.of_nat (length (regs w) + 1))
    (NGORegistrationRequest.Name req)
    (NGORegistrationRequest.Description req)
    (NGORegistrationRequest.Category req)
    (NGORegistrationRequest.CNPJ req)
    v.1 v.2
    (NGORegistrationRequest.Email req)
    (NGORegistrationRequest.Phone req)
    (NGORegistrationRequest.Address req)
    (NGORegistrationRequest.ResponsibleID req)
    (NGORegistrationRequest.LogoURL req)
    "" "" NGOStatusPending "" (clock w (ticks w)) (clock w (S (ticks w))).

(** The error list and the log comment of an audit, from the two
    references. *)
Definition validation_errors (blockchainRef ipfsRef : string) : list string :=
  (if verifyBlockchainReference blockchainRef then []
   else [err_blockchain_invalid])
  ++ (if verifyIPFSReference ipfsRef then [] else [err_ipfs_invalid]).

(** [comments] of [AuditEntity]. *)
Definition audit_comments (errs : list string) : string :=
  match errs with
  | [] => "Auditoria concluída com sucesso"
  | _ => "Auditoria com erros: " +:+ Sprintf_v errs
  end.

(** The result [AuditEntity] returns for an entity with these two
    references. *)
Definition audit_result (w : World) (req : AuditRequest.t)
    (blockchainRef ipfsRef : string) : AuditResult.t :=
  AuditResult.mk (AuditRequest.EntityType req) (AuditRequest.EntityID req)
    (verifyBlockchainReference blockchainRef) (verifyIPFSReference ipfsRef)
    blockchainRef ipfsRef (clock w (ticks w))
    (validation_errors blockchainRef ipfsRef).

(** A world to run examples in: nothing stored, the clock ticking in
    nanoseconds from zero. *)
Definition world0 : World :=
  mkWorld NewAdminService (DonationService.mk [] [] []) (ExpenseService.mk [])
    (λ k, Z.of_nat k) 0 (λ seed k, k).

(** An organization whose ledger reference is too short. *)
Definition ngo_bad_ref : NGO.t :=
  NGO.mk 1 "Casa" "" "" "11222333000181" "" "" "" "" "" "0x12" 7 0 0.

(** What an approval leaves untouched in the record. *)
Definition same_identity (reg reg' : NGORegistration.t) : Prop :=
  NGORegistration.ID reg' = NGORegistration.ID reg
  ∧ NGORegistration.Name reg' = NGORegistration.Name reg
  ∧ NGORegistration.Description reg' = NGORegistration.Description reg
  ∧ NGORegistration.Category reg' = NGORegistration.Category reg
  ∧ NGORegistration.CNPJ reg' = NGORegistration.CNPJ reg
  ∧ NGORegistration.CNPJValid reg' = NGORegistration.CNPJValid reg
  ∧ NGORegistration.Email reg' = NGORegistration.Email reg
  ∧ NGORegistration.Phone reg' = NGORegistration.Phone reg
  ∧ NGORegistration.Address reg' = NGORegistration.Address reg
  ∧ NGORegistration.ResponsibleID reg' = NGORegistration.ResponsibleID reg
  ∧ NGORegistration.LogoURL reg' = NGORegistration.LogoURL reg
  ∧ NGORegistration.DocumentsIPFS reg' = NGORegistration.DocumentsIPFS reg.

(** The organization copies the identity fields of the registration. *)
Definition copies_identity (reg : NGORegistration.t) (ngo : NGO.t) : Prop :=
  NGO.Name ngo = NGORegistration.Name reg
  ∧ NGO.Description ngo = NGORegistration.Description reg
  ∧ NGO.Category ngo = NGORegistration.Category reg
  ∧ NGO.CNPJ ngo = NGORegistration.CNPJ reg
  ∧ NGO.Email ngo = NGORegistration.Email reg
  ∧ NGO.Phone ngo = NGORegistration.Phone reg
  ∧ NGO.Address ngo = NGORegistration.Address reg
  ∧ NGO.LogoURL ngo = NGORegistration.LogoURL reg
  ∧ NGO.DocumentsIPFS ngo = NGORegistration.DocumentsIPFS reg
  ∧ NGO.ResponsibleID ngo = NGORegistration.ResponsibleID reg.

(** The status a successful call writes into the record it is aimed at. *)
Definition status_written (op : Op) : option NGORegistrationStatus :=
  match op with
  | OpValidateCNPJOnline _ => Some NGOStatusValidating
  | OpApprove _ _ _ => Some NGOStatusApproved
  | OpReject _ _ _ => Some NGOStatusRejected
  | OpRegister _ | OpUploadNGODocuments _ _ | OpAudit _ _ => None
  end.

(** What a successful call does to the record it is aimed at. *)
Definition changed_by (op : Op) (reg reg' : NGORegistration.t) : Prop :=
  NGORegistration.ID reg' = NGORegistration.ID reg
  ∧ NGORegistration.CNPJ reg' = NGORegistration.CNPJ reg
  ∧ match op with
    | OpValidateCNPJOnline _ | OpReject _ _ _ =>
        status_written op = Some (NGORegistration.Status reg')
        ∧ NGORegistration.BlockchainRef reg' = NGORegistration.BlockchainRef reg
        ∧ NGORegistration.DocumentsIPFS reg' = NGORegistration.DocumentsIPFS reg
    | OpUploadNGODocuments _ _ =>
        NGORegistration.Status reg' = NGORegistration.Status reg
        ∧ NGORegistration.BlockchainRef reg' = NGORegistration.BlockchainRef reg
        ∧ verifyIPFSReference (NGORegistration.DocumentsIPFS reg') = true
    | OpApprove _ _ _ =>
        status_written op = Some (NGORegistration.Status reg')
        ∧ verifyBlockchainReference (NGORegistration.BlockchainRef reg') = true
        ∧ NGORegistration.DocumentsIPFS reg' = NGORegistration.DocumentsIPFS reg
        ∧ NGORegistration.DocumentsIPFS reg ≠ ""
    | OpRegister _ | OpAudit _ _ => False
    end.

(** What one call does to the registrations and to the organizations:
    nothing (a failed call, an audit); one registration appended; or one
    registration rewritten in place, with one organization appended when
    the call is an approval. *)
Inductive effect (w : World) (op : Op) (e : error) (w' : World) : Prop :=
| effect_none :
    e ≠ None ∨ target op = None →
    regs w' = regs w →
    AdminService.ngos (admin w') = AdminService.ngos (admin w) →
    effect w op e w'
| effect_register (req : NGORegistrationRequest.t) :
    op = OpRegister req → e = None →
    ¬ tax_id_in_use (NGORegistrationRequest.CNPJ req) w →
    regs w' = regs w ++ [new_registration w req] →
    AdminService.ngos (admin w') = AdminService.ngos (admin w) →
    effect w op e w'
| effect_update (i : nat) (reg reg' : NGORegistration.t) :
    e = None →
    list_find (λ r, NGORegistration.ID r = NGORegistration.ID reg) (regs w)
    = Some (i, reg) →
    target op = Some (NGORegistration.ID reg) →
    regs w' = <[i := reg']> (regs w) →
    changed_by op reg reg' →
    AdminService.ngos (admin w') = AdminService.ngos (admin w)
    ∨ (∃ ngo, AdminService.ngos (admin w') = AdminService.ngos (admin w) ++ [ngo]
              ∧ status_written op = Some NGOStatusApproved
              ∧ NGO.CNPJ ngo = NGORegistration.CNPJ reg
              ∧ NGO.BlockchainRef ngo = NGORegistration.BlockchainRef reg'
              ∧ NGO.DocumentsIPFS ngo = NGORegistration.DocumentsIPFS reg) →
    effect w op e w'.

(** A run of calls from one world to another. *)
Inductive calls : World → list Op → World → Prop :=
| calls_nil (w : World) : calls w [] w
| calls_cons (w w1 w2 : World) (op : Op) (ops : list Op) (e : error) :
    run_op op w = Some (e, w1) → calls w1 ops w2 → calls w (op :: ops) w2.

(** What holds of every record and organization of a reachable world. *)
Definition record_ok (reg : NGORegistration.t) : Prop :=
  (NGORegistration.Status reg = NGOStatusApproved →
   verifyBlockchainReference (NGORegistration.BlockchainRef reg) = true)
  ∧ (NGORegistration.Status reg = NGOStatusPending →
     NGORegistration.BlockchainRef reg = "")
  ∧ (NGORegistration.DocumentsIPFS reg = ""
     ∨ verifyIPFSReference (NGORegistration.DocumentsIPFS reg) = true).

(** Both references of an organization pass their format checks. *)
Definition ngo_ok (ngo : NGO.t) : Prop :=
  verifyBlockchainReference (NGO.BlockchainRef ngo) = true
  ∧ verifyIPFSReference (NGO.DocumentsIPFS ngo) = true.

(** A request with a valid tax ID. *)
Definition req_casa : NGORegistrationRequest.t :=
  NGORegistrationRequest.mk "Casa" "abrigo" "Saúde" "11222333000181"
    "casa@example.com" "555" "Rua 1" 7 "".

(** The timestamps of a caller that are still inside the window at
    [now]. *)
Definition retained (rl : RateLimiter.t) (ip : string) (now : Z) : list Z :=
  filter (λ t, now - RateLimiter.windowLength rl < t) (requests_of rl ip).

(** A run of admission calls on the recorded timestamps of all callers:
    the decisions, in order, and the timestamps recorded at the end. *)
Fixpoint admissions (N W : Z) (recorded : gmap string (list Z))
    (calls : list (string * Z))
  : list RateLimiterSpec.Decision * gmap string (list Z) :=
  match calls with
  | [] => ([], recorded)
  | (ip, now) :: rest =>
      let r := RateLimiterSpec.admission N W (default [] (recorded !! ip)) now in
      let rs := admissions N W (<[ip := r.2]> recorded) rest in
      (r.1 :: rs.1, rs.2)
  end.

(** What the client of a call sees: whether the request went through,
    the status it was answered with if not, and the remaining-requests
    header. *)
Definition outcome (c : gin.Context) : bool * option Z * option string :=
  (gin.NextCalled c, fst <$> gin.Aborted c,
   gin.Headers c !! "X-RateLimit-Remaining").

(** [var results []T; for _, x := range l { if keep(x) { results =
    append(results, x) } }]. *)
Fixpoint range_append {A} (keep : A → bool) (l results : list A) : list A :=
  match l with
  | [] => results
  | x :: rest => range_append keep rest (if keep x then results ++ [x] else results)
  end.

(** These methods only read their receiver: they are functions of it. *)
Definition GetNGORegistrations (s : AdminService.t) : list NGORegistration.t :=
  AdminService.ngoRegistrations s.

Definition GetNGORegistrationByID (s : AdminService.t) (registrationID : N)
  : NGORegistration.t * error :=
  match list_find (λ reg, NGORegistration.ID reg = registrationID)
          (AdminService.ngoRegistrations s) with
  | Some (_, reg) => (reg, None)
  | None => (NGORegistration.zero, errors_New err_registration_not_found)
  end.

Definition GetNGORegistrationsByCNPJ (s : AdminService.t) (cnpj : string)
  : list NGORegistration.t :=
  range_append (λ reg, String.eqb (NGORegistration.CNPJ reg) cnpj)
    (AdminService.ngoRegistrations s) [].

Definition GetAuditLogs (s : AdminService.t) : list AuditLog.t :=
  AdminService.auditLogs s.

Definition GetAuditLogsByEntityType (s : AdminService.t) (entityType : string)
  : list AuditLog.t :=
  range_append (λ log, String.eqb (AuditLog.EntityType log) entityType)
    (AdminService.auditLogs s) [].

Definition GetAuditLogsByEntityID (s : AdminService.t) (entityType : string)
    (entityID : N) : list AuditLog.t :=
  range_append (λ log, String.eqb (AuditLog.EntityType log) entityType
                       && N.eqb (AuditLog.EntityID log) entityID)
    (AdminService.auditLogs s) [].

(** [GetLimits]: [for ip, requests := range rl.ipLimits { limits[ip] =
    len(requests) }], the keys visited in some order. *)
Definition GetLimits (rl : RateLimiter.t) : gmap string Z :=
  map_fold (λ ip requests limits, <[ip := Z.of_nat (length requests)]> limits)
    ∅ (RateLimiter.ipLimits rl).

(** The record each method leaves in place of the one it found. *)
Definition validated_registration (now : Z) (reg : NGORegistration.t)
  : NGORegistration.t :=
  NGORegistration.set_UpdatedAt now
    (NGORegistration.set_Status NGOStatusValidating
       (NGORegistration.set_CNPJValidationMsg "CNPJ verificado online e válido"
          (NGORegistration.set_CNPJValid true reg))).

Definition uploaded_registration (ipfsHash : string) (now : Z)
    (reg : NGORegistration.t) : NGORegistration.t :=
  NGORegistration.set_UpdatedAt now
    (NGORegistration.set_DocumentsIPFS ipfsHash reg).

Definition rejected_registration (reason : string) (now : Z)
    (reg : NGORegistration.t) : NGORegistration.t :=
  NGORegistration.set_UpdatedAt now
    (NGORegistration.set_AdminComments reason
       (NGORegistration.set_Status NGOStatusRejected reg)).

(** [outcome_of w op e w']: what a call can return and the world it
    leaves, one case for each path through each method. *)
Inductive outcome_of (w : World) : Op → error → World → Prop :=
| register_duplicate req e :
    tax_id_in_use (NGORegistrationRequest.CNPJ req) w →
    DuplicateTaxID e →
    outcome_of w (OpRegister req) e w
| register_ok req :
    ¬ tax_id_in_use (NGORegistrationRequest.CNPJ req) w →
    outcome_of w (OpRegister req) None
      (log_appended
         (audit_log w 0 "ngo_registration_created" "ngo_registration"
            (NGORegistration.ID (new_registration w req)) ""
            ("Registro de ONG solicitado: "
             +:+ NGORegistrationRequest.Name req
             +:+ " (CNPJ: " +:+ NGORegistrationRequest.CNPJ req +:+ ")")
            (S (S (ticks w))))
         (with_ticks (S (S (S (ticks w))))
            (registration_appended (new_registration w req) w)))
| validate_not_found id :
    list_find (λ r, NGORegistration.ID r = id) (regs w) = None →
    outcome_of w (OpValidateCNPJOnline id) (Some err_registration_not_found) w
| validate_invalid id i reg :
    list_find (λ r, NGORegistration.ID r = id) (regs w) = Some (i, reg) →
    NGORegistration.CNPJValid reg = false →
    outcome_of w (OpValidateCNPJOnline id)
      (Some (NGORegistration.CNPJValidationMsg reg)) w
| validate_ok id i reg :
    list_find (λ r, NGORegistration.ID r = id) (regs w) = Some (i, reg) →
    NGORegistration.CNPJValid reg = true →
    outcome_of w (OpValidateCNPJOnline id) None
      (log_appended
         (audit_log w 0 "cnpj_validated" "ngo_registration" id
            (NGORegistration.Status reg) NGOStatusValidating (S (ticks w)))
         (with_ticks (S (S (ticks w)))
            (update_registration i
               (validated_registration (clock w (ticks w)) reg) w)))
| upload_not_found id f :
    list_find (λ r, NGORegistration.ID r = id) (regs w) = None →
    outcome_of w (OpUploadNGODocuments id f)
      (Some err_registration_not_found) w
| upload_invalid id f i reg :
    list_find (λ r, NGORegistration.ID r = id) (regs w) = Some (i, reg) →
    NGORegistration.CNPJValid reg = false →
    outcome_of w (OpUploadNGODocuments id f)
      (Some err_upload_needs_valid_cnpj) w
| upload_ok id f i reg h :
    list_find (λ r, NGORegistration.ID r = id) (regs w) = Some (i, reg) →
    NGORegistration.CNPJValid reg = true →
    String.length h = 46%nat →
    outcome_of w (OpUploadNGODocuments id f) None
      (log_appended
         (audit_log w 0 "documents_uploaded" "ngo_registration" id ""
            ("Documentos enviados para IPFS: " +:+ ("Qm" +:+ h))
            (S (S (ticks w))))
         (with_ticks (S (S (S (ticks w))))
            (update_registration i
               (uploaded_registration ("Qm" +:+ h) (clock w (S (ticks w))) reg)
               w)))
| approve_not_found id a c :
    list_find (λ r, NGORegistration.ID r = id) (regs w) = None →
    outcome_of w (OpApprove id a c) (Some err_registration_not_found) w
| approve_invalid id a c i reg :
    list_find (λ r, NGORegistration.ID r = id) (regs w) = Some (i, reg) →
    NGORegistration.CNPJValid reg = false →
    outcome_of w (OpApprove id a c) (Some err_cnpj_not_validated) w
| approve_no_documents id a c i reg :
    list_find (λ r, NGORegistration.ID r = id) (regs w) = Some (i, reg) →
    NGORegistration.CNPJValid reg = true →
    NGORegistration.DocumentsIPFS reg = "" →
    outcome_of w (OpApprove id a c) (Some err_documents_missing) w
| approve_ok id a c i reg ref :
    list_find (λ r, NGORegistration.ID r = id) (regs w) = Some (i, reg) →
    NGORegistration.CNPJValid reg = true →
    NGORegistration.DocumentsIPFS reg ≠ "" →
    verifyBlockchainReference ref = true →
    outcome_of w (OpApprove id a c) None
      (log_appended
         (audit_log w a "ngo_approved" "ngo" (NGO.ID (minted_ngo w ref reg))
            NGOStatusValidating NGOStatusApproved (S (S (S (S (ticks w))))))
         (ngo_minted (minted_ngo w ref reg)
            (with_ticks (S (S (S (S (S (ticks w))))))
               (update_registration i
                  (approved_registration ref c (clock w (S (ticks w))) reg)
                  w))))
| reject_not_found id a c :
    list_find (λ r, NGORegistration.ID r = id) (regs w) = None →
    outcome_of w (OpReject id a c) (Some err_registration_not_found) w
| reject_ok id a c i reg :
    list_find (λ r, NGORegistration.ID r = id) (regs w) = Some (i, reg) →
    outcome_of w (OpReject id a c) None
      (log_appended
         (audit_log w a "ngo_rejected" "ngo_registration" id
            (NGORegistration.Status reg) NGOStatusRejected (S (ticks w)))
         (with_ticks (S (S (ticks w)))
            (update_registration i
               (rejected_registration c (clock w (ticks w)) reg) w)))
| audit_error req a msg :
    resolve_references req w = inr msg →
    outcome_of w (OpAudit req a) (Some msg) (with_ticks (S (ticks w)) w)
| audit_ok req a blockchainRef ipfsRef :
    resolve_references req w = inl (blockchainRef, ipfsRef) →
    outcome_of w (OpAudit req a) None
      (log_appended
         (audit_log w a "audit_performed" (AuditRequest.EntityType req)
            (AuditRequest.EntityID req) ""
            (audit_comments (validation_errors blockchainRef ipfsRef))
            (S (ticks w)))
         (with_ticks (S (S (ticks w))) w)).

(** The IDs of a slice are its positions counted from one. *)
Definition sequential {A} (ID : A → N) (l : list A) : Prop :=
  ∀ (i : nat) (x : A), l !! i = Some x → ID x = N.of_nat (i + 1).

(** What the service keeps true of its own state. *)
Record well_formed (w : World) : Prop := mk_well_formed {
  wf_registration_ids : sequential NGORegistration.ID (regs w);
  wf_ngo_ids : sequential NGO.ID (AdminService.ngos (admin w));
  wf_log_ids : sequential AuditLog.ID (AdminService.auditLogs (admin w));
  wf_tax_ids : NoDup (NGORegistration.CNPJ <$> regs w);
  wf_flags :
    Forall (λ reg, ∃ msg,
              validateCNPJFormat (NGORegistration.CNPJ reg)
              = Some (NGORegistration.CNPJValid reg, msg)
              ∧ (NGORegistration.CNPJValid reg = false →
                 NGORegistration.CNPJValidationMsg reg = msg))
      (regs w);
  wf_ngos :
    Forall (λ ngo, validateCNPJFormat (NGO.CNPJ ngo) = Some (true, msg_valid)
                   ∧ NGO.CNPJ ngo ∈ NGORegistration.CNPJ <$> regs w)
      (AdminService.ngos (admin w)) }.

(** The fields no method ever writes after the registration is made. *)
Definition same_submission (reg reg' : NGORegistration.t) : Prop :=
  NGORegistration.ID reg' = NGORegistration.ID reg
  ∧ NGORegistration.Name reg' = NGORegistration.Name reg
  ∧ NGORegistration.Description reg' = NGORegistration.Description reg
  ∧ NGORegistration.Category reg' = NGORegistration.Category reg
  ∧ NGORegistration.CNPJ reg' = NGORegistration.CNPJ reg
  ∧ NGORegistration.Email reg' = NGORegistration.Email reg
  ∧ NGORegistration.Phone reg' = NGORegistration.Phone reg
  ∧ NGORegistration.Address reg' = NGORegistration.Address reg
  ∧ NGORegistration.ResponsibleID reg' = NGORegistration.ResponsibleID reg
  ∧ NGORegistration.LogoURL reg' = NGORegistration.LogoURL reg
  ∧ NGORegistration.CreatedAt reg' = NGORegistration.CreatedAt reg.

(** The entity an audit request names is stored: an organization of the
    administration service, a donation of the donation service or an
    expense of the expense service. *)
Definition entity_exists (req : AuditRequest.t) (w : World) : Prop :=
  (AuditRequest.EntityType req = "ngo"
   ∧ ∃ ngo, ngo ∈ AdminService.ngos (admin w)
            ∧ NGO.ID ngo = AuditRequest.EntityID req)
  ∨ (AuditRequest.EntityType req = "donation"
     ∧ ∃ d, d ∈ DonationService.donations (donationService w)
            ∧ Donation.ID d = AuditRequest.EntityID req)
  ∨ (AuditRequest.EntityType req = "expense"
     ∧ ∃ x, x ∈ ExpenseService.expenses (expenseService w)
            ∧ Expense.ID x = AuditRequest.EntityID req).

(** A world with one donation and no receipt. *)
Definition world_one_donation : World :=
  mkWorld NewAdminService
    (DonationService.mk [Donation.mk 1 2 3 0 "confirmed" "0xabc"] [] [])
    (ExpenseService.mk []) (λ k, Z.of_nat k) 0 (λ seed k, k).

(** The calls arrive in the order of their instants: no call is earlier
    than one before it. *)
Fixpoint chronological (calls : list (string * Z)) : Prop :=
  match calls with
  | [] => True
  | (_, now) :: rest => Forall (λ p, now ≤ p.2) rest ∧ chronological rest
  end.

(** The instants of the calls of [ip] that were let through, [cs] being
    the contexts the calls ended with. *)
Definition admitted (ip : string) (calls : list (string * Z))
    (cs : list gin.Context) : list Z :=
  (λ p, p.1.2)
  <$> filter (λ p, p.1.1 = ip ∧ gin.NextCalled p.2 = true) (zip calls cs).

(** The request of [req_casa] with its tax ID written with
    punctuation. *)
Definition req_casa_formatted : NGORegistrationRequest.t :=
  NGORegistrationRequest.mk "Casa" "abrigo" "Saúde" "11.222.333/0001-81"
    "casa@example.com" "555" "Rua 1" 7 "".

(** * Properties *)

(** ** Strings as byte lists *)

Lemma len_bytes (s : string) : len s = length (bytes s).
Proof. induction s as [|c s IH]; simpl; [done | by rewrite <- IH]. Qed.

Lemma index_bytes (s : string) (i : nat) : index s i = bytes s !! i.
Proof.
  revert i. induction s as [|c s IH]; intros [|i]; simpl; try done.
Qed.

Lemma bytes_app (s t : string) : bytes (s +:+ t) = bytes s ++ bytes t.
Proof. induction s as [|c s IH]; simpl; [done | by rewrite IH]. Qed.

Lemma bytes_inj (s t : string) : bytes s = bytes t → s = t.
Proof.
  revert t. induction s as [|c s IH]; intros [|c' t]; simpl; try done.
  intros [= -> H]. f_equal. by apply IH.
Qed.

Lemma code_inj (a b : ascii) : code a = code b → a = b.
Proof.
  unfold code. intros H. apply Nat2Z.inj in H.
  rewrite <- (ascii_nat_embedding a), <- (ascii_nat_embedding b).
  by rewrite H.
Qed.

Lemma strip_bytes (s : string) :
  bytes (strip_non_digits s) = filter (λ c, is_digit c = true) (bytes s).
Proof.
  induction s as [|c s IH]; simpl; [done|].
  destruct (is_digit c) eqn:Hc; simpl.
  - rewrite filter_cons_True by done. by rewrite IH.
  - rewrite filter_cons_False; [done | by rewrite Hc].
Qed.

Lemma strip_all_digits (s : string) :
  Forall (λ c, is_digit c = true) (bytes (strip_non_digits s)).
Proof.
  rewrite strip_bytes. apply Forall_forall. intros c Hc.
  by apply list_elem_of_filter in Hc as [? _].
Qed.

(** ** Loop invariants of the validator *)

Lemma byte_sub_digit (c : ascii) :
  is_digit c = true → byte_sub c "0" = ChecksumSpec.digit_value c.
Proof.
  unfold is_digit, byte_sub, ChecksumSpec.digit_value.
  change (code "0") with 48. intros H.
  apply andb_true_iff in H as [H1 H2].
  apply Z.leb_le in H1, H2. apply Z.mod_small. lia.
Qed.

Lemma digit_value_range (c : ascii) :
  is_digit c = true → 0 ≤ ChecksumSpec.digit_value c ≤ 9.
Proof.
  unfold is_digit, ChecksumSpec.digit_value. intros H.
  apply andb_true_iff in H as [H1 H2]. apply Z.leb_le in H1, H2. lia.
Qed.

Lemma allEqual_loop_spec (s : string) (c0 : ascii) (i n : nat) :
  bytes s !! 0%nat = Some c0 →
  (i + n)%nat = length (bytes s) →
  allEqual_loop s i n
  = Some (forallb (λ c, Ascii.eqb c c0) (drop i (bytes s))).
Proof.
  intros H0. revert i. induction n as [|n IH]; intros i Hlen; simpl.
  - rewrite drop_ge by lia. done.
  - rewrite !index_bytes, H0.
    destruct (lookup_lt_is_Some_2 (bytes s) i) as [c Hc]; [lia|].
    rewrite Hc. simpl. rewrite (drop_S _ _ _ Hc). simpl.
    destruct (Ascii.eqb c c0); simpl; [|done].
    apply IH. lia.
Qed.

Lemma sum_loop_spec (s : string) (ws : list Z) (i n : nat) (acc : Z) :
  Forall (λ c, is_digit c = true) (bytes s) →
  (i + n ≤ length (bytes s))%nat →
  (i + n ≤ length ws)%nat →
  sum_loop s ws i n acc
  = Some (acc + ChecksumSpec.weighted_sum
                  (ChecksumSpec.digit_value <$> take n (drop i (bytes s)))
                  (drop i ws)).
Proof.
  intros Hd. revert i acc. induction n as [|n IH]; intros i acc Hs Hw; simpl.
  - unfold ChecksumSpec.weighted_sum. simpl. f_equal. lia.
  - rewrite index_bytes.
    destruct (lookup_lt_is_Some_2 (bytes s) i) as [c Hc]; [lia|].
    destruct (lookup_lt_is_Some_2 ws i) as [w Hw']; [lia|].
    rewrite Hc, Hw'. simpl.
    rewrite IH by lia.
    rewrite (drop_S _ _ _ Hc), (drop_S _ _ _ Hw'). simpl.
    rewrite byte_sub_digit.
    + unfold ChecksumSpec.weighted_sum. simpl. f_equal.
      rewrite <- Z.add_assoc. reflexivity.
    + exact (Forall_lookup_1 _ _ _ _ Hd Hc).
Qed.

Lemma weighted_sum_nonneg (ds ws : list Z) :
  Forall (λ d, 0 ≤ d) ds → Forall (λ w, 0 ≤ w) ws →
  0 ≤ ChecksumSpec.weighted_sum ds ws.
Proof.
  unfold ChecksumSpec.weighted_sum. intros Hds. revert ws.
  induction Hds as [|d ds Hd _ IH]; intros ws Hws; simpl; [done|].
  destruct Hws as [|w ws Hw Hws]; simpl; [done|].
  specialize (IH ws Hws). nia.
Qed.

Lemma verificationDigit_check (ds ws : list Z) :
  Forall (λ d, 0 ≤ d) ds → Forall (λ w, 0 ≤ w) ws →
  verificationDigit (0 + ChecksumSpec.weighted_sum ds ws)
  = ChecksumSpec.check_digit ds ws.
Proof.
  intros Hds Hws. pose proof (weighted_sum_nonneg ds ws Hds Hws) as Hnn.
  unfold verificationDigit, ChecksumSpec.check_digit.
  rewrite Z.add_0_l, Z.rem_mod_nonneg by lia. cbv zeta.
  destruct (Z.leb_spec 2 (ChecksumSpec.weighted_sum ds ws `mod` 11));
    destruct (Z.ltb_spec (ChecksumSpec.weighted_sum ds ws `mod` 11) 2); lia.
Qed.

Lemma eqb_digit_value (c c0 : ascii) :
  Ascii.eqb c c0
  = (ChecksumSpec.digit_value c0 =? ChecksumSpec.digit_value c).
Proof.
  destruct (Ascii.eqb_spec c c0) as [->|Hne].
  - symmetry. apply Z.eqb_refl.
  - symmetry. apply Z.eqb_neq. intros H. apply Hne, code_inj.
    unfold ChecksumSpec.digit_value in H. lia.
Qed.

Lemma forallb_eqb_digit_value (c0 : ascii) (l : list ascii) :
  forallb (λ c, Ascii.eqb c c0) l
  = forallb (Z.eqb (ChecksumSpec.digit_value c0))
      (ChecksumSpec.digit_value <$> l).
Proof.
  induction l as [|c l IH]; simpl; [done|].
  by rewrite IH, eqb_digit_value.
Qed.

Lemma digits_nonneg (l : list ascii) :
  Forall (λ c, is_digit c = true) l →
  Forall (λ d, 0 ≤ d) (ChecksumSpec.digit_value <$> l).
Proof.
  intros H. apply Forall_fmap. eapply Forall_impl; [exact H|].
  intros c Hc. simpl. pose proof (digit_value_range c Hc). lia.
Qed.

Lemma check_at (s : string) (k : nat) (x : Z) (c : ascii) :
  is_digit c = true → bytes s !! k = Some c →
  negb (byte_sub c "0" =? x)
  = negb (bool_decide ((ChecksumSpec.digit_value <$> bytes s) !! k = Some x)).
Proof.
  intros Hc Hk. rewrite byte_sub_digit by done.
  rewrite list_lookup_fmap, Hk. simpl. f_equal.
  destruct (Z.eqb_spec (ChecksumSpec.digit_value c) x) as [->|Hne].
  - by rewrite bool_decide_eq_true_2.
  - rewrite bool_decide_eq_false_2; [done|]. by intros [= ?].
Qed.

(** ** The tax-ID validator *)

(** The code and the validator worded from the specification agree on
    every string, and the code never panics. *)
Lemma validateCNPJFormat_eq_validate (cnpj : string) :
  validateCNPJFormat cnpj = Some (ChecksumSpec.validate cnpj).
Proof.
  unfold validateCNPJFormat, ChecksumSpec.validate, ChecksumSpec.digits.
  rewrite <- strip_bytes.
  pose proof (strip_all_digits cnpj) as Hd.
  set (d := strip_non_digits cnpj) in *. cbv zeta.
  rewrite length_fmap, <- len_bytes.
  destruct (len d =? 14)%nat eqn:Hlen; cbn [negb]; [|reflexivity].
  apply Nat.eqb_eq in Hlen.
  assert (Hl : length (bytes d) = 14%nat) by (by rewrite <- len_bytes).
  destruct (lookup_lt_is_Some_2 (bytes d) 0) as [c0 H0]; [lia|].
  destruct (lookup_lt_is_Some_2 (bytes d) 12) as [c12 H12]; [lia|].
  destruct (lookup_lt_is_Some_2 (bytes d) 13) as [c13 H13]; [lia|].
  assert (Hw1 : Forall (λ w, 0 ≤ w) ChecksumSpec.weights1)
    by (repeat constructor; lia).
  assert (Hw2 : Forall (λ w, 0 ≤ w) ChecksumSpec.weights2)
    by (repeat constructor; lia).
  rewrite (allEqual_loop_spec d c0 1 (len d - 1) H0) by lia.
  rewrite forallb_eqb_digit_value.
  replace (ChecksumSpec.all_identical (ChecksumSpec.digit_value <$> bytes d))
    with (forallb (Z.eqb (ChecksumSpec.digit_value c0))
            (ChecksumSpec.digit_value <$> drop 1 (bytes d))).
  2:{ destruct (bytes d) as [|c l]; [done|].
      injection H0 as ->. reflexivity. }
  cbn [mbind option_bind].
  destruct (forallb _ _); [reflexivity|].
  rewrite !(sum_loop_spec d) by (done || (simpl; lia)).
  cbn [mbind option_bind]. rewrite !index_bytes, H12, H13.
  cbn [mbind option_bind].
  change (drop 0 ?l) with l.
  rewrite !verificationDigit_check by (done || (apply digits_nonneg, Forall_take, Hd)).
  unfold ChecksumSpec.first_check_ok, ChecksumSpec.second_check_ok.
  rewrite !fmap_take.
  rewrite <- (check_at d 12 _ c12), <- (check_at d 13 _ c13);
    try done; try exact (Forall_lookup_1 _ _ _ _ Hd H12);
    try exact (Forall_lookup_1 _ _ _ _ Hd H13).
  destruct (negb _); [reflexivity|].
  destruct (negb _); reflexivity.
Qed.

(** C3.  On every input string the validator returns, without a panic, a
    verdict and a message.  With the non-digits stripped: the verdict is
    valid exactly when there are 14 digits, not all equal, digit 12 is
    the check digit of digits 0-11 under the weights 5,4,3,2,9,8,7,6,5,4,3,2
    and digit 13 the check digit of digits 0-12 under the weights
    6,5,4,3,2,9,8,7,6,5,4,3,2 (check = 0 if sum mod 11 < 2, else
    11 - sum mod 11); the message is that of the first of these checks
    that fails, in this order, and the valid message when none does. *)
Theorem validateCNPJFormat_refines_spec (cnpj : string) :
  let ds := ChecksumSpec.digits cnpj in
  ∃ (isValid : bool) (msg : string),
    validateCNPJFormat cnpj = Some (isValid, msg)
    ∧ (isValid, msg) = ChecksumSpec.validate cnpj
    ∧ isValid
      = (length ds =? 14)%nat && negb (ChecksumSpec.all_identical ds)
        && bool_decide
             (ds !! 12%nat
              = Some (ChecksumSpec.check_digit (take 12 ds)
                        [5; 4; 3; 2; 9; 8; 7; 6; 5; 4; 3; 2]))
        && bool_decide
             (ds !! 13%nat
              = Some (ChecksumSpec.check_digit (take 13 ds)
                        [6; 5; 4; 3; 2; 9; 8; 7; 6; 5; 4; 3; 2]))
    ∧ msg
      = if negb (length ds =? 14)%nat then msg_length
        else if ChecksumSpec.all_identical ds then msg_all_equal
        else if negb (ChecksumSpec.first_check_ok ds) then msg_first_digit
        else if negb (ChecksumSpec.second_check_ok ds) then msg_second_digit
        else msg_valid.
Proof.
  intros ds.
  exists (ChecksumSpec.validate cnpj).1, (ChecksumSpec.validate cnpj).2.
  split.
  { rewrite validateCNPJFormat_eq_validate.
    by destruct (ChecksumSpec.validate cnpj). }
  split; [by destruct (ChecksumSpec.validate cnpj)|].
  unfold ChecksumSpec.validate. fold ds.
  change (bool_decide (ds !! 12%nat = _)) with (ChecksumSpec.first_check_ok ds).
  change (bool_decide (ds !! 13%nat = _)) with (ChecksumSpec.second_check_ok ds).
  destruct (length ds =? 14)%nat; cbn [negb andb fst snd]; [|done].
  destruct (ChecksumSpec.all_identical ds); cbn [negb andb fst snd]; [done|].
  destruct (ChecksumSpec.first_check_ok ds); cbn [negb andb fst snd]; [|done].
  destruct (ChecksumSpec.second_check_ok ds); done.
Qed.


Lemma bytes_set_byte (s : string) (i : nat) (c : ascii) :
  bytes (set_byte s i c) = <[i := c]> (bytes s).
Proof.
  revert i. induction s as [|a s IH]; intros [|i]; simpl; try done.
  by rewrite IH.
Qed.

Lemma filter_all_of_length {A} (P : A → Prop) `{!∀ x, Decision (P x)}
    (l : list A) :
  length (filter P l) = length l → Forall P l.
Proof.
  induction l as [|x l IH]; [constructor|].
  destruct (decide (P x)) as [Hx|Hx].
  - rewrite filter_cons_True by done. simpl. intros [= Hf]. constructor; auto.
  - rewrite filter_cons_False by done. simpl. intros Hf.
    pose proof (length_filter P l). lia.
Qed.

Lemma filter_id {A} (P : A → Prop) `{!∀ x, Decision (P x)} (l : list A) :
  Forall P l → filter P l = l.
Proof.
  induction 1 as [|x l Hx _ IH]; [done|].
  rewrite filter_cons_True by done. by rewrite IH.
Qed.

Lemma validate_true_inv (taxID m : string) :
  ChecksumSpec.validate taxID = (true, m) →
  let ds := ChecksumSpec.digits taxID in
  length ds = 14%nat
  ∧ ChecksumSpec.first_check_ok ds = true
  ∧ ChecksumSpec.second_check_ok ds = true.
Proof.
  unfold ChecksumSpec.validate. cbv zeta.
  destruct (length _ =? 14)%nat eqn:Hl; cbn [negb]; [|done].
  destruct (ChecksumSpec.all_identical _); [done|].
  destruct (ChecksumSpec.first_check_ok _); cbn [negb]; [|done].
  destruct (ChecksumSpec.second_check_ok _); cbn [negb]; [|done].
  intros _. by apply Nat.eqb_eq in Hl.
Qed.

Lemma validate_false_of_check (taxID : string) :
  let ds := ChecksumSpec.digits taxID in
  ChecksumSpec.first_check_ok ds = false
  ∨ ChecksumSpec.second_check_ok ds = false →
  (ChecksumSpec.validate taxID).1 = false.
Proof.
  unfold ChecksumSpec.validate. cbv zeta. intros H.
  destruct (negb (length _ =? 14)%nat); [done|].
  destruct (ChecksumSpec.all_identical _); [done|].
  destruct (ChecksumSpec.first_check_ok _); cbn [negb]; [|done].
  destruct (ChecksumSpec.second_check_ok _); cbn [negb]; [|done].
  by destruct H.
Qed.

(** Whatever the formatting: an ID whose digits are those of an accepted
    ID with digit 12 or 13 replaced by another value is rejected. *)
Lemma mutated_digits_rejected (cnpj cnpj' m : string) (i : nat) (d : Z) :
  validateCNPJFormat cnpj = Some (true, m) →
  i = 12%nat ∨ i = 13%nat →
  ChecksumSpec.digits cnpj !! i ≠ Some d →
  ChecksumSpec.digits cnpj' = <[i := d]> (ChecksumSpec.digits cnpj) →
  ∃ m', validateCNPJFormat cnpj' = Some (false, m').
Proof.
  intros Hv Hi Hdiff Hds.
  rewrite validateCNPJFormat_eq_validate in Hv. injection Hv as Hv.
  apply validate_true_inv in Hv as (Hl & H1 & H2).
  rewrite validateCNPJFormat_eq_validate.
  enough ((ChecksumSpec.validate cnpj').1 = false) as E.
  { destruct (ChecksumSpec.validate _) as [b m']. simpl in E. subst b. eauto. }
  apply validate_false_of_check. rewrite Hds.
  unfold ChecksumSpec.first_check_ok, ChecksumSpec.second_check_ok in *.
  apply bool_decide_eq_true in H1, H2.
  set (ds := ChecksumSpec.digits cnpj) in *.
  destruct Hi as [-> | ->].
  - left. apply bool_decide_eq_false.
    rewrite list_lookup_insert_eq by lia.
    rewrite take_insert_ge by lia. congruence.
  - right. apply bool_decide_eq_false.
    rewrite list_lookup_insert_eq by lia.
    rewrite take_insert_ge by lia. congruence.
Qed.

Lemma digits_all_digits (s : string) :
  Forall (λ c, is_digit c = true) (bytes s) →
  ChecksumSpec.digits s = ChecksumSpec.digit_value <$> bytes s.
Proof.
  intros H. unfold ChecksumSpec.digits.
  by rewrite (filter_id (λ c, is_digit c = true) _ H).
Qed.

(** C4.  Changing digit 12 or digit 13 of a 14-digit tax ID that the
    validator accepts to any other digit gives an ID that the validator
    rejects: for an ID written as 14 digit characters, with the
    character replaced in place; and for an accepted ID in any
    formatting, whenever the digits of the new ID are those of the old
    one with digit 12 or 13 changed. *)
Theorem check_digit_mutation_rejected (cnpj m : string) (i : nat) :
  validateCNPJFormat cnpj = Some (true, m) →
  i = 12%nat ∨ i = 13%nat →
  (∀ c : ascii,
     len cnpj = 14%nat →
     is_digit c = true →
     index cnpj i ≠ Some c →
     ∃ m', validateCNPJFormat (set_byte cnpj i c) = Some (false, m'))
  ∧ (∀ (cnpj' : string) (d : Z),
       ChecksumSpec.digits cnpj !! i ≠ Some d →
       ChecksumSpec.digits cnpj' = <[i := d]> (ChecksumSpec.digits cnpj) →
       ∃ m', validateCNPJFormat cnpj' = Some (false, m')).
Proof.
  intros Hv Hi. split.
  - intros c Hlen Hc Hne.
    assert (Hl : length (ChecksumSpec.digits cnpj) = 14%nat).
    { pose proof Hv as Hv'.
      rewrite validateCNPJFormat_eq_validate in Hv'. injection Hv' as Hv'.
      by apply validate_true_inv in Hv' as (Hl & _). }
    unfold ChecksumSpec.digits in Hl. rewrite length_fmap in Hl.
    rewrite len_bytes in Hlen. rewrite index_bytes in Hne.
    assert (Hall : Forall (λ c, is_digit c = true) (bytes cnpj)).
    { apply (filter_all_of_length (λ c, is_digit c = true)). congruence. }
    apply (mutated_digits_rejected cnpj _ m i (ChecksumSpec.digit_value c));
      [done | done | |].
    + rewrite (digits_all_digits _ Hall), list_lookup_fmap. intros E.
      destruct (bytes cnpj !! i) as [a|] eqn:Ha; [|done].
      simpl in E. injection E as E. apply Hne. f_equal. apply code_inj.
      unfold ChecksumSpec.digit_value in E. lia.
    + rewrite (digits_all_digits _ Hall), digits_all_digits.
      * by rewrite bytes_set_byte, list_fmap_insert.
      * rewrite bytes_set_byte. by apply Forall_insert.
  - intros cnpj' d Hd Hds.
    by apply (mutated_digits_rejected cnpj cnpj' m i d).
Qed.

Lemma check_digit_mutation_rejected_witness :
  (∃ m', validateCNPJFormat (set_byte "11222333000181" 13 "7")
         = Some (false, m'))
  ∧ (∃ m', validateCNPJFormat "11.222.333/0001-87" = Some (false, m')).
Proof.
  destruct (check_digit_mutation_rejected "11.222.333/0001-81" msg_valid 13
              eq_refl (or_intror eq_refl)) as [_ Hformatted].
  destruct (check_digit_mutation_rejected "11222333000181" msg_valid 13
              eq_refl (or_intror eq_refl)) as [Hplain _].
  split.
  - apply Hplain; [reflexivity | reflexivity | discriminate].
  - apply (Hformatted _ 7); [discriminate | reflexivity].
Defined.

(** The testable inputs of the specification. *)
Example validate_known_valid :
  validateCNPJFormat "11.222.333/0001-81" = Some (true, msg_valid).
Proof. reflexivity. Qed.

Example validate_all_equal :
  validateCNPJFormat "11111111111111" = Some (false, msg_all_equal).
Proof. reflexivity. Qed.

Example validate_wrong_check_digit :
  validateCNPJFormat "11222333000182" = Some (false, msg_second_digit).
Proof. reflexivity. Qed.

(** ** Reference formats *)

Lemma match_hex_to_end_spec (n : nat) (s : string) :
  match_hex_to_end n s = true
  ↔ String.length s = n ∧ Forall (λ c, is_hex c = true) (bytes s).
Proof.
  revert s. induction n as [|n IH]; intros [|c s]; simpl.
  - split; [by split | done].
  - split; [done | by intros [? _]].
  - split; [done | by intros [? _]].
  - rewrite andb_true_iff, IH. split.
    + intros (Hc & Hl & Hs). split; [by rewrite Hl | by constructor].
    + intros (Hl & Hs). inversion Hs; subst. by injection Hl as ->.
Qed.

Lemma substring_0_0 (s : string) : substring 0 0 s = "".
Proof. by destruct s. Qed.

(** The ledger-reference check of the code accepts exactly the strings
    the specification calls well-formed. *)
Lemma verifyBlockchainReference_spec (reference : string) :
  verifyBlockchainReference reference = true
  ↔ ledger_reference_well_formed reference.
Proof.
  unfold verifyBlockchainReference, ledger_reference_well_formed. split.
  - destruct reference as [|a [|b h]]; try done.
    cbn [String.eqb len String.length substring].
    rewrite substring_0_0. cbn [String.eqb Nat.ltb Nat.leb orb].
    destruct (Ascii.eqb_spec a "0") as [->|Ha]; [|done].
    destruct (Ascii.eqb_spec b "x") as [->|Hb]; [|done].
    cbn [negb]. destruct (negb _); [done|].
    unfold hexPattern_MatchString.
    intros H. apply match_hex_to_end_spec in H as [Hl Hh].
    exists h. done.
  - intros (h & -> & Hl & Hh).
    change ("0x" +:+ h) with (String "0" (String "x" h)).
    cbn [String.eqb len String.length substring].
    rewrite substring_0_0, Hl.
    transitivity (match_hex_to_end 64 h); [reflexivity|].
    apply match_hex_to_end_spec. done.
Qed.

Lemma verifyIPFSReference_Qm (h : string) :
  (44 ≤ String.length h)%nat → verifyIPFSReference ("Qm" +:+ h) = true.
Proof.
  intros Hl. unfold verifyIPFSReference.
  change ("Qm" +:+ h) with (String "Q" (String "m" h)).
  cbn [String.eqb len String.length substring].
  rewrite substring_0_0.
  transitivity (negb (S (S (String.length h)) <? 46)%nat); [reflexivity|].
  apply negb_true_iff, Nat.ltb_ge. lia.
Qed.

(** ** The hash generators *)

Lemma bytes_push (s : string) (c : ascii) : bytes (push s c) = bytes s ++ [c].
Proof. unfold push. by rewrite bytes_app. Qed.

Lemma length_bytes (s : string) : length (bytes s) = String.length s.
Proof. symmetry. apply len_bytes. Qed.

(** The loop never indexes out of range: it returns the accumulator
    followed by [n] characters of the character set. *)
Lemma hash_loop_run (w : World) (charset : string) (seed : Z) (k n : nat)
    (hash : string) :
  (0 < len charset)%nat →
  ∃ h l, hash_loop w charset seed k n hash = Some h
         ∧ bytes h = bytes hash ++ l ∧ length l = n
         ∧ Forall (λ c, c ∈ bytes charset) l.
Proof.
  intros Hc. revert k hash. induction n as [|n IH]; intros k hash; simpl.
  - exists hash, []. by rewrite app_nil_r.
  - rewrite index_bytes.
    destruct (lookup_lt_is_Some_2 (bytes charset)
                (rand_Intn w seed k (len charset))) as [c Hlk].
    { rewrite <- len_bytes. unfold rand_Intn. apply Nat.mod_upper_bound. lia. }
    rewrite Hlk. simpl.
    destruct (IH (S k) (push hash c)) as (h & l & Hrun & Hb & Hl & Hall).
    exists h, (c :: l). split; [done|]. split.
    + rewrite Hb, bytes_push, <- app_assoc. done.
    + split; [simpl; by rewrite Hl|].
      constructor; [|done]. eapply list_elem_of_lookup_2. exact Hlk.
Qed.

Lemma charset_hex_is_hex :
  Forall (λ c, is_hex c = true) (bytes charset_hex).
Proof. repeat constructor. Qed.

Lemma bytes_prefix (p s : string) (l : list ascii) :
  bytes s = bytes p ++ l → ∃ h, s = p +:+ h ∧ bytes h = l.
Proof.
  revert s. induction p as [|c p IH]; intros s; simpl.
  - intros H. by exists s.
  - destruct s as [|c' s]; [done|]. simpl. intros [= -> H].
    destruct (IH s H) as (h & -> & Hh). by exists h.
Qed.

Lemma generateMockTransactionHash_run (w : World) :
  ∃ h, generateMockTransactionHash w = Some (h, with_ticks (S (ticks w)) w)
       ∧ verifyBlockchainReference h = true.
Proof.
  unfold generateMockTransactionHash.
  destruct (hash_loop_run (with_ticks (S (ticks w)) w) charset_hex
              (clock w (ticks w)) 0 64 "0x") as (h & l & Hrun & Hb & Hl & Hall);
    [cbn; lia|].
  exists h. split.
  - unfold mbind, M_bind, time_Now, get_world, or_panic. rewrite Hrun. done.
  - apply verifyBlockchainReference_spec.
    destruct (bytes_prefix "0x" h l Hb) as (t & -> & Ht).
    exists t. split; [done|]. rewrite <- length_bytes, Ht. split; [done|].
    eapply Forall_impl; [exact Hall|]. intros c Hc.
    by apply (proj1 (Forall_forall _ _) charset_hex_is_hex).
Qed.

Lemma generateMockHash_run (w : World) (n : Z) :
  ∃ h, generateMockHash n w = Some (h, with_ticks (S (ticks w)) w)
       ∧ String.length h = Z.to_nat n.
Proof.
  unfold generateMockHash.
  destruct (hash_loop_run (with_ticks (S (ticks w)) w) charset_alnum
              (clock w (ticks w)) 0 (Z.to_nat n) "")
    as (h & l & Hrun & Hb & Hl & Hall); [cbn; lia|].
  exists h. split.
  - unfold mbind, M_bind, time_Now, get_world, or_panic. rewrite Hrun. done.
  - rewrite <- length_bytes, Hb. done.
Qed.

(** ** Running the methods *)

Lemma run_bind {A B} (m : M A) (k : A → M B) (w w' : World) (a : A) :
  m w = Some (a, w') → (m ≫= k) w = k a w'.
Proof. intros H. unfold mbind, M_bind. by rewrite H. Qed.

Lemma assign_registration_run (i : nat) f (w : World) reg :
  regs w !! i = Some reg →
  assign_registration i f w = Some (tt, update_registration i (f reg) w).
Proof.
  intros H. unfold assign_registration. cbv zeta. rewrite H. reflexivity.
Qed.

Lemma registration_at_run (i : nat) (w : World) reg :
  regs w !! i = Some reg → registration_at i w = Some (reg, w).
Proof. intros H. unfold registration_at. rewrite H. reflexivity. Qed.

Lemma find_registration_run (id : N) (w : World) :
  find_registration id w
  = Some (list_find (λ r, NGORegistration.ID r = id) (regs w), w).
Proof. reflexivity. Qed.

Lemma time_Now_run (w : World) :
  time_Now w = Some (clock w (ticks w), with_ticks (S (ticks w)) w).
Proof. reflexivity. Qed.

Lemma logAuditAction_run a act et eid p n (w : World) :
  logAuditAction a act et eid p n w
  = Some (tt, log_appended
                (AuditLog.mk (N.of_nat (length (AdminService.auditLogs (admin w)) + 1))
                   a act et eid p n n false false [] (clock w (ticks w)))
                (with_ticks (S (ticks w)) w)).
Proof. reflexivity. Qed.

Ltac world_simpl :=
  cbn [admin donationService expenseService clock ticks prng
       AdminService.donations AdminService.ngos AdminService.ngoRegistrations
       AdminService.auditLogs DonationService.donations DonationService.ngos
       DonationService.receipts fst snd].
Ltac world_unfold :=
  unfold log_appended, update_registration, registration_appended,
    ngo_minted, with_admin, with_donationService, with_ticks, set_ngos,
    set_ngoRegistrations, set_auditLogs.
Ltac world_norm := world_unfold; world_simpl; rewrite ?list_insert_insert_eq.
Ltac mstep tac := erewrite run_bind; [| tac]; cbv beta iota; world_norm.
Ltac reg_lookup Hlt :=
  world_norm; first [eassumption | apply list_lookup_insert_eq; exact Hlt].
Ltac massign Hlt :=
  mstep ltac:(apply assign_registration_run; reg_lookup Hlt).

Ltac mfind Hf := mstep ltac:(rewrite find_registration_run, Hf; reflexivity).
Ltac mtime := mstep ltac:(apply time_Now_run).
Ltac mlog := mstep ltac:(apply logAuditAction_run).
Ltac mread Hlt := mstep ltac:(apply registration_at_run; reg_lookup Hlt).
Ltac finish_run :=
  unfold mret, M_ret, audit_log; world_norm; reflexivity.

Abbreviation found_at id w i reg :=
  (list_find (λ r, NGORegistration.ID r = id) (regs w) = Some (i, reg)).
Abbreviation not_found id w :=
  (list_find (λ r, NGORegistration.ID r = id) (regs w) = None).

Lemma RejectNGO_run w id adminID reason i reg :
  found_at id w i reg →
  let reg' :=
    NGORegistration.set_UpdatedAt (clock w (ticks w))
      (NGORegistration.set_AdminComments reason
         (NGORegistration.set_Status NGOStatusRejected reg)) in
  RejectNGO id adminID reason w
  = Some ((reg', None),
          log_appended
            (audit_log w adminID "ngo_rejected" "ngo_registration" id
               (NGORegistration.Status reg) NGOStatusRejected (S (ticks w)))
            (with_ticks (S (S (ticks w))) (update_registration i reg' w))).
Proof.
  intros Hf reg'. unfold RejectNGO. mfind Hf.
  apply list_find_Some in Hf as (Hi & Hid & _).
  pose proof (lookup_lt_Some _ _ _ Hi) as Hlt.
  massign Hlt.
  massign Hlt. mtime. massign Hlt. mlog. mread Hlt.
  finish_run.
Qed.

Lemma RejectNGO_not_found w id adminID reason :
  not_found id w →
  RejectNGO id adminID reason w
  = Some ((NGORegistration.zero, Some err_registration_not_found), w).
Proof. intros Hf. unfold RejectNGO. mfind Hf. reflexivity. Qed.

Lemma ValidateCNPJOnline_run w id i reg :
  found_at id w i reg →
  NGORegistration.CNPJValid reg = true →
  let reg' :=
    NGORegistration.set_UpdatedAt (clock w (ticks w))
      (NGORegistration.set_Status NGOStatusValidating
         (NGORegistration.set_CNPJValidationMsg
            "CNPJ verificado online e válido"
            (NGORegistration.set_CNPJValid true reg))) in
  ValidateCNPJOnline id w
  = Some ((reg', None),
          log_appended
            (audit_log w 0 "cnpj_validated" "ngo_registration" id
               (NGORegistration.Status reg) NGOStatusValidating (S (ticks w)))
            (with_ticks (S (S (ticks w))) (update_registration i reg' w))).
Proof.
  intros Hf Hv reg'. unfold ValidateCNPJOnline. mfind Hf. rewrite Hv.
  apply list_find_Some in Hf as (Hi & Hid & _).
  pose proof (lookup_lt_Some _ _ _ Hi) as Hlt.
  massign Hlt.
  massign Hlt. massign Hlt. mtime. massign Hlt. mlog. mread Hlt.
  finish_run.
Qed.

Lemma ValidateCNPJOnline_invalid w id i reg :
  found_at id w i reg →
  NGORegistration.CNPJValid reg = false →
  ValidateCNPJOnline id w
  = Some ((NGORegistration.zero,
           Some (NGORegistration.CNPJValidationMsg reg)), w).
Proof.
  intros Hf Hv. unfold ValidateCNPJOnline. mfind Hf. rewrite Hv. reflexivity.
Qed.

Lemma ValidateCNPJOnline_not_found w id :
  not_found id w →
  ValidateCNPJOnline id w
  = Some ((NGORegistration.zero, Some err_registration_not_found), w).
Proof. intros Hf. unfold ValidateCNPJOnline. mfind Hf. reflexivity. Qed.

Lemma UploadNGODocuments_run w id fileContent i reg :
  found_at id w i reg →
  NGORegistration.CNPJValid reg = true →
  ∃ h, String.length h = 46%nat ∧
  let reg' :=
    NGORegistration.set_UpdatedAt (clock w (S (ticks w)))
      (NGORegistration.set_DocumentsIPFS ("Qm" +:+ h) reg) in
  UploadNGODocuments id fileContent w
  = Some ((reg', None),
          log_appended
            (audit_log w 0 "documents_uploaded" "ngo_registration" id ""
               ("Documentos enviados para IPFS: " +:+ ("Qm" +:+ h))
               (S (S (ticks w))))
            (with_ticks (S (S (S (ticks w)))) (update_registration i reg' w))).
Proof.
  intros Hf Hv.
  destruct (generateMockHash_run w 46) as (h & Hgen & Hlen).
  exists h. split; [done|]. intros reg'.
  unfold UploadNGODocuments. mfind Hf. rewrite Hv. cbn [negb].
  apply list_find_Some in Hf as (Hi & Hid & _).
  pose proof (lookup_lt_Some _ _ _ Hi) as Hlt.
  mstep ltac:(exact Hgen).
  massign Hlt.
  mtime. massign Hlt. mlog. mread Hlt.
  finish_run.
Qed.

Lemma UploadNGODocuments_invalid w id fileContent i reg :
  found_at id w i reg →
  NGORegistration.CNPJValid reg = false →
  UploadNGODocuments id fileContent w
  = Some ((NGORegistration.zero, Some err_upload_needs_valid_cnpj), w).
Proof.
  intros Hf Hv. unfold UploadNGODocuments. mfind Hf. rewrite Hv. reflexivity.
Qed.

Lemma UploadNGODocuments_not_found w id fileContent :
  not_found id w →
  UploadNGODocuments id fileContent w
  = Some ((NGORegistration.zero, Some err_registration_not_found), w).
Proof. intros Hf. unfold UploadNGODocuments. mfind Hf. reflexivity. Qed.

Lemma ApproveNGO_run w id adminID comments i reg :
  found_at id w i reg →
  NGORegistration.CNPJValid reg = true →
  NGORegistration.DocumentsIPFS reg ≠ "" →
  ∃ blockchainRef, verifyBlockchainReference blockchainRef = true ∧
  let reg' :=
    approved_registration blockchainRef comments (clock w (S (ticks w))) reg in
  let ngo := minted_ngo w blockchainRef reg in
  ApproveNGO id adminID comments w
  = Some ((ngo, None),
          log_appended
            (audit_log w adminID "ngo_approved" "ngo" (NGO.ID ngo)
               NGOStatusValidating NGOStatusApproved
               (S (S (S (S (ticks w))))))
            (ngo_minted ngo
               (with_ticks (S (S (S (S (S (ticks w))))))
                  (update_registration i reg' w)))).
Proof.
  intros Hf Hv Hdoc.
  destruct (generateMockTransactionHash_run w) as (ref & Hgen & Hok).
  exists ref. split; [done|]. intros reg' ngo.
  unfold ApproveNGO. mfind Hf. rewrite Hv. cbn [negb].
  destruct (String.eqb_spec (NGORegistration.DocumentsIPFS reg) "");
    [done|].
  apply list_find_Some in Hf as (Hi & Hid & _).
  pose proof (lookup_lt_Some _ _ _ Hi) as Hlt.
  mstep ltac:(exact Hgen).
  massign Hlt.
  massign Hlt. massign Hlt. mtime. massign Hlt.
  mstep ltac:(reflexivity). mtime. mtime.
  mstep ltac:(reflexivity). mstep ltac:(reflexivity). mlog.
  finish_run.
Qed.

Lemma ApproveNGO_not_found w id adminID comments :
  not_found id w →
  ApproveNGO id adminID comments w
  = Some ((NGO.zero, Some err_registration_not_found), w).
Proof. intros Hf. unfold ApproveNGO. mfind Hf. reflexivity. Qed.

Lemma ApproveNGO_invalid w id adminID comments i reg :
  found_at id w i reg →
  NGORegistration.CNPJValid reg = false →
  ApproveNGO id adminID comments w
  = Some ((NGO.zero, Some err_cnpj_not_validated), w).
Proof.
  intros Hf Hv. unfold ApproveNGO. mfind Hf. rewrite Hv. reflexivity.
Qed.

Lemma ApproveNGO_no_documents w id adminID comments i reg :
  found_at id w i reg →
  NGORegistration.CNPJValid reg = true →
  NGORegistration.DocumentsIPFS reg = "" →
  ApproveNGO id adminID comments w
  = Some ((NGO.zero, Some err_documents_missing), w).
Proof.
  intros Hf Hv Hd. unfold ApproveNGO. mfind Hf. rewrite Hv, Hd. reflexivity.
Qed.

Lemma RegisterNGO_run w req :
  ¬ tax_id_in_use (NGORegistrationRequest.CNPJ req) w →
  RegisterNGO req w
  = Some ((new_registration w req, None),
          log_appended
            (audit_log w 0 "ngo_registration_created" "ngo_registration"
               (NGORegistration.ID (new_registration w req)) ""
               ("Registro de ONG solicitado: "
                +:+ NGORegistrationRequest.Name req
                +:+ " (CNPJ: " +:+ NGORegistrationRequest.CNPJ req +:+ ")")
               (S (S (ticks w))))
            (with_ticks (S (S (S (ticks w))))
               (registration_appended (new_registration w req) w))).
Proof.
  intros Hfree. unfold RegisterNGO.
  mstep ltac:(reflexivity).
  rewrite !bool_decide_eq_false_2
    by (intros H; apply Hfree; unfold tax_id_in_use; auto).
  mstep ltac:(unfold or_panic; rewrite validateCNPJFormat_eq_validate;
              reflexivity).
  mtime. mtime. mstep ltac:(reflexivity). mlog.
  finish_run.
Qed.

Lemma RegisterNGO_duplicate w req :
  tax_id_in_use (NGORegistrationRequest.CNPJ req) w →
  ∃ e, DuplicateTaxID e
       ∧ RegisterNGO req w = Some ((NGORegistration.zero, e), w).
Proof.
  intros Hdup. unfold RegisterNGO. mstep ltac:(reflexivity).
  destruct (decide (Exists (λ reg, NGORegistration.CNPJ reg
                                   = NGORegistrationRequest.CNPJ req)
                      (regs w))) as [H1|H1].
  - rewrite bool_decide_eq_true_2 by done.
    exists (Some err_cnpj_registered). split; [by left | reflexivity].
  - rewrite bool_decide_eq_false_2 by done.
    destruct Hdup as [?|H2]; [done|].
    rewrite bool_decide_eq_true_2 by done.
    exists (Some err_cnpj_active_ngo). split; [by right | reflexivity].
Qed.

(** ** The audit engine *)

Lemma AuditEntity_run w req adminID blockchainRef ipfsRef :
  resolve_references req w = inl (blockchainRef, ipfsRef) →
  AuditEntity req adminID w
  = Some ((audit_result w req blockchainRef ipfsRef, None),
          log_appended
            (audit_log w adminID "audit_performed"
               (AuditRequest.EntityType req) (AuditRequest.EntityID req) ""
               (audit_comments (validation_errors blockchainRef ipfsRef))
               (S (ticks w)))
            (with_ticks (S (S (ticks w))) w)).
Proof.
  intros Hr. unfold AuditEntity. mtime. mstep ltac:(reflexivity).
  change (resolve_references req _) with (resolve_references req w).
  rewrite Hr. cbv zeta. mlog.
  unfold audit_result, validation_errors, audit_comments.
  destruct (verifyBlockchainReference blockchainRef),
    (verifyIPFSReference ipfsRef); finish_run.
Qed.

Lemma AuditEntity_error w req adminID e :
  resolve_references req w = inr e →
  AuditEntity req adminID w
  = Some ((AuditResult.mk (AuditRequest.EntityType req)
             (AuditRequest.EntityID req) false false "" ""
             (clock w (ticks w)) [], Some e),
          with_ticks (S (ticks w)) w).
Proof.
  intros Hr. unfold AuditEntity. mtime. mstep ltac:(reflexivity).
  change (resolve_references req _) with (resolve_references req w).
  rewrite Hr. reflexivity.
Qed.

(** C9.  When the organization an audit request names exists, the audit
    returns without error and appends exactly one entry to the audit log,
    whatever the outcome of the verification; and when the stored ledger
    reference of that organization is not the two-character prefix
    followed by 64 hexadecimal characters, the result has
    [BlockchainValid = false] and a non-empty list of validation errors. *)
Theorem audit_malformed_ledger_reference (w : World) (req : AuditRequest.t)
    (adminID : N) (i : nat) (ngo : NGO.t) :
  AuditRequest.EntityType req = "ngo" →
  list_find (λ n, NGO.ID n = AuditRequest.EntityID req)
    (AdminService.ngos (admin w)) = Some (i, ngo) →
  ∃ result entry w',
    AuditEntity req adminID w = Some ((result, None), w')
    ∧ AdminService.auditLogs (admin w')
      = AdminService.auditLogs (admin w) ++ [entry]
    ∧ AuditLog.Action entry = "audit_performed"
    ∧ AuditLog.AdminID entry = adminID
    ∧ AuditLog.EntityID entry = AuditRequest.EntityID req
    ∧ AuditResult.BlockchainRef result = NGO.BlockchainRef ngo
    ∧ (¬ ledger_reference_well_formed (NGO.BlockchainRef ngo) →
       AuditResult.BlockchainValid result = false
       ∧ AuditResult.ValidationErrors result ≠ []).
Proof.
  intros Hty Hf.
  assert (Hr : resolve_references req w
               = inl (NGO.BlockchainRef ngo, NGO.DocumentsIPFS ngo)).
  { unfold resolve_references. cbv zeta. rewrite Hty, Hf. reflexivity. }
  eexists _, _, _. split; [apply AuditEntity_run, Hr|].
  split; [reflexivity|]. do 4 (split; [reflexivity|]).
  intros Hbad. cbn.
  destruct (verifyBlockchainReference (NGO.BlockchainRef ngo)) eqn:Hv.
  - exfalso. by apply Hbad, verifyBlockchainReference_spec.
  - split; [done|]. unfold validation_errors. rewrite Hv. done.
Qed.

Lemma audit_malformed_ledger_reference_witness :
  ∃ result entry w',
    AuditEntity (AuditRequest.mk "ngo" 1) 9
      (with_admin (set_ngos [ngo_bad_ref] NewAdminService) world0)
    = Some ((result, None), w')
    ∧ AdminService.auditLogs (admin w') = [] ++ [entry]
    ∧ AuditResult.BlockchainValid result = false
    ∧ AuditResult.ValidationErrors result ≠ [].
Proof.
  destruct (audit_malformed_ledger_reference
              (with_admin (set_ngos [ngo_bad_ref] NewAdminService) world0)
              (AuditRequest.mk "ngo" 1) 9 0 ngo_bad_ref)
    as (result & entry & w' & Hrun & Hlog & _ & _ & _ & _ & Hbad);
    [reflexivity | reflexivity |].
  exists result, entry, w'. split; [exact Hrun|]. split; [exact Hlog|].
  apply Hbad. intros (h & Hh & Hl & _).
  change ("0x" +:+ h) with (String "0" (String "x" h)) in Hh.
  injection Hh as Hh. subst h. discriminate Hl.
Defined.

(** Whatever the entity type, an audit that resolves its entity appends
    one entry; one that returns an error (entity missing, unknown type)
    appends none. *)
Lemma AuditEntity_log_length w req adminID result e w' :
  AuditEntity req adminID w = Some ((result, e), w') →
  length (AdminService.auditLogs (admin w'))
  = (length (AdminService.auditLogs (admin w))
     + if e is None then 1 else 0)%nat.
Proof.
  destruct (resolve_references req w) as [[bref iref]|msg] eqn:Hr.
  - rewrite (AuditEntity_run _ _ _ _ _ Hr). intros [= <- <- <-].
    cbn. by rewrite length_app.
  - rewrite (AuditEntity_error _ _ _ _ Hr). intros [= <- <- <-].
    cbn. lia.
Qed.

(** ** The registration workflow *)

(** C8.  [ApproveNGO] fails with NotFound, changing nothing, when no
    registration has the ID.  Otherwise, on the registration found, it
    fails with PreconditionFailed, changing nothing, when the stored
    checksum flag is false or the document reference is empty; and else
    it mints a well-formed ledger reference, stores it in the record
    together with status Approved and the comments, appends to the
    organizations (of both services) a new organization that copies the
    identity fields of the registration and carries the reference,
    returns that organization, and appends one audit entry that records
    the transition from Validating to Approved. *)
Theorem ApproveNGO_contract (w : World) (registrationID adminID : N)
    (comments : string) :
  match list_find (λ r, NGORegistration.ID r = registrationID) (regs w) with
  | None =>
      ∃ e, NotFound e
           ∧ ApproveNGO registrationID adminID comments w
             = Some ((NGO.zero, e), w)
  | Some (i, reg) =>
      if NGORegistration.CNPJValid reg
         && negb (String.eqb (NGORegistration.DocumentsIPFS reg) "")
      then
        ∃ ngo reg' entry w',
          ApproveNGO registrationID adminID comments w
          = Some ((ngo, None), w')
          ∧ verifyBlockchainReference (NGO.BlockchainRef ngo) = true
          ∧ regs w' = <[i := reg']> (regs w)
          ∧ NGORegistration.BlockchainRef reg' = NGO.BlockchainRef ngo
          ∧ NGORegistration.Status reg' = NGOStatusApproved
          ∧ NGORegistration.AdminComments reg' = comments
          ∧ same_identity reg reg'
          ∧ copies_identity reg ngo
          ∧ AdminService.ngos (admin w') = AdminService.ngos (admin w) ++ [ngo]
          ∧ DonationService.ngos (donationService w')
            = DonationService.ngos (donationService w) ++ [ngo]
          ∧ AdminService.auditLogs (admin w')
            = AdminService.auditLogs (admin w) ++ [entry]
          ∧ AuditLog.Action entry = "ngo_approved"
          ∧ AuditLog.AdminID entry = adminID
          ∧ AuditLog.EntityType entry = "ngo"
          ∧ AuditLog.EntityID entry = NGO.ID ngo
          ∧ AuditLog.PreviousState entry = NGOStatusValidating
          ∧ AuditLog.NewState entry = NGOStatusApproved
      else
        ∃ e, PreconditionFailed e
             ∧ ApproveNGO registrationID adminID comments w
               = Some ((NGO.zero, e), w)
  end.
Proof.
  destruct (list_find _ _) as [[i reg]|] eqn:Hf.
  - destruct (NGORegistration.CNPJValid reg) eqn:Hv; cbn [andb].
    + destruct (String.eqb_spec (NGORegistration.DocumentsIPFS reg) "")
        as [Hd|Hd]; cbn [negb].
      * exists (Some err_documents_missing). split; [by right|].
        by eapply ApproveNGO_no_documents.
      * destruct (ApproveNGO_run w registrationID adminID comments i reg
                    Hf Hv Hd) as (ref & Hok & Hrun).
        cbv zeta in Hrun. eexists _, _, _, _. split; [exact Hrun|].
        split; [exact Hok|]. split; [reflexivity|].
        repeat split; reflexivity.
    + exists (Some err_cnpj_not_validated). split; [by left|].
      by eapply ApproveNGO_invalid.
  - exists (Some err_registration_not_found). split; [done|].
    by apply ApproveNGO_not_found.
Qed.

Lemma run_op_inv {A} (m : M (A * error)) (w w' : World) (e : error) :
  (r ← m; mret r.2) w = Some (e, w') → ∃ a, m w = Some ((a, e), w').
Proof.
  unfold mbind, M_bind. destruct (m w) as [[[a e0] w0]|]; [|done].
  cbn. intros [= <- <-]. by exists a.
Qed.

(** Every call returns: no method of the service panics. *)
Lemma run_op_total (op : Op) (w : World) : ∃ e w', run_op op w = Some (e, w').
Proof.
  assert (Hlift : ∀ A (m : M (A * error)),
             (∃ r w', m w = Some (r, w')) →
             ∃ e w', (r ← m; mret r.2) w = Some (e, w')).
  { intros A m (r & w' & H). exists r.2, w'.
    unfold mbind, M_bind. by rewrite H. }
  destruct op as [req|id|id f|id a c|id a c|req a]; cbn [run_op]; apply Hlift.
  - destruct (decide (tax_id_in_use (NGORegistrationRequest.CNPJ req) w))
      as [H|H].
    + destruct (RegisterNGO_duplicate w req H) as (e & _ & ->). eauto.
    + rewrite (RegisterNGO_run w req H). eauto.
  - destruct (list_find (λ r, NGORegistration.ID r = id) (regs w))
      as [[i reg]|] eqn:Hf.
    + destruct (NGORegistration.CNPJValid reg) eqn:Hv.
      * rewrite (ValidateCNPJOnline_run w id i reg Hf Hv). eauto.
      * rewrite (ValidateCNPJOnline_invalid w id i reg Hf Hv). eauto.
    + rewrite (ValidateCNPJOnline_not_found w id Hf). eauto.
  - destruct (list_find (λ r, NGORegistration.ID r = id) (regs w))
      as [[i reg]|] eqn:Hf.
    + destruct (NGORegistration.CNPJValid reg) eqn:Hv.
      * destruct (UploadNGODocuments_run w id f i reg Hf Hv) as (h & _ & ->).
        eauto.
      * rewrite (UploadNGODocuments_invalid w id f i reg Hf Hv). eauto.
    + rewrite (UploadNGODocuments_not_found w id f Hf). eauto.
  - destruct (list_find (λ r, NGORegistration.ID r = id) (regs w))
      as [[i reg]|] eqn:Hf.
    + destruct (NGORegistration.CNPJValid reg) eqn:Hv.
      * destruct (decide (NGORegistration.DocumentsIPFS reg = "")) as [Hd|Hd].
        -- rewrite (ApproveNGO_no_documents w id a c i reg Hf Hv Hd). eauto.
        -- destruct (ApproveNGO_run w id a c i reg Hf Hv Hd) as (h & _ & ->).
           eauto.
      * rewrite (ApproveNGO_invalid w id a c i reg Hf Hv). eauto.
    + rewrite (ApproveNGO_not_found w id a c Hf). eauto.
  - destruct (list_find (λ r, NGORegistration.ID r = id) (regs w))
      as [[i reg]|] eqn:Hf.
    + rewrite (RejectNGO_run w id a c i reg Hf). eauto.
    + rewrite (RejectNGO_not_found w id a c Hf). eauto.
  - destruct (resolve_references req w) as [[bref iref]|msg] eqn:Hr.
    + rewrite (AuditEntity_run _ _ _ _ _ Hr). eauto.
    + rewrite (AuditEntity_error _ _ _ _ Hr). eauto.
Qed.

Lemma run_op_effect (op : Op) (w w' : World) (e : error) :
  run_op op w = Some (e, w') → effect w op e w'.
Proof.
  destruct op as [req|id|id f|id a c|id a c|req a]; cbn [run_op];
    intros H; apply run_op_inv in H as [r H].
  - destruct (decide (tax_id_in_use (NGORegistrationRequest.CNPJ req) w))
      as [Hd|Hd].
    + destruct (RegisterNGO_duplicate w req Hd) as (e' & _ & Hrun).
      rewrite Hrun in H. injection H as <- <- <-. apply effect_none; auto.
    + rewrite (RegisterNGO_run w req Hd) in H. injection H as <- <- <-.
      by eapply effect_register.
  - destruct (list_find (λ r, NGORegistration.ID r = id) (regs w))
      as [[i reg]|] eqn:Hf.
    + destruct (NGORegistration.CNPJValid reg) eqn:Hv.
      * rewrite (ValidateCNPJOnline_run w id i reg Hf Hv) in H.
        injection H as <- <- <-.
        pose proof (proj1 (list_find_Some _ _ _ _) Hf) as (Hi & Hid & _).
        subst id. eapply (effect_update _ _ _ _ i reg); try done. by left.
      * rewrite (ValidateCNPJOnline_invalid w id i reg Hf Hv) in H.
        injection H as <- <- <-. apply effect_none; auto.
    + rewrite (ValidateCNPJOnline_not_found w id Hf) in H.
      injection H as <- <- <-. apply effect_none; auto.
  - destruct (list_find (λ r, NGORegistration.ID r = id) (regs w))
      as [[i reg]|] eqn:Hf.
    + destruct (NGORegistration.CNPJValid reg) eqn:Hv.
      * destruct (UploadNGODocuments_run w id f i reg Hf Hv)
          as (h & Hh & Hrun).
        rewrite Hrun in H. injection H as <- <- <-.
        pose proof (proj1 (list_find_Some _ _ _ _) Hf) as (Hi & Hid & _).
        subst id. eapply (effect_update _ _ _ _ i reg); try done; [|by left].
        repeat split; try done. cbn. apply verifyIPFSReference_Qm. lia.
      * rewrite (UploadNGODocuments_invalid w id f i reg Hf Hv) in H.
        injection H as <- <- <-. apply effect_none; auto.
    + rewrite (UploadNGODocuments_not_found w id f Hf) in H.
      injection H as <- <- <-. apply effect_none; auto.
  - destruct (list_find (λ r, NGORegistration.ID r = id) (regs w))
      as [[i reg]|] eqn:Hf.
    + destruct (NGORegistration.CNPJValid reg) eqn:Hv.
      * destruct (decide (NGORegistration.DocumentsIPFS reg = "")) as [Hd|Hd].
        -- rewrite (ApproveNGO_no_documents w id a c i reg Hf Hv Hd) in H.
           injection H as <- <- <-. apply effect_none; auto.
        -- destruct (ApproveNGO_run w id a c i reg Hf Hv Hd)
             as (h & Hh & Hrun).
           rewrite Hrun in H. injection H as <- <- <-.
           pose proof (proj1 (list_find_Some _ _ _ _) Hf) as (Hi & Hid & _).
           subst id. eapply (effect_update _ _ _ _ i reg); try done.
           right. eexists. split; [reflexivity|]. done.
      * rewrite (ApproveNGO_invalid w id a c i reg Hf Hv) in H.
        injection H as <- <- <-. apply effect_none; auto.
    + rewrite (ApproveNGO_not_found w id a c Hf) in H.
      injection H as <- <- <-. apply effect_none; auto.
  - destruct (list_find (λ r, NGORegistration.ID r = id) (regs w))
      as [[i reg]|] eqn:Hf.
    + rewrite (RejectNGO_run w id a c i reg Hf) in H.
      injection H as <- <- <-.
      pose proof (proj1 (list_find_Some _ _ _ _) Hf) as (Hi & Hid & _).
      subst id. eapply (effect_update _ _ _ _ i reg); try done. by left.
    + rewrite (RejectNGO_not_found w id a c Hf) in H.
      injection H as <- <- <-. apply effect_none; auto.
  - destruct (resolve_references req w) as [[bref iref]|msg] eqn:Hr.
    + rewrite (AuditEntity_run _ _ _ _ _ Hr) in H.
      injection H as <- <- <-. apply effect_none; auto.
    + rewrite (AuditEntity_error _ _ _ _ Hr) in H.
      injection H as <- <- <-. apply effect_none; auto.
Qed.

Lemma Exists_insert_same {A} (P : A → Prop) (l : list A) (i : nat) (x y : A) :
  l !! i = Some x → (P x → P y) → Exists P l → Exists P (<[i := y]> l).
Proof.
  intros Hi Hxy HE. apply Exists_exists in HE as (z & Hz & HPz).
  apply list_elem_of_lookup in Hz as [j Hj].
  apply Exists_exists. destruct (decide (i = j)) as [->|Hne].
  - exists y. split.
    + apply list_elem_of_lookup. exists j.
      apply list_lookup_insert_eq. by eapply lookup_lt_Some.
    + apply Hxy. congruence.
  - exists z. split; [|done]. apply list_elem_of_lookup. exists j.
    by rewrite list_lookup_insert_ne.
Qed.

Lemma tax_id_in_use_step (cnpj : string) (op : Op) (w w' : World) (e : error) :
  run_op op w = Some (e, w') → tax_id_in_use cnpj w → tax_id_in_use cnpj w'.
Proof.
  intros Hrun Huse. apply run_op_effect in Hrun.
  destruct Hrun as [_ Hr Hn | req _ _ _ Hr Hn | i reg reg' _ Hf _ Hr Hch Hn];
    unfold tax_id_in_use in *; rewrite Hr.
  - by rewrite Hn.
  - rewrite Hn. destruct Huse as [H|H]; [left|by right].
    apply Exists_app. by left.
  - apply list_find_Some in Hf as (Hi & _).
    destruct Hch as (_ & Hc & _).
    destruct Huse as [H|H].
    + left. eapply Exists_insert_same; [exact Hi| |exact H]. congruence.
    + right. destruct Hn as [->|(ngo & -> & _)]; [done|].
      apply Exists_app. by left.
Qed.

Lemma tax_id_in_use_calls (cnpj : string) (ops : list Op) (w w' : World) :
  calls w ops w' → tax_id_in_use cnpj w → tax_id_in_use cnpj w'.
Proof.
  induction 1 as [|w w1 w2 op ops e Hrun _ IH]; [done|].
  intros H. by eapply IH, tax_id_in_use_step.
Qed.

Lemma RegisterNGO_in_use (req : NGORegistrationRequest.t) (w w' : World) r :
  RegisterNGO req w = Some (r, w') →
  tax_id_in_use (NGORegistrationRequest.CNPJ req) w'.
Proof.
  destruct (decide (tax_id_in_use (NGORegistrationRequest.CNPJ req) w))
    as [Hd|Hd].
  - destruct (RegisterNGO_duplicate w req Hd) as (e & _ & ->).
    by intros [= <- <-].
  - rewrite (RegisterNGO_run w req Hd). intros [= <- <-].
    left. cbn. apply Exists_app. right. by constructor.
Qed.

(** X29.  A tax ID written the same way is refused.  A registration
    request whose tax ID string is, byte for byte, that of a stored
    registration (whatever its status) or of an organization fails with
    one of the two duplicate errors and leaves the world as it was: no
    record is added.  In particular, after a [RegisterNGO] call with some
    tax ID string, and whatever calls follow it, a [RegisterNGO] call
    with the same string fails. *)
Theorem RegisterNGO_duplicate_tax_id (w : World)
    (req : NGORegistrationRequest.t) :
  (tax_id_in_use (NGORegistrationRequest.CNPJ req) w →
   ∃ e, DuplicateTaxID e
        ∧ RegisterNGO req w = Some ((NGORegistration.zero, e), w))
  ∧ (∀ (req0 : NGORegistrationRequest.t) (w0 w1 : World) r0 (ops : list Op),
       NGORegistrationRequest.CNPJ req0 = NGORegistrationRequest.CNPJ req →
       RegisterNGO req0 w0 = Some (r0, w1) →
       calls w1 ops w →
       ∃ e, DuplicateTaxID e
            ∧ RegisterNGO req w = Some ((NGORegistration.zero, e), w)).
Proof.
  split; [apply RegisterNGO_duplicate|].
  intros req0 w0 w1 r0 ops Hc Hrun Hcalls.
  apply RegisterNGO_duplicate. rewrite <- Hc.
  eapply tax_id_in_use_calls; [exact Hcalls|].
  by eapply RegisterNGO_in_use.
Qed.

Lemma RegisterNGO_duplicate_tax_id_witness :
  ∃ r0 w1 e,
    RegisterNGO req_casa world0 = Some (r0, w1)
    ∧ DuplicateTaxID e
    ∧ RegisterNGO req_casa w1 = Some ((NGORegistration.zero, e), w1).
Proof.
  destruct (RegisterNGO req_casa world0) as [[r0 w1]|] eqn:Hrun;
    [|vm_compute in Hrun; discriminate Hrun].
  exists r0, w1.
  destruct (proj2 (RegisterNGO_duplicate_tax_id w1 req_casa)
              req_casa world0 w1 r0 [] eq_refl Hrun (calls_nil w1))
    as (e & He & Hdup).
  exists e. split; [reflexivity|]. split; [exact He | exact Hdup].
Defined.

Lemma reachable_world0 : reachable world0.
Proof. by apply reachable_new. Qed.

Lemma reachable_invariant (w : World) :
  reachable w →
  Forall record_ok (regs w) ∧ Forall ngo_ok (AdminService.ngos (admin w)).
Proof.
  induction 1 as [w Hnew | w w' op e _ [IHr IHn] Hrun].
  - rewrite Hnew. split; constructor.
  - apply run_op_effect in Hrun.
    destruct Hrun as [_ Hr Hn | req _ _ _ Hr Hn | i reg reg' _ Hf _ Hr Hch Hn];
      rewrite Hr.
    + by rewrite Hn.
    + rewrite Hn. split; [|done]. apply Forall_app. split; [done|].
      constructor; [|constructor]. repeat split; try done. by left.
    + apply list_find_Some in Hf as (Hi & _).
      pose proof (Forall_lookup_1 _ _ _ _ IHr Hi) as (Happ & Hpend & Hdoc).
      destruct Hch as (_ & _ & Hch).
      assert (Hok : record_ok reg').
      { destruct op; try done.
        - destruct Hch as (Hs & Hb & Hd). injection Hs as Hs.
          unfold record_ok. rewrite <- Hs, Hd. repeat split; done.
        - destruct Hch as (Hs & Hb & Hd).
          unfold record_ok. rewrite Hs, Hb. repeat split; try done. by right.
        - destruct Hch as (Hs & Hb & Hd & _). injection Hs as Hs.
          unfold record_ok. rewrite <- Hs, Hd. repeat split; done.
        - destruct Hch as (Hs & Hb & Hd). injection Hs as Hs.
          unfold record_ok. rewrite <- Hs, Hd. repeat split; done. }
      split; [by apply Forall_insert|].
      destruct Hn as [->|(ngo & -> & Hw & _ & Hb & Hd)]; [done|].
      apply Forall_app. split; [done|]. constructor; [|constructor].
      destruct Hok as (Hok & _). destruct op; try done.
      destruct Hch as (Hs & Hv & _ & Hne). split.
      * by rewrite Hb.
      * rewrite Hd. by destruct Hdoc.
Qed.

Lemma run_op_of {A} (m : M (A * error)) (w w' : World) (a : A) (e : error) :
  m w = Some ((a, e), w') → (r ← m; mret r.2) w = Some (e, w').
Proof. intros H. unfold mbind, M_bind. rewrite H. reflexivity. Qed.

Lemma verifyBlockchainReference_nonempty (reference : string) :
  verifyBlockchainReference reference = true → reference ≠ "".
Proof. intros H ->. discriminate H. Qed.

(** A concrete run: from the empty service, a registration with a valid
    tax ID is made, its documents are uploaded and it is approved. *)
Lemma approved_run :
  ∃ w reg ngo,
    reachable w
    ∧ list_find (λ r, NGORegistration.ID r = 1%N) (regs w) = Some (0%nat, reg)
    ∧ NGORegistration.Status reg = NGOStatusApproved
    ∧ NGORegistration.BlockchainRef reg ≠ ""
    ∧ list_find (λ n, NGO.ID n = 1%N) (AdminService.ngos (admin w))
      = Some (0%nat, ngo).
Proof.
  assert (Hfree : ¬ tax_id_in_use (NGORegistrationRequest.CNPJ req_casa) world0).
  { intros [H|H]; inversion H. }
  pose proof (RegisterNGO_run world0 req_casa Hfree) as H1.
  set (r1 := new_registration world0 req_casa) in *.
  match type of H1 with _ = Some (_, ?x) => set (w1 := x) in * end.
  assert (Hf1 : list_find (λ r, NGORegistration.ID r = 1%N) (regs w1)
                = Some (0%nat, r1)) by reflexivity.
  assert (Hv1 : NGORegistration.CNPJValid r1 = true) by (vm_compute; reflexivity).
  destruct (UploadNGODocuments_run w1 1 [] 0 r1 Hf1 Hv1) as (h & Hh & H2).
  cbv zeta in H2.
  match type of H2 with _ = Some ((?r, _), ?x) =>
    set (r2 := r) in *; set (w2 := x) in * end.
  assert (Hf2 : list_find (λ r, NGORegistration.ID r = 1%N) (regs w2)
                = Some (0%nat, r2)) by reflexivity.
  assert (Hd2 : NGORegistration.DocumentsIPFS r2 ≠ "") by discriminate.
  destruct (ApproveNGO_run w2 1 9 "ok" 0 r2 Hf2 Hv1 Hd2) as (ref & Href & H3).
  cbv zeta in H3.
  match type of H3 with _ = Some ((?n, _), ?x) =>
    set (ngo := n) in *; set (w3 := x) in * end.
  exists w3, (approved_registration ref "ok" (clock w2 (S (ticks w2))) r2), ngo.
  split.
  { eapply reachable_call; [|exact (run_op_of _ _ _ _ _ H3 : run_op (OpApprove 1 9 "ok") w2 = _)].
    eapply reachable_call; [|exact (run_op_of _ _ _ _ _ H2 : run_op (OpUploadNGODocuments 1 []) w1 = _)].
    eapply reachable_call; [|exact (run_op_of _ _ _ _ _ H1 : run_op (OpRegister req_casa) world0 = _)].
    apply reachable_world0. }
  split; [reflexivity|]. split; [reflexivity|].
  split; [by apply verifyBlockchainReference_nonempty|]. reflexivity.
Qed.

(** A concrete run: the registration of [req_casa] is given documents
    and approved; the service then holds one Approved registration and
    one organization, both with the tax ID as the request wrote it. *)
Lemma casa_approved_run :
  ∃ w reg ngo,
    calls world0
      [OpRegister req_casa; OpUploadNGODocuments 1 []; OpApprove 1 9 "ok"] w
    ∧ regs w = [reg]
    ∧ AdminService.ngos (admin w) = [ngo]
    ∧ NGORegistration.CNPJ reg = "11222333000181"
    ∧ NGORegistration.Status reg = NGOStatusApproved
    ∧ NGO.CNPJ ngo = "11222333000181".
Proof.
  assert (Hfree : ¬ tax_id_in_use (NGORegistrationRequest.CNPJ req_casa) world0).
  { intros [H|H]; inversion H. }
  pose proof (RegisterNGO_run world0 req_casa Hfree) as H1.
  set (r1 := new_registration world0 req_casa) in *.
  match type of H1 with _ = Some (_, ?x) => set (w1 := x) in * end.
  assert (Hf1 : list_find (λ r, NGORegistration.ID r = 1%N) (regs w1)
                = Some (0%nat, r1)) by reflexivity.
  assert (Hv1 : NGORegistration.CNPJValid r1 = true) by (vm_compute; reflexivity).
  destruct (UploadNGODocuments_run w1 1 [] 0 r1 Hf1 Hv1) as (h & Hh & H2).
  cbv zeta in H2.
  match type of H2 with _ = Some ((?r, _), ?x) =>
    set (r2 := r) in *; set (w2 := x) in * end.
  assert (Hf2 : list_find (λ r, NGORegistration.ID r = 1%N) (regs w2)
                = Some (0%nat, r2)) by reflexivity.
  assert (Hd2 : NGORegistration.DocumentsIPFS r2 ≠ "") by discriminate.
  destruct (ApproveNGO_run w2 1 9 "ok" 0 r2 Hf2 Hv1 Hd2) as (ref & Href & H3).
  cbv zeta in H3.
  match type of H3 with _ = Some ((?n, _), ?x) =>
    set (ngo := n) in *; set (w3 := x) in * end.
  exists w3, (approved_registration ref "ok" (clock w2 (S (ticks w2))) r2), ngo.
  split.
  { eapply calls_cons;
      [exact (run_op_of _ _ _ _ _ H1 : run_op (OpRegister req_casa) world0 = _)|].
    eapply calls_cons;
      [exact (run_op_of _ _ _ _ _ H2
              : run_op (OpUploadNGODocuments 1 []) w1 = _)|].
    eapply calls_cons;
      [exact (run_op_of _ _ _ _ _ H3 : run_op (OpApprove 1 9 "ok") w2 = _)|].
    apply calls_nil. }
  repeat split; reflexivity.
Qed.

(** C7, where the code departs from it.  The check of [RegisterNGO]
    compares the tax ID of the request with the stored ones as strings,
    although the validator it calls next reads a tax ID with its
    punctuation stripped.  The tax ID 11222333000181 belongs to an
    Approved registration and to an active organization; a request that
    writes the same tax ID as 11.222.333/0001-81 is registered all the
    same: no error, a second record, flagged valid.  Likewise for two
    [RegisterNGO] calls in a row. *)
Theorem RegisterNGO_misses_duplicate_in_other_punctuation :
  ChecksumSpec.digits (NGORegistrationRequest.CNPJ req_casa_formatted)
  = ChecksumSpec.digits (NGORegistrationRequest.CNPJ req_casa)
  ∧ (∃ w reg ngo reg2 w2,
       calls world0
         [OpRegister req_casa; OpUploadNGODocuments 1 []; OpApprove 1 9 "ok"] w
       ∧ regs w = [reg]
       ∧ AdminService.ngos (admin w) = [ngo]
       ∧ NGORegistration.CNPJ reg = "11222333000181"
       ∧ NGORegistration.Status reg = NGOStatusApproved
       ∧ NGO.CNPJ ngo = "11222333000181"
       ∧ RegisterNGO req_casa_formatted w = Some ((reg2, None), w2)
       ∧ regs w2 = [reg; reg2]
       ∧ NGORegistration.CNPJ reg2 = "11.222.333/0001-81"
       ∧ NGORegistration.CNPJValid reg2 = true)
  ∧ (∃ reg1 w1 reg2 w2,
       RegisterNGO req_casa world0 = Some ((reg1, None), w1)
       ∧ RegisterNGO req_casa_formatted w1 = Some ((reg2, None), w2)
       ∧ regs w2 = [reg1; reg2]
       ∧ NGORegistration.CNPJ reg1 = "11222333000181"
       ∧ NGORegistration.CNPJ reg2 = "11.222.333/0001-81"
       ∧ NGORegistration.CNPJValid reg2 = true).
Proof.
  assert (Hvalid : (ChecksumSpec.validate "11.222.333/0001-81").1 = true)
    by (vm_compute; reflexivity).
  split; [vm_compute; reflexivity|]. split.
  - destruct casa_approved_run as (w & reg & ngo & Hcalls & Hregs & Hngos
                                   & Hc & Hs & Hn).
    assert (Hfree : ¬ tax_id_in_use
                        (NGORegistrationRequest.CNPJ req_casa_formatted) w).
    { unfold tax_id_in_use. rewrite Hregs, Hngos.
      intros [H|H]; apply Exists_cons in H as [H|H];
        try (by apply Exists_nil in H).
      - rewrite Hc in H. discriminate H.
      - rewrite Hn in H. discriminate H. }
    pose proof (RegisterNGO_run w req_casa_formatted Hfree) as Hrun.
    eexists w, reg, ngo, _, _.
    repeat (split; [eassumption|]).
    split. { world_norm. by rewrite Hregs. }
    split; [reflexivity | exact Hvalid].
  - assert (Hfree0 : ¬ tax_id_in_use (NGORegistrationRequest.CNPJ req_casa)
                         world0).
    { intros [H|H]; inversion H. }
    pose proof (RegisterNGO_run world0 req_casa Hfree0) as H1.
    match type of H1 with _ = Some (_, ?x) => set (w1 := x) in * end.
    assert (Hregs1 : regs w1 = [new_registration world0 req_casa])
      by reflexivity.
    assert (Hngos1 : AdminService.ngos (admin w1) = []) by reflexivity.
    clearbody w1.
    assert (Hfree1 : ¬ tax_id_in_use
                         (NGORegistrationRequest.CNPJ req_casa_formatted) w1).
    { unfold tax_id_in_use. rewrite Hregs1, Hngos1.
      intros [H|H]; [|by apply Exists_nil in H].
      apply Exists_cons in H as [H|H]; [discriminate H|].
      by apply Exists_nil in H. }
    pose proof (RegisterNGO_run w1 req_casa_formatted Hfree1) as H2.
    eexists _, w1, _, _. split; [exact H1|]. split; [exact H2|].
    split. { world_norm. by rewrite Hregs1. }
    split; [reflexivity|]. split; [reflexivity | exact Hvalid].
Qed.

(** The approved registration is then rejected. *)
Lemma approved_then_rejected :
  ∃ w reg w' reg',
    reachable w
    ∧ list_find (λ r, NGORegistration.ID r = 1%N) (regs w) = Some (0%nat, reg)
    ∧ NGORegistration.Status reg = NGOStatusApproved
    ∧ NGORegistration.BlockchainRef reg ≠ ""
    ∧ run_op (OpReject 1 9 "no") w = Some (None, w')
    ∧ regs w' !! 0%nat = Some reg'
    ∧ NGORegistration.Status reg' = NGOStatusRejected
    ∧ NGORegistration.BlockchainRef reg' ≠ "".
Proof.
  destruct approved_run as (w & reg & ngo & Hreach & Hf & Hs & Hb & _).
  pose proof (RejectNGO_run w 1 9 "no" 0 reg Hf) as Hrun. cbv zeta in Hrun.
  pose proof (proj1 (list_find_Some _ _ _ _) Hf) as (Hi & _).
  eexists w, reg, _, _. split; [exact Hreach|]. split; [exact Hf|].
  split; [exact Hs|]. split; [exact Hb|]. split.
  { exact (run_op_of _ _ _ _ _ Hrun). }
  split.
  { world_norm. apply list_lookup_insert_eq. by eapply lookup_lt_Some. }
  split; [reflexivity | exact Hb].
Qed.

(** C1, as the code has it.  Approved and Rejected are not terminal: no
    method looks at the current status.  A call leaves the status of a
    record as it was unless it succeeds on that record's ID; a
    successful [ValidateCNPJOnline], [ApproveNGO] or [RejectNGO] writes
    Validating, Approved or Rejected into the record it finds, whatever
    the status was before; [UploadNGODocuments], [RegisterNGO] and
    failing calls never change a status. *)
Theorem status_written_only_by_successful_call (w w' : World) (op : Op)
    (e : error) (i : nat) (reg : NGORegistration.t) :
  run_op op w = Some (e, w') →
  regs w !! i = Some reg →
  ∃ reg',
    regs w' !! i = Some reg'
    ∧ NGORegistration.ID reg' = NGORegistration.ID reg
    ∧ (NGORegistration.Status reg' = NGORegistration.Status reg
       ∨ (e = None ∧ target op = Some (NGORegistration.ID reg)
          ∧ status_written op = Some (NGORegistration.Status reg')))
    ∧ (e = None →
       list_find (λ r, NGORegistration.ID r = NGORegistration.ID reg) (regs w)
       = Some (i, reg) →
       target op = Some (NGORegistration.ID reg) →
       ∀ s, status_written op = Some s → NGORegistration.Status reg' = s).
Proof.
  intros Hrun Hi. apply run_op_effect in Hrun.
  destruct Hrun as [Hne Hr Hn | req Hop _ _ Hr Hn | j reg0 reg' He Hf Ht Hr Hch Hn].
  - exists reg. rewrite Hr. split; [done|]. split; [done|].
    split; [by left|]. intros -> _ Ht. destruct Hne; congruence.
  - exists reg. rewrite Hr. split; [by apply lookup_app_l_Some|].
    split; [done|]. split; [by left|]. subst op. done.
  - pose proof (proj1 (list_find_Some _ _ _ _) Hf) as (Hj & _).
    destruct (decide (j = i)) as [->|Hne].
    + assert (reg0 = reg) as -> by congruence.
      exists reg'. rewrite Hr. split.
      { apply list_lookup_insert_eq. by eapply lookup_lt_Some. }
      destruct Hch as (Hid & _ & Hch). split; [done|].
      destruct op; try done.
      * destruct Hch as (Hs & _). split; [by right|].
        intros _ _ _ s Hs'. congruence.
      * destruct Hch as (Hs & _). split; [by left|]. done.
      * destruct Hch as (Hs & _). split; [by right|].
        intros _ _ _ s Hs'. congruence.
      * destruct Hch as (Hs & _). split; [by right|].
        intros _ _ _ s Hs'. congruence.
    + exists reg. rewrite Hr. split; [by rewrite list_lookup_insert_ne|].
      split; [done|]. split; [by left|].
      intros _ Hf' Ht'. rewrite Ht in Ht'. injection Ht' as Ht'.
      rewrite Ht' in Hf. rewrite Hf in Hf'. congruence.
Qed.

Lemma status_written_only_by_successful_call_witness :
  ∃ w reg w' reg',
    NGORegistration.Status reg = NGOStatusApproved
    ∧ regs w !! 0%nat = Some reg
    ∧ run_op (OpReject 1 9 "no") w = Some (None, w')
    ∧ regs w' !! 0%nat = Some reg'
    ∧ NGORegistration.Status reg' = NGOStatusRejected.
Proof.
  destruct approved_then_rejected
    as (w & reg & w' & reg0 & _ & Hf & Hs & _ & Hrun & _).
  pose proof (proj1 (list_find_Some _ _ _ _) Hf) as (Hi & Hid & _).
  destruct (status_written_only_by_successful_call w w' (OpReject 1 9 "no")
              None 0 reg Hrun Hi) as (reg' & Hi' & _ & _ & Hset).
  exists w, reg, w', reg'. repeat split; try done.
  apply Hset; try done.
  - by rewrite Hid.
  - cbn. by rewrite Hid.
Defined.

(** C1 as stated fails: [RejectNGO] on an Approved record makes it
    Rejected. *)
Lemma terminal_status_reopened :
  ¬ (∀ (w w' : World) (op : Op) (e : error) (i : nat)
       (reg reg' : NGORegistration.t),
       reachable w →
       is_Some (target op) →
       regs w !! i = Some reg →
       NGORegistration.Status reg = NGOStatusApproved
       ∨ NGORegistration.Status reg = NGOStatusRejected →
       run_op op w = Some (e, w') →
       regs w' !! i = Some reg' →
       NGORegistration.Status reg' = NGORegistration.Status reg).
Proof.
  intros Hclaim.
  destruct approved_then_rejected
    as (w & reg & w' & reg' & Hreach & Hf & Hs & _ & Hrun & Hi' & Hs' & _).
  pose proof (proj1 (list_find_Some _ _ _ _) Hf) as (Hi & _).
  specialize (Hclaim w w' (OpReject 1 9 "no") None 0%nat reg reg' Hreach
                (mk_is_Some _ _ eq_refl) Hi (or_introl Hs) Hrun Hi').
  rewrite Hs, Hs' in Hclaim. discriminate Hclaim.
Qed.

(** C2, as the code has it.  In every reachable world a record whose
    status is Approved has a well-formed, hence non-empty, ledger
    reference, and a record whose status is Pending has none.  The
    converse fails: a record keeps its ledger reference when it is
    rejected or validated again after an approval. *)
Theorem approved_has_ledger_reference (w : World) (reg : NGORegistration.t) :
  reachable w →
  reg ∈ regs w →
  (NGORegistration.Status reg = NGOStatusApproved →
   verifyBlockchainReference (NGORegistration.BlockchainRef reg) = true
   ∧ NGORegistration.BlockchainRef reg ≠ "")
  ∧ (NGORegistration.Status reg = NGOStatusPending →
     NGORegistration.BlockchainRef reg = "").
Proof.
  intros Hreach Hin.
  destruct (reachable_invariant w Hreach) as [Hr _].
  destruct (proj1 (Forall_forall _ _) Hr reg Hin) as (Happ & Hpend & _).
  split; [|done]. intros Hs. split; [by apply Happ|].
  intros Hempty. specialize (Happ Hs). rewrite Hempty in Happ. done.
Qed.

Lemma approved_has_ledger_reference_witness :
  ∃ w reg,
    reachable w ∧ reg ∈ regs w
    ∧ NGORegistration.Status reg = NGOStatusApproved
    ∧ verifyBlockchainReference (NGORegistration.BlockchainRef reg) = true.
Proof.
  destruct approved_then_rejected
    as (w & reg & _ & _ & Hreach & Hf & Hs & _).
  pose proof (proj1 (list_find_Some _ _ _ _) Hf) as (Hi & _).
  assert (Hin : reg ∈ regs w) by (by eapply list_elem_of_lookup_2).
  exists w, reg. split; [done|]. split; [done|]. split; [done|].
  by apply (approved_has_ledger_reference w reg Hreach Hin).
Defined.

(** C2 as stated fails: after an approval and a rejection the record is
    Rejected and still carries its ledger reference. *)
Lemma ledger_reference_without_approved_status :
  ¬ (∀ (w : World) (reg : NGORegistration.t),
       reachable w → reg ∈ regs w →
       NGORegistration.BlockchainRef reg ≠ ""
       ↔ NGORegistration.Status reg = NGOStatusApproved).
Proof.
  intros Hclaim.
  destruct approved_then_rejected
    as (w & reg & w' & reg' & Hreach & _ & _ & _ & Hrun & Hi' & Hs' & Hb').
  assert (Hreach' : reachable w') by (by eapply reachable_call).
  assert (Hin : reg' ∈ regs w') by (by eapply list_elem_of_lookup_2).
  apply (Hclaim w' reg' Hreach' Hin) in Hb'.
  rewrite Hs' in Hb'. discriminate Hb'.
Qed.

Lemma ApproveNGO_success_inv w id adminID comments ngo w' :
  ApproveNGO id adminID comments w = Some ((ngo, None), w') →
  ∃ i reg reg',
    list_find (λ r, NGORegistration.ID r = id) (regs w) = Some (i, reg)
    ∧ verifyBlockchainReference (NGO.BlockchainRef ngo) = true
    ∧ regs w' !! i = Some reg'
    ∧ NGORegistration.ID reg' = id
    ∧ NGORegistration.BlockchainRef reg' = NGO.BlockchainRef ngo.
Proof.
  intros H.
  destruct (list_find (λ r, NGORegistration.ID r = id) (regs w))
    as [[i reg]|] eqn:Hf.
  2:{ rewrite (ApproveNGO_not_found w id adminID comments Hf) in H. done. }
  destruct (NGORegistration.CNPJValid reg) eqn:Hv.
  2:{ rewrite (ApproveNGO_invalid w id adminID comments i reg Hf Hv) in H.
      done. }
  destruct (decide (NGORegistration.DocumentsIPFS reg = "")) as [Hd|Hd].
  { rewrite (ApproveNGO_no_documents w id adminID comments i reg Hf Hv Hd)
      in H. done. }
  destruct (ApproveNGO_run w id adminID comments i reg Hf Hv Hd)
    as (ref & Hok & Hrun).
  rewrite Hrun in H. injection H as <- <-.
  pose proof (proj1 (list_find_Some _ _ _ _) Hf) as (Hi & Hid & _).
  eexists i, reg, _. split; [done|]. split; [exact Hok|]. split.
  { cbn. apply list_lookup_insert_eq. by eapply lookup_lt_Some. }
  split; [exact Hid | reflexivity].
Qed.

Lemma UploadNGODocuments_success_inv w id fileContent reg' w' :
  UploadNGODocuments id fileContent w = Some ((reg', None), w') →
  ∃ i,
    verifyIPFSReference (NGORegistration.DocumentsIPFS reg') = true
    ∧ NGORegistration.ID reg' = id
    ∧ regs w' !! i = Some reg'.
Proof.
  intros H.
  destruct (list_find (λ r, NGORegistration.ID r = id) (regs w))
    as [[i reg]|] eqn:Hf.
  2:{ rewrite (UploadNGODocuments_not_found w id fileContent Hf) in H. done. }
  destruct (NGORegistration.CNPJValid reg) eqn:Hv.
  2:{ rewrite (UploadNGODocuments_invalid w id fileContent i reg Hf Hv) in H.
      done. }
  destruct (UploadNGODocuments_run w id fileContent i reg Hf Hv)
    as (h & Hh & Hrun).
  rewrite Hrun in H. injection H as <- <-.
  pose proof (proj1 (list_find_Some _ _ _ _) Hf) as (Hi & Hid & _).
  exists i. split; [|split].
  - cbn. apply verifyIPFSReference_Qm. lia.
  - exact Hid.
  - cbn. apply list_lookup_insert_eq. by eapply lookup_lt_Some.
Qed.

(** ** Minted references pass verification *)

(** C10.  The ledger reference that [generateMockTransactionHash] mints
    always passes [verifyBlockchainReference], and ["Qm"] followed by
    [generateMockHash(46)] always passes [verifyIPFSReference]; neither
    generator panics.  So the organization a successful [ApproveNGO]
    returns, and the record it updates, carry a reference that verifies,
    and so does the document reference of the record a successful
    [UploadNGODocuments] returns.  Round trip: in every reachable world,
    the audit of an existing organization finds both of its references
    valid and reports no validation error. *)
Theorem minted_references_verify :
  (∀ w : World,
     ∃ h w', generateMockTransactionHash w = Some (h, w')
             ∧ verifyBlockchainReference h = true)
  ∧ (∀ w : World,
       ∃ h w', generateMockHash 46 w = Some (h, w')
               ∧ verifyIPFSReference ("Qm" +:+ h) = true)
  ∧ (∀ (w w' : World) (id adminID : N) (comments : string) (ngo : NGO.t),
       ApproveNGO id adminID comments w = Some ((ngo, None), w') →
       verifyBlockchainReference (NGO.BlockchainRef ngo) = true
       ∧ ∃ i reg',
           regs w' !! i = Some reg' ∧ NGORegistration.ID reg' = id
           ∧ NGORegistration.BlockchainRef reg' = NGO.BlockchainRef ngo)
  ∧ (∀ (w w' : World) (id : N) (fileContent : list ascii)
       (reg' : NGORegistration.t),
       UploadNGODocuments id fileContent w = Some ((reg', None), w') →
       verifyIPFSReference (NGORegistration.DocumentsIPFS reg') = true
       ∧ ∃ i, regs w' !! i = Some reg' ∧ NGORegistration.ID reg' = id)
  ∧ (∀ (w : World) (req : AuditRequest.t) (adminID : N) (i : nat)
       (ngo : NGO.t),
       reachable w →
       AuditRequest.EntityType req = "ngo" →
       list_find (λ n, NGO.ID n = AuditRequest.EntityID req)
         (AdminService.ngos (admin w)) = Some (i, ngo) →
       ∃ result w',
         AuditEntity req adminID w = Some ((result, None), w')
         ∧ AuditResult.BlockchainValid result = true
         ∧ AuditResult.IPFSValid result = true
         ∧ AuditResult.ValidationErrors result = []).
Proof.
  split; [|split; [|split; [|split]]].
  - intros w. destruct (generateMockTransactionHash_run w) as (h & Hrun & Hok).
    eauto.
  - intros w. destruct (generateMockHash_run w 46) as (h & Hrun & Hlen).
    exists h. eexists. split; [exact Hrun|].
    apply verifyIPFSReference_Qm. lia.
  - intros w w' id adminID comments ngo H.
    apply ApproveNGO_success_inv in H
      as (i & reg & reg' & _ & Hok & Hi & Hid & Hb).
    split; [exact Hok|]. by exists i, reg'.
  - intros w w' id fileContent reg' H.
    apply UploadNGODocuments_success_inv in H as (i & Hok & Hid & Hi).
    split; [exact Hok|]. by exists i.
  - intros w req adminID i ngo Hreach Hty Hf.
    destruct (reachable_invariant w Hreach) as [_ Hn].
    pose proof (proj1 (list_find_Some _ _ _ _) Hf) as (Hi & _).
    destruct (Forall_lookup_1 _ _ _ _ Hn Hi) as [Hb Hd].
    assert (Hr : resolve_references req w
                 = inl (NGO.BlockchainRef ngo, NGO.DocumentsIPFS ngo)).
    { unfold resolve_references. cbv zeta. rewrite Hty, Hf. reflexivity. }
    eexists _, _. split; [apply AuditEntity_run, Hr|]. cbn.
    unfold validation_errors. rewrite Hb, Hd. done.
Qed.

Lemma minted_references_verify_witness :
  ∃ w ngo,
    reachable w
    ∧ list_find (λ n, NGO.ID n = 1%N) (AdminService.ngos (admin w))
      = Some (0%nat, ngo)
    ∧ ∃ result w',
        AuditEntity (AuditRequest.mk "ngo" 1) 9 w = Some ((result, None), w')
        ∧ AuditResult.BlockchainValid result = true
        ∧ AuditResult.IPFSValid result = true
        ∧ AuditResult.ValidationErrors result = [].
Proof.
  destruct approved_run as (w & reg & ngo & Hreach & _ & _ & _ & Hf).
  exists w, ngo. split; [exact Hreach|]. split; [exact Hf|].
  exact (proj2 (proj2 (proj2 (proj2 minted_references_verify)))
           w (AuditRequest.mk "ngo" 1) 9%N 0%nat ngo Hreach eq_refl Hf).
Defined.

(** ** The rate limiter *)

Lemma prune_spec (rl : RateLimiter.t) (ip : string) (now : Z) :
  prune rl ip (time.Add now (- RateLimiter.windowLength rl))
  = RateLimiter.set_ipLimits
      (<[ip := retained rl ip now]> (RateLimiter.ipLimits rl)) rl.
Proof.
  unfold prune, retained, requests_of.
  destruct (RateLimiter.ipLimits rl !! ip) as [requests|] eqn:Hip; cbn;
    [|done].
  do 2 f_equal. apply list_filter_iff. intros t.
  unfold time.After, time.Add. rewrite bool_decide_eq_true. lia.
Qed.

Lemma requests_of_insert (m : gmap string (list Z)) (N W : Z) (en : bool)
    (ip : string) (l : list Z) :
  requests_of (RateLimiter.mk (<[ip := l]> m) N W en) ip = l.
Proof. unfold requests_of. cbn. by rewrite lookup_insert_eq. Qed.

Lemma RateLimit_reject (rl : RateLimiter.t) (ip : string) (now : Z) :
  RateLimiter.enabled rl = true →
  RateLimiter.maxRequests rl ≤ Z.of_nat (length (retained rl ip now)) →
  RateLimit rl now (gin.request ip)
  = (RateLimiter.set_ipLimits
       (<[ip := retained rl ip now]> (RateLimiter.ipLimits rl)) rl,
     gin.mk ip
       (<["X-RateLimit-Reset" := Sprintf_d (time.Unix now)]>
          (<["X-RateLimit-Remaining" := "0"]>
             (<["X-RateLimit-Limit" := Sprintf_d (RateLimiter.maxRequests rl)]>
                ∅)))
       (Some (StatusTooManyRequests, err_rate_limited)) false).
Proof.
  intros Hen Hfull. unfold RateLimit. rewrite Hen. cbn [negb]. cbv zeta.
  cbn [gin.ClientIP gin.request].
  rewrite prune_spec. unfold RateLimiter.set_ipLimits.
  rewrite requests_of_insert.
  cbn [RateLimiter.maxRequests RateLimiter.windowLength].
  rewrite (proj2 (Z.leb_le _ _) Hfull).
  unfold gin.AbortWithStatusJSON, gin.Header, time.Add. cbn.
  replace (now + - RateLimiter.windowLength rl + RateLimiter.windowLength rl)
    with now by lia.
  reflexivity.
Qed.

Lemma RateLimit_accept (rl : RateLimiter.t) (ip : string) (now : Z) :
  RateLimiter.enabled rl = true →
  Z.of_nat (length (retained rl ip now)) < RateLimiter.maxRequests rl →
  RateLimit rl now (gin.request ip)
  = (RateLimiter.set_ipLimits
       (<[ip := retained rl ip now ++ [now]]> (RateLimiter.ipLimits rl)) rl,
     gin.mk ip
       (<["X-RateLimit-Remaining" :=
            Sprintf_d (RateLimiter.maxRequests rl
                       - Z.of_nat (length (retained rl ip now ++ [now])))]>
          (<["X-RateLimit-Limit" := Sprintf_d (RateLimiter.maxRequests rl)]>
             ∅))
       None true).
Proof.
  intros Hen Hroom. unfold RateLimit. rewrite Hen. cbn [negb]. cbv zeta.
  cbn [gin.ClientIP gin.request].
  rewrite prune_spec. unfold RateLimiter.set_ipLimits.
  rewrite !requests_of_insert.
  cbn [RateLimiter.maxRequests RateLimiter.windowLength RateLimiter.ipLimits
         RateLimiter.enabled].
  rewrite (proj2 (Z.leb_gt _ _) Hroom).
  rewrite ?requests_of_insert, insert_insert_eq.
  reflexivity.
Qed.

Lemma retained_spec (rl : RateLimiter.t) (ip : string) (now : Z) :
  retained rl ip now
  = filter (λ t, ¬ t ≤ now - RateLimiter.windowLength rl) (requests_of rl ip).
Proof. unfold retained. apply list_filter_iff. intros t. lia. Qed.

Lemma RateLimit_admission (rl : RateLimiter.t) (ip : string) (now : Z) :
  RateLimiter.enabled rl = true →
  let r := RateLimit rl now (gin.request ip) in
  let d := RateLimiterSpec.admission (RateLimiter.maxRequests rl)
             (RateLimiter.windowLength rl) (requests_of rl ip) now in
  RateLimiter.ipLimits r.1 = <[ip := d.2]> (RateLimiter.ipLimits rl)
  ∧ RateLimiter.maxRequests r.1 = RateLimiter.maxRequests rl
  ∧ RateLimiter.windowLength r.1 = RateLimiter.windowLength rl
  ∧ RateLimiter.enabled r.1 = true
  ∧ RateLimiterSpec.decided r.2 d.1.
Proof.
  intros Hen. cbv zeta. unfold RateLimiterSpec.admission. cbv zeta.
  rewrite <- retained_spec.
  destruct (decide (RateLimiter.maxRequests rl
                    ≤ Z.of_nat (length (retained rl ip now)))) as [Hfull|Hroom].
  - rewrite bool_decide_eq_true_2 by done.
    rewrite (RateLimit_reject rl ip now Hen Hfull).
    cbn [fst snd]. split; [reflexivity|]. split; [reflexivity|].
    split; [reflexivity|]. split; [exact Hen|].
    unfold RateLimiterSpec.decided. cbn. split; [done|]. split; [done|].
    split; [|done].
    rewrite !lookup_insert_ne by done. by rewrite lookup_insert_eq.
  - rewrite bool_decide_eq_false_2 by done.
    rewrite (RateLimit_accept rl ip now Hen) by lia.
    cbn [fst snd]. split; [reflexivity|]. split; [reflexivity|].
    split; [reflexivity|]. split; [exact Hen|].
    unfold RateLimiterSpec.decided. cbn. split; [done|]. split; [done|].
    split; [|by rewrite lookup_insert_eq].
    rewrite !lookup_insert_ne by done. by rewrite lookup_insert_eq.
Qed.

Lemma serve_admissions (rl : RateLimiter.t) (calls : list (string * Z)) :
  RateLimiter.enabled rl = true →
  let r := serve rl calls in
  let a := admissions (RateLimiter.maxRequests rl)
             (RateLimiter.windowLength rl) (RateLimiter.ipLimits rl) calls in
  Forall2 RateLimiterSpec.decided r.2 a.1 ∧ RateLimiter.ipLimits r.1 = a.2.
Proof.
  revert rl. induction calls as [|[ip now] rest IH]; intros rl Hen; cbn.
  - split; [constructor | done].
  - destruct (RateLimit_admission rl ip now Hen) as (Hm & HN & HW & Hen' & Hd).
    cbv zeta in Hm, HN, HW, Hen', Hd.
    destruct (IH _ Hen') as [IH1 IH2]. cbv zeta in IH1, IH2.
    rewrite HN, HW, Hm in IH1, IH2.
    split; [constructor; [exact Hd | exact IH1] | exact IH2].
Qed.

Lemma filter_none {A} (P : A → Prop) `{!∀ x, Decision (P x)} (l : list A) :
  Forall (λ x, ¬ P x) l → filter P l = [].
Proof.
  induction 1 as [|x l Hx _ IH]; [done|].
  by rewrite filter_cons_False.
Qed.

(** One call on a limiter whose state is written out. *)
Lemma RateLimit_accept_at (m : gmap string (list Z)) (N W : Z) (ip : string)
    (now : Z) (l kept : list Z) :
  default [] (m !! ip) = l →
  filter (λ t, now - W < t) l = kept →
  Z.of_nat (length kept) < N →
  RateLimit (RateLimiter.mk m N W true) now (gin.request ip)
  = (RateLimiter.mk (<[ip := kept ++ [now]]> m) N W true,
     gin.mk ip
       (<["X-RateLimit-Remaining" :=
            Sprintf_d (N - Z.of_nat (length (kept ++ [now])))]>
          (<["X-RateLimit-Limit" := Sprintf_d N]> ∅))
       None true).
Proof.
  intros Hl Hk Hroom.
  rewrite RateLimit_accept; unfold retained, requests_of; cbn;
    rewrite ?Hl, ?Hk; done.
Qed.

Lemma RateLimit_reject_at (m : gmap string (list Z)) (N W : Z) (ip : string)
    (now : Z) (l kept : list Z) :
  default [] (m !! ip) = l →
  filter (λ t, now - W < t) l = kept →
  N ≤ Z.of_nat (length kept) →
  RateLimit (RateLimiter.mk m N W true) now (gin.request ip)
  = (RateLimiter.mk (<[ip := kept]> m) N W true,
     gin.mk ip
       (<["X-RateLimit-Reset" := Sprintf_d (time.Unix now)]>
          (<["X-RateLimit-Remaining" := "0"]>
             (<["X-RateLimit-Limit" := Sprintf_d N]> ∅)))
       (Some (StatusTooManyRequests, err_rate_limited)) false).
Proof.
  intros Hl Hk Hfull.
  rewrite RateLimit_reject; unfold retained, requests_of; cbn;
    rewrite ?Hl, ?Hk; done.
Qed.

Lemma lookup_insert_default (m : gmap string (list Z)) (ip : string)
    (l : list Z) :
  default [] (<[ip := l]> m !! ip) = l.
Proof. by rewrite lookup_insert_eq. Qed.

(** With three requests a minute: three calls inside one window are
    admitted, the fourth is refused, and a call made once the window has
    gone by is admitted again. *)
Lemma three_per_minute (ip : string) (t1 t2 t3 t4 t5 : Z) :
  t1 ≤ t2 → t2 ≤ t3 → t3 ≤ t4 → t4 < t1 + time.Minute →
  t3 + time.Minute ≤ t5 →
  outcome <$> (serve (NewRateLimiter 3 time.Minute)
                 [(ip, t1); (ip, t2); (ip, t3); (ip, t4); (ip, t5)]).2
  = [(true, None, Some "2"); (true, None, Some "1"); (true, None, Some "0");
     (false, Some StatusTooManyRequests, Some "0"); (true, None, Some "2")].
Proof.
  intros H12 H23 H34 H41 H35. unfold NewRateLimiter. cbn [serve].
  rewrite (RateLimit_accept_at ∅ 3 _ ip t1 [] []); [|done|done|done].
  cbn [fst snd app].
  rewrite (RateLimit_accept_at _ 3 _ ip t2 [t1] [t1]);
    [|apply lookup_insert_default
     |apply filter_id; repeat constructor; lia|cbn; lia].
  cbn [fst snd app]. rewrite insert_insert_eq.
  rewrite (RateLimit_accept_at _ 3 _ ip t3 [t1; t2] [t1; t2]);
    [|apply lookup_insert_default
     |apply filter_id; repeat constructor; lia|cbn; lia].
  cbn [fst snd app]. rewrite insert_insert_eq.
  rewrite (RateLimit_reject_at _ 3 _ ip t4 [t1; t2; t3] [t1; t2; t3]);
    [|apply lookup_insert_default
     |apply filter_id; repeat constructor; lia|cbn; lia].
  cbn [fst snd app]. rewrite insert_insert_eq.
  rewrite (RateLimit_accept_at _ 3 _ ip t5 [t1; t2; t3] []);
    [|apply lookup_insert_default
     |apply filter_none; repeat constructor; lia|cbn; lia].
  cbn [fst snd app fmap list_fmap]. unfold outcome.
  cbn [gin.NextCalled gin.Aborted gin.Headers fmap option_fmap option_map fst].
  rewrite !lookup_insert_eq.
  rewrite lookup_insert_ne by done. rewrite lookup_insert_eq.
  reflexivity.
Qed.

(** C5.  With the limiter enabled (as [NewRateLimiter] makes it), every
    call first drops the caller's recorded timestamps at or before
    [now - W]; it then rejects with remaining 0, recording nothing, when
    [N] or more timestamps are left, and otherwise records [now] and
    admits with remaining [N] minus the new count; the limit, the window
    and the other callers' timestamps are unchanged.  A whole run of
    calls from a new limiter therefore makes the decisions of the
    specification, one after the other.  With N = 3 and W = 60 s, three
    calls inside the window are admitted, the fourth is rejected, and a
    call after the window has elapsed is admitted again. *)
Theorem RateLimit_sliding_window :
  (∀ (rl : RateLimiter.t) (ip : string) (now : Z),
     RateLimiter.enabled rl = true →
     let r := RateLimit rl now (gin.request ip) in
     let d := RateLimiterSpec.admission (RateLimiter.maxRequests rl)
                (RateLimiter.windowLength rl) (requests_of rl ip) now in
     RateLimiter.ipLimits r.1 = <[ip := d.2]> (RateLimiter.ipLimits rl)
     ∧ RateLimiter.maxRequests r.1 = RateLimiter.maxRequests rl
     ∧ RateLimiter.windowLength r.1 = RateLimiter.windowLength rl
     ∧ RateLimiter.enabled r.1 = true
     ∧ RateLimiterSpec.decided r.2 d.1)
  ∧ (∀ (N W : Z) (calls : list (string * Z)),
       let r := serve (NewRateLimiter N W) calls in
       let a := admissions N W ∅ calls in
       Forall2 RateLimiterSpec.decided r.2 a.1
       ∧ RateLimiter.ipLimits r.1 = a.2)
  ∧ (∀ (ip : string) (t1 t2 t3 t4 t5 : Z),
       t1 ≤ t2 → t2 ≤ t3 → t3 ≤ t4 → t4 < t1 + time.Minute →
       t3 + time.Minute ≤ t5 →
       outcome <$> (serve (NewRateLimiter 3 time.Minute)
                      [(ip, t1); (ip, t2); (ip, t3); (ip, t4); (ip, t5)]).2
       = [(true, None, Some "2"); (true, None, Some "1");
          (true, None, Some "0");
          (false, Some StatusTooManyRequests, Some "0");
          (true, None, Some "2")]).
Proof.
  split; [exact RateLimit_admission|]. split; [|exact three_per_minute].
  intros N W calls. by apply (serve_admissions (NewRateLimiter N W)).
Qed.

Lemma RateLimit_sliding_window_witness :
  outcome <$> (serve (NewRateLimiter 3 time.Minute)
                 [("10.0.0.1", 0); ("10.0.0.1", 10 * time.Second);
                  ("10.0.0.1", 20 * time.Second);
                  ("10.0.0.1", 30 * time.Second);
                  ("10.0.0.1", 90 * time.Second)]).2
  = [(true, None, Some "2"); (true, None, Some "1"); (true, None, Some "0");
     (false, Some StatusTooManyRequests, Some "0"); (true, None, Some "2")].
Proof.
  apply (proj2 (proj2 RateLimit_sliding_window)); unfold time.Minute, time.Second; lia.
Defined.

(** On every rejection the reset header carries the instant of the call
    itself ([validTime + W] is [now]), which is earlier than any retained
    timestamp plus the window. *)
Lemma RateLimit_reset_header (rl : RateLimiter.t) (ip : string) (now : Z) :
  RateLimiter.enabled rl = true →
  RateLimiter.maxRequests rl ≤ Z.of_nat (length (retained rl ip now)) →
  gin.Headers (RateLimit rl now (gin.request ip)).2 !! "X-RateLimit-Reset"
  = Some (Sprintf_d (time.Unix now))
  ∧ requests_of (RateLimit rl now (gin.request ip)).1 ip = retained rl ip now
  ∧ Forall (λ t, now < t + RateLimiter.windowLength rl) (retained rl ip now).
Proof.
  intros Hen Hfull. rewrite (RateLimit_reject rl ip now Hen Hfull).
  cbn [fst snd gin.Headers]. split; [by rewrite lookup_insert_eq|].
  split; [apply requests_of_insert|].
  unfold retained. apply Forall_forall. intros t Ht.
  apply list_elem_of_filter in Ht as [Ht _]. lia.
Qed.

(** C6, the code at a failing input.  One request a minute; a call at
    0 s is admitted and a call at 30 s is rejected.  The earliest (and
    only) retained timestamp is 0 s, so the reset instant of the claim is
    60 s; the header of the rejection says 30, the second of the call
    itself. *)
Theorem RateLimit_reset_is_call_time :
  let ip := "10.0.0.1" in
  let rl1 := (RateLimit (NewRateLimiter 1 time.Minute) 0 (gin.request ip)).1 in
  let r := RateLimit rl1 (30 * time.Second) (gin.request ip) in
  gin.Aborted r.2 = Some (StatusTooManyRequests, err_rate_limited)
  ∧ requests_of r.1 ip = [0]
  ∧ gin.Headers r.2 !! "X-RateLimit-Reset" = Some "30"
  ∧ Sprintf_d (time.Unix (0 + time.Minute)) = "60".
Proof.
  cbv zeta. unfold NewRateLimiter.
  rewrite (RateLimit_accept_at ∅ 1 _ "10.0.0.1" 0 [] []); [|done|done|done].
  cbn [fst snd app].
  rewrite (RateLimit_reject_at _ 1 _ "10.0.0.1" _ [0] [0]);
    [|apply lookup_insert_default|reflexivity|cbn; lia].
  cbn [fst snd gin.Aborted gin.Headers].
  split; [reflexivity|]. split; [apply requests_of_insert|].
  split; [by rewrite lookup_insert_eq | reflexivity].
Qed.

(** Switched off, the limiter lets every request through and leaves its
    state alone. *)
Lemma RateLimit_disabled (rl : RateLimiter.t) (now : Z) (c : gin.Context) :
  RateLimit (SetEnabled false rl) now c = (SetEnabled false rl, gin.Next c).
Proof. reflexivity. Qed.

(** ** More on the workflow: what every call does *)

(** Every call follows one of the cases of [outcome_of]. *)
Lemma run_op_outcome (op : Op) (w w' : World) (e : error) :
  run_op op w = Some (e, w') → outcome_of w op e w'.
Proof.
  destruct op as [req|id|id f|id a c|id a c|req a]; cbn [run_op];
    intros H; apply run_op_inv in H as [r H].
  - destruct (decide (tax_id_in_use (NGORegistrationRequest.CNPJ req) w))
      as [Hd|Hd].
    + destruct (RegisterNGO_duplicate w req Hd) as (e' & He & Hrun).
      rewrite Hrun in H. injection H as <- <- <-. by constructor.
    + rewrite (RegisterNGO_run w req Hd) in H. injection H as <- <- <-.
      by constructor.
  - destruct (list_find (λ r, NGORegistration.ID r = id) (regs w))
      as [[i reg]|] eqn:Hf.
    + destruct (NGORegistration.CNPJValid reg) eqn:Hv.
      * rewrite (ValidateCNPJOnline_run w id i reg Hf Hv) in H.
        injection H as <- <- <-. by apply validate_ok.
      * rewrite (ValidateCNPJOnline_invalid w id i reg Hf Hv) in H.
        injection H as <- <- <-. by eapply validate_invalid.
    + rewrite (ValidateCNPJOnline_not_found w id Hf) in H.
      injection H as <- <- <-. by constructor.
  - destruct (list_find (λ r, NGORegistration.ID r = id) (regs w))
      as [[i reg]|] eqn:Hf.
    + destruct (NGORegistration.CNPJValid reg) eqn:Hv.
      * destruct (UploadNGODocuments_run w id f i reg Hf Hv)
          as (h & Hlen & Hrun).
        rewrite Hrun in H. injection H as <- <- <-. by eapply upload_ok.
      * rewrite (UploadNGODocuments_invalid w id f i reg Hf Hv) in H.
        injection H as <- <- <-. by eapply upload_invalid.
    + rewrite (UploadNGODocuments_not_found w id f Hf) in H.
      injection H as <- <- <-. by constructor.
  - destruct (list_find (λ r, NGORegistration.ID r = id) (regs w))
      as [[i reg]|] eqn:Hf.
    + destruct (NGORegistration.CNPJValid reg) eqn:Hv.
      * destruct (decide (NGORegistration.DocumentsIPFS reg = "")) as [Hd|Hd].
        -- rewrite (ApproveNGO_no_documents w id a c i reg Hf Hv Hd) in H.
           injection H as <- <- <-. by eapply approve_no_documents.
        -- destruct (ApproveNGO_run w id a c i reg Hf Hv Hd)
             as (ref & Hok & Hrun).
           rewrite Hrun in H. injection H as <- <- <-. by eapply approve_ok.
      * rewrite (ApproveNGO_invalid w id a c i reg Hf Hv) in H.
        injection H as <- <- <-. by eapply approve_invalid.
    + rewrite (ApproveNGO_not_found w id a c Hf) in H.
      injection H as <- <- <-. by constructor.
  - destruct (list_find (λ r, NGORegistration.ID r = id) (regs w))
      as [[i reg]|] eqn:Hf.
    + rewrite (RejectNGO_run w id a c i reg Hf) in H.
      injection H as <- <- <-. by eapply reject_ok.
    + rewrite (RejectNGO_not_found w id a c Hf) in H.
      injection H as <- <- <-. by constructor.
  - destruct (resolve_references req w) as [[bref iref]|msg] eqn:Hr.
    + rewrite (AuditEntity_run _ _ _ _ _ Hr) in H.
      injection H as <- <- <-. by constructor.
    + rewrite (AuditEntity_error _ _ _ _ Hr) in H.
      injection H as <- <- <-. by constructor.
Qed.

Lemma sequential_nil {A} (ID : A → N) : sequential ID [].
Proof. intros i x H. done. Qed.

Lemma sequential_snoc {A} (ID : A → N) (l : list A) (x : A) :
  sequential ID l → ID x = N.of_nat (length l + 1) → sequential ID (l ++ [x]).
Proof.
  intros Hl Hx i y Hi. apply lookup_app_Some in Hi as [Hi|[Hge Hi]].
  - by apply Hl.
  - apply list_lookup_singleton_Some in Hi as [Hi <-].
    rewrite Hx. f_equal. lia.
Qed.

Lemma sequential_insert {A} (ID : A → N) (l : list A) (i : nat) (x y : A) :
  sequential ID l → l !! i = Some x → ID y = ID x →
  sequential ID (<[i := y]> l).
Proof.
  intros Hl Hi Hxy j z Hj.
  apply list_lookup_insert_Some in Hj as [(-> & -> & _)|[_ Hj]].
  - rewrite Hxy. by apply Hl.
  - by apply Hl.
Qed.

Lemma fmap_insert_same {A B} (f : A → B) (l : list A) (i : nat) (x y : A) :
  l !! i = Some x → f y = f x → f <$> <[i := y]> l = f <$> l.
Proof.
  intros Hi Hxy. rewrite list_fmap_insert, Hxy.
  apply list_insert_id. by rewrite list_lookup_fmap, Hi.
Qed.

(** With sequential IDs a lookup by ID is a lookup by position. *)
Lemma list_find_sequential {A} (ID : A → N) (l : list A) (id : N) (i : nat)
    (x : A) :
  sequential ID l →
  list_find (λ y, ID y = id) l = Some (i, x)
  ↔ l !! i = Some x ∧ id = N.of_nat (i + 1).
Proof.
  intros Hl. rewrite list_find_Some. split.
  - intros (Hi & Hid & _). split; [done|]. rewrite <- Hid. by apply Hl.
  - intros (Hi & ->). split; [done|]. split; [by apply Hl|].
    intros j y Hj Hlt Hy. apply Hl in Hj. rewrite Hj in Hy. lia.
Qed.

Lemma list_find_sequential_None {A} (ID : A → N) (l : list A) (id : N) :
  sequential ID l →
  list_find (λ y, ID y = id) l = None
  ↔ id = 0%N ∨ (N.of_nat (length l) < id)%N.
Proof.
  intros Hl. split.
  - intros Hn.
    destruct (decide (id = 0%N)) as [|Hz]; [by left|]. right.
    destruct (decide (N.of_nat (length l) < id)%N) as [|Hle]; [done|].
    exfalso.
    destruct (lookup_lt_is_Some_2 l (N.to_nat id - 1)) as [x Hx]; [lia|].
    assert (Hf : list_find (λ y, ID y = id) l = Some ((N.to_nat id - 1)%nat, x)).
    { apply list_find_sequential; [done|]. split; [done|]. lia. }
    congruence.
  - intros Hid. destruct (list_find _ l) as [[i x]|] eqn:Hf; [|done].
    apply list_find_sequential in Hf as [Hi ->]; [|done].
    apply lookup_lt_Some in Hi. lia.
Qed.

Lemma validateCNPJFormat_true_msg (cnpj m : string) :
  validateCNPJFormat cnpj = Some (true, m) → m = msg_valid.
Proof.
  rewrite validateCNPJFormat_eq_validate. unfold ChecksumSpec.validate.
  cbv zeta.
  destruct (negb _); [done|]. destruct (ChecksumSpec.all_identical _); [done|].
  destruct (negb _); [done|]. destruct (negb _); [done|]. by intros [= <-].
Qed.

Lemma well_formed_update (w w' : World) (i : nat)
    (reg reg' : NGORegistration.t) :
  well_formed w →
  regs w !! i = Some reg →
  regs w' = <[i := reg']> (regs w) →
  AdminService.ngos (admin w') = AdminService.ngos (admin w) →
  sequential AuditLog.ID (AdminService.auditLogs (admin w')) →
  NGORegistration.ID reg' = NGORegistration.ID reg →
  NGORegistration.CNPJ reg' = NGORegistration.CNPJ reg →
  NGORegistration.CNPJValid reg' = NGORegistration.CNPJValid reg →
  (NGORegistration.CNPJValid reg = false →
   NGORegistration.CNPJValidationMsg reg'
   = NGORegistration.CNPJValidationMsg reg) →
  well_formed w'.
Proof.
  intros [Hr Hn Hl Ht Hf Hng] Hi Hregs Hngos Hlogs Hid Hc Hv Hm.
  assert (Hfm : NGORegistration.CNPJ <$> regs w'
                = NGORegistration.CNPJ <$> regs w).
  { rewrite Hregs. by eapply fmap_insert_same. }
  split; rewrite ?Hngos, ?Hfm; try done.
  - rewrite Hregs. by eapply sequential_insert.
  - rewrite Hregs. apply Forall_insert; [done|].
    destruct (Forall_lookup_1 _ _ _ _ Hf Hi) as (msg & Hmsg & Hinv).
    exists msg. rewrite Hc, Hv. split; [done|]. intros Hfalse.
    rewrite Hm by done. by apply Hinv.
Qed.

Lemma sequential_log_appended (w : World) a act et eid p n k :
  sequential AuditLog.ID (AdminService.auditLogs (admin w)) →
  sequential AuditLog.ID
    (AdminService.auditLogs (admin w) ++ [audit_log w a act et eid p n k]).
Proof. intros H. by apply sequential_snoc. Qed.

(** Every call keeps the state well formed. *)
Lemma outcome_well_formed (w w' : World) (op : Op) (e : error) :
  outcome_of w op e w' → well_formed w → well_formed w'.
Proof.
  intros Hout Hwf.
  destruct Hout as
    [req e Hd He | req Hfree | | | id i reg Hf Hv | | | id f i reg h Hf Hv Hlen
     | | | | id a c i reg ref Hf Hv Hdoc Hok | | id a c i reg Hf
     | req a msg Hr | req a bref iref Hr]; try done.
  - (* register *)
    destruct Hwf as [Hr Hn Hl Ht Hfl Hng].
    split; world_norm.
    + by apply sequential_snoc.
    + done.
    + by apply sequential_log_appended.
    + rewrite fmap_app. apply NoDup_app. split; [done|]. split.
      * intros c Hc Hin. apply list_elem_of_singleton in Hin. subst c.
        apply Hfree. left. apply Exists_exists.
        apply list_elem_of_fmap in Hc as (r & Hrc & Hrin). eauto.
      * apply NoDup_singleton.
    + apply Forall_app. split; [done|]. constructor; [|constructor].
      exists (ChecksumSpec.validate (NGORegistrationRequest.CNPJ req)).2.
      rewrite validateCNPJFormat_eq_validate. cbn.
      by destruct (ChecksumSpec.validate _).
    + eapply Forall_impl; [exact Hng|]. intros ngo [? Hin]. split; [done|].
      rewrite fmap_app. apply elem_of_app. by left.
  - (* validate *)
    pose proof (proj1 (list_find_Some _ _ _ _) Hf) as (Hi & _).
    eapply (well_formed_update w _ i reg); try done; try reflexivity;
      try (world_norm; apply sequential_log_appended, Hwf);
      try (cbn; by rewrite Hv); try (rewrite Hv; done).
  - (* upload *)
    pose proof (proj1 (list_find_Some _ _ _ _) Hf) as (Hi & _).
    eapply (well_formed_update w _ i reg); try done; try reflexivity;
      try (world_norm; apply sequential_log_appended, Hwf).
  - (* approve *)
    pose proof (proj1 (list_find_Some _ _ _ _) Hf) as (Hi & _).
    assert (Hwf1 : well_formed
                     (update_registration i
                        (approved_registration ref c (clock w (S (ticks w))) reg)
                        w)).
    { eapply (well_formed_update w _ i reg); try done; try reflexivity;
        try apply Hwf. }
    destruct Hwf1 as [Hr Hn Hl Ht Hfl Hng]. revert Hr Hn Hl Ht Hfl Hng.
    world_norm. intros Hr Hn Hl Ht Hfl Hng.
    split; world_norm; try done.
    + by apply sequential_snoc.
    + by apply sequential_log_appended.
    + apply Forall_app. split; [done|]. constructor; [|constructor].
      destruct (Forall_lookup_1 _ _ _ _ (wf_flags w Hwf) Hi)
        as (msg & Hmsg & _).
      rewrite Hv in Hmsg. split.
      * cbn. rewrite Hmsg. f_equal. f_equal.
        by eapply validateCNPJFormat_true_msg.
      * cbn. erewrite fmap_insert_same; [|exact Hi|reflexivity].
        apply list_elem_of_fmap. exists reg. split; [done|].
        by eapply list_elem_of_lookup_2.
  - (* reject *)
    pose proof (proj1 (list_find_Some _ _ _ _) Hf) as (Hi & _).
    eapply (well_formed_update w _ i reg); try done; try reflexivity;
      try (world_norm; apply sequential_log_appended, Hwf).
  - (* audit, error *)
    destruct Hwf. by split.
  - (* audit *)
    destruct Hwf as [Hrs Hn Hl Ht Hfl Hng]. split; world_norm; try done.
    by apply sequential_log_appended.
Qed.

Lemma reachable_well_formed (w : World) : reachable w → well_formed w.
Proof.
  induction 1 as [w Hnew | w w' op e _ IH Hrun].
  - split; rewrite Hnew; cbn; try apply sequential_nil; constructor.
  - eapply outcome_well_formed; [|exact IH]. by apply run_op_outcome.
Qed.

(** ** Properties of the calls *)

(** X1.  A call that returns an error changes nothing in the three
    services (only the clock may have been read): no method commits a
    part of its work before it fails. *)
Theorem failed_call_changes_nothing (op : Op) (w w' : World) (msg : string) :
  run_op op w = Some (Some msg, w') →
  admin w' = admin w
  ∧ donationService w' = donationService w
  ∧ expenseService w' = expenseService w.
Proof.
  intros H. apply run_op_outcome in H.
  inversion H; subst; try done.
Qed.

Lemma failed_call_changes_nothing_witness :
  ∃ w', run_op (OpApprove 5 1 "ok") world0
        = Some (Some err_registration_not_found, w')
        ∧ admin w' = admin world0.
Proof.
  assert (H : run_op (OpApprove 5 1 "ok") world0
              = Some (Some err_registration_not_found, world0)).
  { apply (run_op_of (ApproveNGO 5 1 "ok") world0 world0 NGO.zero).
    by apply ApproveNGO_not_found. }
  exists world0. split; [exact H|].
  exact (proj1 (failed_call_changes_nothing _ _ _ _ H)).
Defined.

(** X2.  The audit trail only grows at its end: a call that succeeds
    appends exactly one entry, numbered with the new length of the
    trail, and a call that fails appends none; the entries already there
    are never edited or removed. *)
Theorem audit_trail_append_only (op : Op) (w w' : World) (e : error) :
  run_op op w = Some (e, w') →
  match e with
  | None =>
      ∃ entry,
        AdminService.auditLogs (admin w')
        = AdminService.auditLogs (admin w) ++ [entry]
        ∧ AuditLog.ID entry
          = N.of_nat (length (AdminService.auditLogs (admin w)) + 1)
        ∧ AuditLog.Comments entry = AuditLog.NewState entry
  | Some _ =>
      AdminService.auditLogs (admin w') = AdminService.auditLogs (admin w)
  end.
Proof.
  intros H. apply run_op_outcome in H.
  inversion H; subst; try done;
    try (destruct H1 as [-> | ->]; done);
    eexists; split; reflexivity || (split; reflexivity).
Qed.

Lemma audit_trail_append_only_witness :
  ∃ w' entry,
    run_op (OpRegister req_casa) world0 = Some (None, w')
    ∧ AdminService.auditLogs (admin w') = [] ++ [entry]
    ∧ AuditLog.ID entry = 1%N.
Proof.
  assert (Hfree : ¬ tax_id_in_use (NGORegistrationRequest.CNPJ req_casa) world0).
  { intros [H|H]; inversion H. }
  pose proof (run_op_of _ _ _ _ _ (RegisterNGO_run world0 req_casa Hfree)
              : run_op (OpRegister req_casa) world0 = _) as Hrun.
  destruct (audit_trail_append_only _ _ _ _ Hrun) as (entry & Hl & Hid & _).
  eexists _, entry. split; [exact Hrun|]. split; [exact Hl | exact Hid].
Defined.

(** The accumulating loop is a filter. *)
Lemma range_append_filter {A} (keep : A → bool) (l results : list A) :
  range_append keep l results = results ++ filter (λ x, keep x = true) l.
Proof.
  revert results. induction l as [|x l IH]; intros results; simpl.
  - by rewrite app_nil_r.
  - rewrite IH. destruct (keep x) eqn:Hx.
    + rewrite filter_cons_True by done. by rewrite <- app_assoc.
    + rewrite filter_cons_False; [done | by rewrite Hx].
Qed.

(** X3.  In every world the service can reach, the registrations, the
    organizations and the audit entries are numbered by their position,
    from one: IDs are unique and are never reused. *)
Theorem ids_are_positions (w : World) :
  reachable w →
  (∀ i reg, regs w !! i = Some reg → NGORegistration.ID reg = N.of_nat (i + 1))
  ∧ (∀ i ngo, AdminService.ngos (admin w) !! i = Some ngo →
              NGO.ID ngo = N.of_nat (i + 1))
  ∧ (∀ i entry, AdminService.auditLogs (admin w) !! i = Some entry →
                AuditLog.ID entry = N.of_nat (i + 1)).
Proof.
  intros Hreach. destruct (reachable_well_formed w Hreach) as [Hr Hn Hl _ _ _].
  split; [exact Hr|]. split; [exact Hn | exact Hl].
Qed.

(** X4.  In a reachable world [GetNGORegistrationByID] is a lookup by
    position: the ID [i + 1] returns the record at position [i] without
    error, and the ID zero or an ID beyond the number of registrations
    returns the zero record and the not-found error. *)
Theorem GetNGORegistrationByID_reachable (w : World) (id : N) :
  reachable w →
  (∀ i reg, regs w !! i = Some reg → id = N.of_nat (i + 1) →
            GetNGORegistrationByID (admin w) id = (reg, None))
  ∧ (id = 0%N ∨ (N.of_nat (length (regs w)) < id)%N →
     GetNGORegistrationByID (admin w) id
     = (NGORegistration.zero, Some err_registration_not_found)).
Proof.
  intros Hreach. destruct (reachable_well_formed w Hreach) as [Hr _ _ _ _ _].
  unfold GetNGORegistrationByID. split.
  - intros i reg Hi ->.
    rewrite (proj2 (list_find_sequential _ _ _ i reg Hr)); done.
  - intros Hid.
    by rewrite (proj2 (list_find_sequential_None _ _ id Hr) Hid).
Qed.

(** X6.  In a reachable world no two registrations share a tax ID, so
    [GetNGORegistrationsByCNPJ] returns at most one record, and every
    record it returns has the tax ID asked for. *)
Theorem tax_ids_are_unique (w : World) (cnpj : string) :
  reachable w →
  NoDup (NGORegistration.CNPJ <$> regs w)
  ∧ (length (GetNGORegistrationsByCNPJ (admin w) cnpj) ≤ 1)%nat
  ∧ Forall (λ reg, NGORegistration.CNPJ reg = cnpj)
      (GetNGORegistrationsByCNPJ (admin w) cnpj).
Proof.
  intros Hreach. destruct (reachable_well_formed w Hreach) as [_ _ _ Ht _ _].
  split; [exact Ht|].
  unfold GetNGORegistrationsByCNPJ. rewrite range_append_filter. cbn [app].
  split.
  - revert Ht. generalize (regs w). intros l.
    induction l as [|r l IH]; intros Hnd; [simpl; lia|].
    rewrite fmap_cons in Hnd. apply NoDup_cons in Hnd as [Hnotin Hnd].
    destruct (String.eqb_spec (NGORegistration.CNPJ r) cnpj) as [Heq|Hne].
    + rewrite filter_cons_True by (by apply String.eqb_eq).
      replace (filter _ l) with (@nil NGORegistration.t); [simpl; lia|].
      symmetry. apply (filter_none _). apply Forall_forall. intros r' Hr' Hc.
      apply String.eqb_eq in Hc. apply Hnotin.
      apply list_elem_of_fmap. exists r'. split; [congruence | done].
    + rewrite filter_cons_False by (by intros H%String.eqb_eq). by apply IH.
  - apply Forall_forall. intros r Hr.
    apply list_elem_of_filter in Hr as [Hr _]. by apply String.eqb_eq.
Qed.

(** X7.  In a reachable world the stored checksum flag of every
    registration is the verdict of the validator on its tax ID, and a
    record whose flag is false still carries the validator's message. *)
Theorem checksum_flag_is_validator_verdict (w : World)
    (reg : NGORegistration.t) :
  reachable w →
  reg ∈ regs w →
  ∃ msg,
    validateCNPJFormat (NGORegistration.CNPJ reg)
    = Some (NGORegistration.CNPJValid reg, msg)
    ∧ (NGORegistration.CNPJValid reg = false →
       NGORegistration.CNPJValidationMsg reg = msg).
Proof.
  intros Hreach Hin.
  destruct (reachable_well_formed w Hreach) as [_ _ _ _ Hf _].
  exact (proj1 (Forall_forall _ _) Hf reg Hin).
Qed.

(** X8.  In a reachable world every organization has a tax ID that the
    validator accepts, and that tax ID is the one of a stored
    registration: no organization is minted from an invalid or an
    unregistered tax ID. *)
Theorem organizations_have_valid_tax_ids (w : World) (ngo : NGO.t) :
  reachable w →
  ngo ∈ AdminService.ngos (admin w) →
  validateCNPJFormat (NGO.CNPJ ngo) = Some (true, msg_valid)
  ∧ ∃ reg, reg ∈ regs w ∧ NGORegistration.CNPJ reg = NGO.CNPJ ngo.
Proof.
  intros Hreach Hin.
  destruct (reachable_well_formed w Hreach) as [_ _ _ _ _ Hn].
  destruct (proj1 (Forall_forall _ _) Hn ngo Hin) as [Hv Hc].
  split; [exact Hv|].
  apply list_elem_of_fmap in Hc as (reg & Hc & Hreg). eauto.
Qed.

Lemma ids_are_positions_witness :
  ∃ w reg, reachable w ∧ regs w !! 0%nat = Some reg
           ∧ NGORegistration.ID reg = 1%N.
Proof.
  destruct approved_run as (w & reg & ngo & Hreach & Hf & _).
  pose proof (proj1 (list_find_Some _ _ _ _) Hf) as (Hi & _).
  exists w, reg. split; [done|]. split; [done|].
  exact (proj1 (ids_are_positions w Hreach) 0%nat reg Hi).
Defined.

Lemma GetNGORegistrationByID_reachable_witness :
  ∃ w reg, reachable w ∧ regs w !! 0%nat = Some reg
           ∧ GetNGORegistrationByID (admin w) 1 = (reg, None).
Proof.
  destruct approved_run as (w & reg & ngo & Hreach & Hf & _).
  pose proof (proj1 (list_find_Some _ _ _ _) Hf) as (Hi & _).
  exists w, reg. split; [done|]. split; [done|].
  exact (proj1 (GetNGORegistrationByID_reachable w 1 Hreach) 0%nat reg Hi
           eq_refl).
Defined.

Lemma tax_ids_are_unique_witness :
  ∃ w, reachable w
       ∧ (length (GetNGORegistrationsByCNPJ (admin w) "11222333000181") ≤ 1)%nat.
Proof.
  destruct approved_run as (w & reg & ngo & Hreach & _).
  exists w. split; [done|].
  exact (proj1 (proj2 (tax_ids_are_unique w "11222333000181" Hreach))).
Defined.

Lemma checksum_flag_is_validator_verdict_witness :
  ∃ w reg msg,
    reachable w ∧ reg ∈ regs w
    ∧ validateCNPJFormat (NGORegistration.CNPJ reg)
      = Some (NGORegistration.CNPJValid reg, msg).
Proof.
  destruct approved_run as (w & reg & ngo & Hreach & Hf & _).
  pose proof (proj1 (list_find_Some _ _ _ _) Hf) as (Hi & _).
  assert (Hin : reg ∈ regs w) by (by eapply list_elem_of_lookup_2).
  destruct (checksum_flag_is_validator_verdict w reg Hreach Hin)
    as (msg & Hmsg & _).
  by exists w, reg, msg.
Defined.

Lemma organizations_have_valid_tax_ids_witness :
  ∃ w ngo,
    reachable w ∧ ngo ∈ AdminService.ngos (admin w)
    ∧ validateCNPJFormat (NGO.CNPJ ngo) = Some (true, msg_valid).
Proof.
  destruct approved_run as (w & reg & ngo & Hreach & _ & _ & _ & Hf).
  pose proof (proj1 (list_find_Some _ _ _ _) Hf) as (Hi & _).
  assert (Hin : ngo ∈ AdminService.ngos (admin w))
    by (by eapply list_elem_of_lookup_2).
  exists w, ngo. split; [done|]. split; [done|].
  exact (proj1 (organizations_have_valid_tax_ids w ngo Hreach Hin)).
Defined.

Lemma list_find_insert_keep {A} (P : A → Prop) `{!∀ x, Decision (P x)}
    (l : list A) (i : nat) (x y : A) :
  list_find P l = Some (i, x) → P y →
  list_find P (<[i := y]> l) = Some (i, y).
Proof.
  intros Hf Hy. apply list_find_Some in Hf as (Hi & Hx & Hbefore).
  apply list_find_Some. split.
  - apply list_lookup_insert_eq. by eapply lookup_lt_Some.
  - split; [done|]. intros j z Hj Hlt.
    rewrite list_lookup_insert_ne in Hj by lia. by eapply Hbefore.
Qed.

Lemma RegisterNGO_success_inv (w w' : World) (req : NGORegistrationRequest.t)
    (reg : NGORegistration.t) :
  RegisterNGO req w = Some ((reg, None), w') →
  ¬ tax_id_in_use (NGORegistrationRequest.CNPJ req) w
  ∧ reg = new_registration w req
  ∧ regs w' = regs w ++ [reg].
Proof.
  intros H.
  destruct (decide (tax_id_in_use (NGORegistrationRequest.CNPJ req) w))
    as [Hd|Hd].
  - destruct (RegisterNGO_duplicate w req Hd) as (e & He & Hrun).
    rewrite Hrun in H. injection H as _ He' _. subst e. by destruct He.
  - rewrite (RegisterNGO_run w req Hd) in H. injection H as <- <-.
    split; [done|]. split; reflexivity.
Qed.

(** X5.  Register, then look up.  A [RegisterNGO] call that succeeds in
    a reachable world appends one Pending record, with the next ID, the
    tax ID of the request, the verdict and message of the validator, and
    neither documents nor ledger reference; [GetNGORegistrationByID] on
    its ID then returns that record, and [GetNGORegistrationsByCNPJ] on
    its tax ID returns that record alone. *)
Theorem register_then_lookup (w w' : World) (req : NGORegistrationRequest.t)
    (reg : NGORegistration.t) :
  reachable w →
  RegisterNGO req w = Some ((reg, None), w') →
  regs w' = regs w ++ [reg]
  ∧ NGORegistration.ID reg = N.of_nat (length (regs w) + 1)
  ∧ NGORegistration.Status reg = NGOStatusPending
  ∧ NGORegistration.CNPJ reg = NGORegistrationRequest.CNPJ req
  ∧ NGORegistration.DocumentsIPFS reg = ""
  ∧ NGORegistration.BlockchainRef reg = ""
  ∧ validateCNPJFormat (NGORegistrationRequest.CNPJ req)
    = Some (NGORegistration.CNPJValid reg, NGORegistration.CNPJValidationMsg reg)
  ∧ GetNGORegistrationByID (admin w') (NGORegistration.ID reg) = (reg, None)
  ∧ GetNGORegistrationsByCNPJ (admin w') (NGORegistrationRequest.CNPJ req)
    = [reg].
Proof.
  intros Hreach Hrun.
  assert (Hreach' : reachable w').
  { eapply reachable_call; [exact Hreach|].
    exact (run_op_of _ _ _ _ _ Hrun : run_op (OpRegister req) w = _). }
  destruct (RegisterNGO_success_inv _ _ _ _ Hrun) as (Hfree & -> & Hregs).
  split; [exact Hregs|]. do 5 (split; [reflexivity|]). split.
  { rewrite validateCNPJFormat_eq_validate. cbn.
    by destruct (ChecksumSpec.validate _). }
  split.
  - unfold GetNGORegistrationByID.
    rewrite (proj2 (list_find_sequential NGORegistration.ID (regs w') _
                      (length (regs w)) (new_registration w req)
                      (wf_registration_ids _ (reachable_well_formed _ Hreach'))));
      [done|].
    split; [|reflexivity]. rewrite Hregs. by apply list_lookup_middle.
  - unfold GetNGORegistrationsByCNPJ.
    rewrite range_append_filter, Hregs, filter_app. cbn [app].
    rewrite (filter_none _ (regs w)).
    + rewrite filter_cons_True; [done|]. cbn. apply String.eqb_refl.
    + apply Forall_forall. intros r Hr Hc. apply String.eqb_eq in Hc.
      apply Hfree. left. apply Exists_exists. eauto.
Qed.

Lemma register_then_lookup_witness :
  ∃ reg w',
    RegisterNGO req_casa world0 = Some ((reg, None), w')
    ∧ GetNGORegistrationByID (admin w') 1 = (reg, None)
    ∧ GetNGORegistrationsByCNPJ (admin w') "11222333000181" = [reg].
Proof.
  assert (Hfree : ¬ tax_id_in_use (NGORegistrationRequest.CNPJ req_casa) world0).
  { intros [H|H]; inversion H. }
  pose proof (RegisterNGO_run world0 req_casa Hfree) as Hrun.
  destruct (register_then_lookup _ _ _ _ reachable_world0 Hrun)
    as (_ & _ & _ & _ & _ & _ & _ & Hid & Hc).
  eexists _, _. split; [exact Hrun|]. split; [exact Hid | exact Hc].
Defined.

(** X9.  [ValidateCNPJOnline], in full.  No registration with the ID:
    the not-found error, nothing changed.  Stored flag false: the error is
    the stored validation message, nothing changed.  Otherwise the record
    gets status Validating and the online message, keeps its flag, its
    references, its comments and its submission, the organizations are
    untouched, and one audit entry by actor 0 records the move from the
    record's previous status to Validating. *)
Theorem ValidateCNPJOnline_contract (w : World) (registrationID : N) :
  match list_find (λ r, NGORegistration.ID r = registrationID) (regs w) with
  | None =>
      ValidateCNPJOnline registrationID w
      = Some ((NGORegistration.zero, Some err_registration_not_found), w)
  | Some (i, reg) =>
      if NGORegistration.CNPJValid reg then
        ∃ reg' entry w',
          ValidateCNPJOnline registrationID w = Some ((reg', None), w')
          ∧ regs w' = <[i := reg']> (regs w)
          ∧ NGORegistration.Status reg' = NGOStatusValidating
          ∧ NGORegistration.CNPJValid reg' = true
          ∧ NGORegistration.CNPJValidationMsg reg'
            = "CNPJ verificado online e válido"
          ∧ NGORegistration.DocumentsIPFS reg'
            = NGORegistration.DocumentsIPFS reg
          ∧ NGORegistration.BlockchainRef reg'
            = NGORegistration.BlockchainRef reg
          ∧ NGORegistration.AdminComments reg'
            = NGORegistration.AdminComments reg
          ∧ same_submission reg reg'
          ∧ AdminService.ngos (admin w') = AdminService.ngos (admin w)
          ∧ AdminService.auditLogs (admin w')
            = AdminService.auditLogs (admin w) ++ [entry]
          ∧ AuditLog.Action entry = "cnpj_validated"
          ∧ AuditLog.AdminID entry = 0%N
          ∧ AuditLog.EntityType entry = "ngo_registration"
          ∧ AuditLog.EntityID entry = registrationID
          ∧ AuditLog.PreviousState entry = NGORegistration.Status reg
          ∧ AuditLog.NewState entry = NGOStatusValidating
      else
        ValidateCNPJOnline registrationID w
        = Some ((NGORegistration.zero,
                 Some (NGORegistration.CNPJValidationMsg reg)), w)
  end.
Proof.
  destruct (list_find _ _) as [[i reg]|] eqn:Hf.
  - destruct (NGORegistration.CNPJValid reg) eqn:Hv.
    + pose proof (ValidateCNPJOnline_run w registrationID i reg Hf Hv) as Hrun.
      cbv zeta in Hrun. eexists _, _, _. split; [exact Hrun|].
      split; [reflexivity|]. repeat split; reflexivity.
    + by apply (ValidateCNPJOnline_invalid w registrationID i reg).
  - by apply ValidateCNPJOnline_not_found.
Qed.

(** X10.  [UploadNGODocuments], in full.  No registration with the ID:
    the not-found error, nothing changed.  Stored flag false: the error
    that the tax ID must be validated first, nothing changed.  Otherwise,
    whatever the file content and the current status, the record gets a
    new document reference that passes [verifyIPFSReference] (an earlier
    one is overwritten) and keeps its status, flag, ledger reference,
    comments and submission; one audit entry by actor 0 is appended. *)
Theorem UploadNGODocuments_contract (w : World) (registrationID : N)
    (fileContent : list ascii) :
  match list_find (λ r, NGORegistration.ID r = registrationID) (regs w) with
  | None =>
      UploadNGODocuments registrationID fileContent w
      = Some ((NGORegistration.zero, Some err_registration_not_found), w)
  | Some (i, reg) =>
      if NGORegistration.CNPJValid reg then
        ∃ reg' entry w',
          UploadNGODocuments registrationID fileContent w
          = Some ((reg', None), w')
          ∧ regs w' = <[i := reg']> (regs w)
          ∧ verifyIPFSReference (NGORegistration.DocumentsIPFS reg') = true
          ∧ NGORegistration.Status reg' = NGORegistration.Status reg
          ∧ NGORegistration.CNPJValid reg' = true
          ∧ NGORegistration.BlockchainRef reg'
            = NGORegistration.BlockchainRef reg
          ∧ NGORegistration.AdminComments reg'
            = NGORegistration.AdminComments reg
          ∧ same_submission reg reg'
          ∧ AdminService.ngos (admin w') = AdminService.ngos (admin w)
          ∧ AdminService.auditLogs (admin w')
            = AdminService.auditLogs (admin w) ++ [entry]
          ∧ AuditLog.Action entry = "documents_uploaded"
          ∧ AuditLog.AdminID entry = 0%N
          ∧ AuditLog.EntityID entry = registrationID
          ∧ AuditLog.NewState entry
            = "Documentos enviados para IPFS: "
              +:+ NGORegistration.DocumentsIPFS reg'
      else
        UploadNGODocuments registrationID fileContent w
        = Some ((NGORegistration.zero, Some err_upload_needs_valid_cnpj), w)
  end.
Proof.
  destruct (list_find _ _) as [[i reg]|] eqn:Hf.
  - destruct (NGORegistration.CNPJValid reg) eqn:Hv.
    + destruct (UploadNGODocuments_run w registrationID fileContent i reg
                  Hf Hv) as (h & Hlen & Hrun).
      cbv zeta in Hrun. eexists _, _, _. split; [exact Hrun|].
      split; [reflexivity|]. split.
      { cbn. apply verifyIPFSReference_Qm. lia. }
      split; [reflexivity|]. split; [exact Hv|].
      repeat split; reflexivity.
    + by apply (UploadNGODocuments_invalid w registrationID fileContent i reg).
  - by apply UploadNGODocuments_not_found.
Qed.

(** X11.  [RejectNGO], in full.  It fails only when no registration has
    the ID, and then changes nothing.  On a registration it finds it has
    no precondition: whatever the status, the flag or the documents, the
    record gets status Rejected and the reason as comments, and keeps its
    flag, its document and ledger references and its submission; the
    organizations are untouched, also the one minted from this
    registration; one audit entry by the actor records the move from the
    record's previous status to Rejected. *)
Theorem RejectNGO_contract (w : World) (registrationID adminID : N)
    (reason : string) :
  match list_find (λ r, NGORegistration.ID r = registrationID) (regs w) with
  | None =>
      RejectNGO registrationID adminID reason w
      = Some ((NGORegistration.zero, Some err_registration_not_found), w)
  | Some (i, reg) =>
      ∃ reg' entry w',
        RejectNGO registrationID adminID reason w = Some ((reg', None), w')
        ∧ regs w' = <[i := reg']> (regs w)
        ∧ NGORegistration.Status reg' = NGOStatusRejected
        ∧ NGORegistration.AdminComments reg' = reason
        ∧ NGORegistration.CNPJValid reg' = NGORegistration.CNPJValid reg
        ∧ NGORegistration.DocumentsIPFS reg'
          = NGORegistration.DocumentsIPFS reg
        ∧ NGORegistration.BlockchainRef reg'
          = NGORegistration.BlockchainRef reg
        ∧ same_submission reg reg'
        ∧ AdminService.ngos (admin w') = AdminService.ngos (admin w)
        ∧ donationService w' = donationService w
        ∧ AdminService.auditLogs (admin w')
          = AdminService.auditLogs (admin w) ++ [entry]
        ∧ AuditLog.Action entry = "ngo_rejected"
        ∧ AuditLog.AdminID entry = adminID
        ∧ AuditLog.EntityID entry = registrationID
        ∧ AuditLog.PreviousState entry = NGORegistration.Status reg
        ∧ AuditLog.NewState entry = NGOStatusRejected
  end.
Proof.
  destruct (list_find _ _) as [[i reg]|] eqn:Hf.
  - pose proof (RejectNGO_run w registrationID adminID reason i reg Hf) as Hrun.
    cbv zeta in Hrun. eexists _, _, _. split; [exact Hrun|].
    split; [reflexivity|]. repeat split; reflexivity.
  - by apply RejectNGO_not_found.
Qed.

Lemma found_after_update (w : World) (id : N) (i : nat)
    (reg reg' : NGORegistration.t) (l : list NGORegistration.t) :
  list_find (λ r, NGORegistration.ID r = id) (regs w) = Some (i, reg) →
  NGORegistration.ID reg' = id →
  l = <[i := reg']> (regs w) →
  list_find (λ r, NGORegistration.ID r = id) l = Some (i, reg').
Proof. intros Hf Hid ->. by apply (list_find_insert_keep _ _ _ reg). Qed.

(** X12.  The whole onboarding, in order.  In a reachable world, for a
    request whose tax ID is not in use and passes the validator, the four
    calls register, validate, upload and approve (on the ID the
    registration got) all succeed; they append to the audit trail exactly
    the four entries "ngo_registration_created", "cnpj_validated",
    "documents_uploaded", "ngo_approved", in this order; and the record
    ends Approved with the ledger reference of the new organization. *)
Theorem onboarding_in_order (w : World) (req : NGORegistrationRequest.t)
    (m : string) (fileContent : list ascii) (adminID : N) (comments : string) :
  reachable w →
  ¬ tax_id_in_use (NGORegistrationRequest.CNPJ req) w →
  validateCNPJFormat (NGORegistrationRequest.CNPJ req) = Some (true, m) →
  ∃ reg1 w1 reg2 w2 reg3 w3 ngo w4 reg4,
    RegisterNGO req w = Some ((reg1, None), w1)
    ∧ ValidateCNPJOnline (NGORegistration.ID reg1) w1 = Some ((reg2, None), w2)
    ∧ UploadNGODocuments (NGORegistration.ID reg1) fileContent w2
      = Some ((reg3, None), w3)
    ∧ ApproveNGO (NGORegistration.ID reg1) adminID comments w3
      = Some ((ngo, None), w4)
    ∧ AuditLog.Action <$> AdminService.auditLogs (admin w4)
      = (AuditLog.Action <$> AdminService.auditLogs (admin w))
        ++ ["ngo_registration_created"; "cnpj_validated";
            "documents_uploaded"; "ngo_approved"]
    ∧ regs w4 = regs w ++ [reg4]
    ∧ NGORegistration.Status reg4 = NGOStatusApproved
    ∧ NGORegistration.BlockchainRef reg4 = NGO.BlockchainRef ngo
    ∧ NGO.CNPJ ngo = NGORegistrationRequest.CNPJ req
    ∧ AdminService.ngos (admin w4) = AdminService.ngos (admin w) ++ [ngo].
Proof.
  intros Hreach Hfree Hvalid.
  pose proof (RegisterNGO_run w req Hfree) as H1.
  set (r1 := new_registration w req) in *.
  match type of H1 with _ = Some (_, ?x) => set (w1 := x) in * end.
  assert (Hreach1 : reachable w1).
  { eapply reachable_call; [exact Hreach|].
    exact (run_op_of _ _ _ _ _ H1 : run_op (OpRegister req) w = _). }
  assert (Hregs1 : regs w1 = regs w ++ [r1]) by reflexivity.
  assert (Hngos1 : AdminService.ngos (admin w1) = AdminService.ngos (admin w))
    by reflexivity.
  assert (Hlogs1 : AuditLog.Action <$> AdminService.auditLogs (admin w1)
                   = (AuditLog.Action <$> AdminService.auditLogs (admin w))
                     ++ ["ngo_registration_created"]).
  { unfold w1. world_norm. by rewrite fmap_app. }
  clearbody w1.
  set (i := length (regs w)).
  assert (Hf1 : list_find (λ r, NGORegistration.ID r = NGORegistration.ID r1)
                  (regs w1) = Some (i, r1)).
  { apply (proj2 (list_find_sequential NGORegistration.ID (regs w1) _ i r1
                      (wf_registration_ids _
                         (reachable_well_formed _ Hreach1)))).
    split; [|reflexivity]. rewrite Hregs1. by apply list_lookup_middle. }
  assert (Hv1 : NGORegistration.CNPJValid r1 = true).
  { cbn. rewrite validateCNPJFormat_eq_validate in Hvalid.
    injection Hvalid as Hvalid. by rewrite Hvalid. }
  pose proof (ValidateCNPJOnline_run w1 _ i r1 Hf1 Hv1) as H2.
  cbv zeta in H2.
  match type of H2 with _ = Some ((?r, _), ?x) =>
    set (w2 := x) in *; set (r2 := r) in * end.
  assert (Hregs2 : regs w2 = <[i := r2]> (regs w1)) by reflexivity.
  assert (Hngos2 : AdminService.ngos (admin w2) = AdminService.ngos (admin w1))
    by reflexivity.
  assert (Hlogs2 : AuditLog.Action <$> AdminService.auditLogs (admin w2)
                   = (AuditLog.Action <$> AdminService.auditLogs (admin w1))
                     ++ ["cnpj_validated"]).
  { unfold w2. world_norm. by rewrite fmap_app. }
  assert (Hf2 : list_find (λ r, NGORegistration.ID r = NGORegistration.ID r1)
                  (regs w2) = Some (i, r2)).
  { by apply (found_after_update w1 _ i r1). }
  clearbody w2.
  pose proof (UploadNGODocuments_run w2 _ fileContent i r2 Hf2 eq_refl)
    as (h & Hlen & H3).
  cbv zeta in H3.
  match type of H3 with _ = Some ((?r, _), ?x) =>
    set (w3 := x) in *; set (r3 := r) in * end.
  assert (Hregs3 : regs w3 = <[i := r3]> (regs w2)) by reflexivity.
  assert (Hngos3 : AdminService.ngos (admin w3) = AdminService.ngos (admin w2))
    by reflexivity.
  assert (Hlogs3 : AuditLog.Action <$> AdminService.auditLogs (admin w3)
                   = (AuditLog.Action <$> AdminService.auditLogs (admin w2))
                     ++ ["documents_uploaded"]).
  { unfold w3. world_norm. by rewrite fmap_app. }
  assert (Hf3 : list_find (λ r, NGORegistration.ID r = NGORegistration.ID r1)
                  (regs w3) = Some (i, r3)).
  { by apply (found_after_update w2 _ i r2). }
  clearbody w3.
  assert (Hd3 : NGORegistration.DocumentsIPFS r3 ≠ "") by discriminate.
  pose proof (ApproveNGO_run w3 _ adminID comments i r3 Hf3 eq_refl Hd3)
    as (ref & Href & H4).
  cbv zeta in H4.
  match type of H4 with _ = Some ((?n, _), ?x) =>
    set (w4 := x) in *; set (ngo := n) in * end.
  set (r4 := approved_registration ref comments (clock w3 (S (ticks w3))) r3).
  assert (Hregs4 : regs w4 = <[i := r4]> (regs w3)) by reflexivity.
  assert (Hngos4 : AdminService.ngos (admin w4)
                   = AdminService.ngos (admin w3) ++ [ngo]) by reflexivity.
  assert (Hlogs4 : AuditLog.Action <$> AdminService.auditLogs (admin w4)
                   = (AuditLog.Action <$> AdminService.auditLogs (admin w3))
                     ++ ["ngo_approved"]).
  { unfold w4. world_norm. by rewrite fmap_app. }
  clearbody w4.
  exists r1, w1, r2, w2, r3, w3, ngo, w4, r4.
  split; [exact H1|]. split; [exact H2|]. split; [exact H3|].
  split; [exact H4|]. split.
  { rewrite Hlogs4, Hlogs3, Hlogs2, Hlogs1, <- !app_assoc. reflexivity. }
  split.
  { rewrite Hregs4, Hregs3, Hregs2, Hregs1, !list_insert_insert_eq.
    unfold i. rewrite <- (Nat.add_0_r (length (regs w))).
    rewrite insert_app_r. reflexivity. }
  split; [reflexivity|]. split; [reflexivity|]. split; [reflexivity|].
  by rewrite Hngos4, Hngos3, Hngos2, Hngos1.
Qed.

Lemma onboarding_in_order_witness :
  ∃ w4,
    AuditLog.Action <$> AdminService.auditLogs (admin w4)
    = ["ngo_registration_created"; "cnpj_validated";
       "documents_uploaded"; "ngo_approved"]
    ∧ length (regs w4) = 1%nat.
Proof.
  assert (Hfree : ¬ tax_id_in_use (NGORegistrationRequest.CNPJ req_casa) world0).
  { intros [H|H]; inversion H. }
  destruct (onboarding_in_order world0 req_casa msg_valid [] 9 "ok"
              reachable_world0 Hfree eq_refl)
    as (r1 & w1 & r2 & w2 & r3 & w3 & ngo & w4 & r4 & _ & _ & _ & _
        & Hlog & Hregs & _).
  exists w4. split; [exact Hlog|]. by rewrite Hregs.
Defined.

(** X13.  Approval is not idempotent.  After a successful [ApproveNGO],
    a second [ApproveNGO] on the same registration succeeds again (its
    preconditions still hold, and the status is not looked at): it mints
    a second organization with the same tax ID and the next ID, and
    overwrites the ledger reference of the record with the new one. *)
Theorem approve_twice_mints_twice (w w1 : World) (id a1 a2 : N)
    (c1 c2 : string) (ngo1 : NGO.t) :
  ApproveNGO id a1 c1 w = Some ((ngo1, None), w1) →
  ∃ ngo2 w2 i reg2,
    ApproveNGO id a2 c2 w1 = Some ((ngo2, None), w2)
    ∧ AdminService.ngos (admin w2)
      = AdminService.ngos (admin w) ++ [ngo1; ngo2]
    ∧ NGO.CNPJ ngo2 = NGO.CNPJ ngo1
    ∧ NGO.ID ngo2 = (NGO.ID ngo1 + 1)%N
    ∧ regs w2 !! i = Some reg2
    ∧ NGORegistration.ID reg2 = id
    ∧ NGORegistration.BlockchainRef reg2 = NGO.BlockchainRef ngo2
    ∧ length (regs w2) = length (regs w).
Proof.
  intros H.
  destruct (list_find (λ r, NGORegistration.ID r = id) (regs w))
    as [[i reg]|] eqn:Hf.
  2:{ rewrite (ApproveNGO_not_found w id a1 c1 Hf) in H. done. }
  destruct (NGORegistration.CNPJValid reg) eqn:Hv.
  2:{ rewrite (ApproveNGO_invalid w id a1 c1 i reg Hf Hv) in H. done. }
  destruct (decide (NGORegistration.DocumentsIPFS reg = "")) as [Hd|Hd].
  { rewrite (ApproveNGO_no_documents w id a1 c1 i reg Hf Hv Hd) in H. done. }
  destruct (ApproveNGO_run w id a1 c1 i reg Hf Hv Hd) as (ref & Hok & Hrun).
  cbv zeta in Hrun. rewrite Hrun in H. injection H as <- <-.
  pose proof (proj1 (list_find_Some _ _ _ _) Hf) as (Hi & Hid & _).
  match type of Hrun with _ = Some ((_, _), ?x) => set (w1 := x) in * end.
  set (reg1 := approved_registration ref c1 (clock w (S (ticks w))) reg).
  assert (Hf1 : list_find (λ r, NGORegistration.ID r = id) (regs w1)
                = Some (i, reg1)).
  { by apply (found_after_update w id i reg). }
  destruct (ApproveNGO_run w1 id a2 c2 i reg1 Hf1 Hv Hd)
    as (ref2 & Hok2 & Hrun2).
  cbv zeta in Hrun2.
  eexists _, _, i, _. split; [exact Hrun2|]. split.
  { world_norm. unfold w1. world_norm. by rewrite <- app_assoc. }
  split; [reflexivity|]. split.
  { unfold minted_ngo. cbn [NGO.ID]. unfold w1. world_norm.
    rewrite length_app. cbn [length]. lia. }
  split.
  { pose proof (proj1 (list_find_Some _ _ _ _) Hf1) as (Hi1 & _).
    world_norm. apply list_lookup_insert_eq. by eapply lookup_lt_Some. }
  split; [exact Hid|]. split; [reflexivity|].
  world_norm. unfold w1. world_norm. by rewrite !length_insert.
Qed.

Lemma approve_twice_mints_twice_witness :
  ∃ w ngo1 ngo2 w2,
    ApproveNGO 1 9 "again" w = Some ((ngo2, None), w2)
    ∧ AdminService.ngos (admin w2) = [ngo1; ngo2]
    ∧ NGO.ID ngo2 = (NGO.ID ngo1 + 1)%N.
Proof.
  set (r := NGORegistration.mk 1 "Casa" "abrigo" "Saúde" "11222333000181"
              true msg_valid "casa@example.com" "555" "Rua 1" 7 "" "QmDocs" ""
              NGOStatusValidating "" 0 0).
  set (w := with_admin (set_ngoRegistrations [r] NewAdminService) world0).
  assert (Hf : list_find (λ x, NGORegistration.ID x = 1%N) (regs w)
               = Some (0%nat, r)) by reflexivity.
  assert (Hd : NGORegistration.DocumentsIPFS r ≠ "") by done.
  destruct (ApproveNGO_run w 1 9 "ok" 0 r Hf eq_refl Hd) as (ref & _ & Hrun).
  cbv zeta in Hrun.
  destruct (approve_twice_mints_twice w _ 1 9 9 "ok" "again" _ Hrun)
    as (ngo2 & w2 & i & reg2 & H2 & Hn & _ & Hid & _).
  eexists _, _, ngo2, w2. split; [exact H2|]. split; [exact Hn|]. exact Hid.
Defined.

(** ** The audit engine, in full *)

Lemma list_find_is_Some {A} (P : A → Prop) `{HP : !∀ x, Decision (P x)}
    (l : list A) :
  is_Some (list_find P l) ↔ ∃ x, x ∈ l ∧ P x.
Proof.
  split.
  - intros [[i x] Hf]. apply list_find_Some in Hf as (Hi & Hx & _).
    exists x. split; [by eapply list_elem_of_lookup_2 | done].
  - intros (x & Hx & HPx). destruct (list_find P l) as [p|] eqn:Hf; [done|].
    apply list_find_None in Hf.
    by destruct (proj1 (Forall_forall _ _) Hf x Hx).
Qed.

Lemma resolve_references_inl (req : AuditRequest.t) (w : World) :
  (∃ refs, resolve_references req w = inl refs) ↔ entity_exists req w.
Proof.
  unfold resolve_references, entity_exists.
  destruct (String.eqb_spec (AuditRequest.EntityType req) "ngo") as [Hn|Hn].
  { rewrite Hn. split.
    - intros [refs H].
      destruct (list_find _ _) as [[i ngo]|] eqn:Hf; [|done].
      left. split; [done|]. apply list_find_Some in Hf as (Hi & Hx & _).
      eexists. split; [by eapply list_elem_of_lookup_2 | done].
    - intros [[_ Hex]|[[? _]|[? _]]]; try done.
      apply (list_find_is_Some (λ ngo, NGO.ID ngo = AuditRequest.EntityID req))
        in Hex as [[i ngo] ->]. eauto. }
  destruct (String.eqb_spec (AuditRequest.EntityType req) "donation")
    as [Hd|Hd].
  { rewrite Hd. split.
    - intros [refs H].
      destruct (list_find _ (DonationService.donations _))
        as [[i d]|] eqn:Hf; [|done].
      right. left. split; [done|]. apply list_find_Some in Hf as (Hi & Hx & _).
      eexists. split; [by eapply list_elem_of_lookup_2 | done].
    - intros [[? _]|[[_ Hex]|[? _]]]; try done.
      apply (list_find_is_Some
               (λ d, Donation.ID d = AuditRequest.EntityID req))
        in Hex as [[i d] ->]. eauto. }
  destruct (String.eqb_spec (AuditRequest.EntityType req) "expense")
    as [He|He].
  { rewrite He. split.
    - intros [refs H].
      destruct (list_find _ _) as [[i x]|] eqn:Hf; [|done].
      right. right. split; [done|]. apply list_find_Some in Hf as (Hi & Hx & _).
      eexists. split; [by eapply list_elem_of_lookup_2 | done].
    - intros [[? _]|[[? _]|[_ Hex]]]; try done.
      apply (list_find_is_Some (λ x, Expense.ID x = AuditRequest.EntityID req))
        in Hex as [[i x] ->]. eauto. }
  split.
  - by intros [refs H].
  - intros [[? _]|[[? _]|[? _]]]; done.
Qed.

(** X14.  An audit only reads the entities.  [AuditEntity] always
    returns; it leaves the registrations, the organizations, the
    donations, the receipts and the expenses as they were; its result
    names the entity of the request and the clock reading of the call.
    Without error, the two flags of the result are the verdicts of the
    two checks on the references the result carries, the list of
    validation errors has one message for each flag that is false, and
    the one audit entry appended carries neither the flags nor the
    errors.  With an error, the result has both flags false, no
    reference and no validation error, and nothing is logged. *)
Theorem AuditEntity_reads_only (w : World) (req : AuditRequest.t)
    (adminID : N) :
  ∃ res e w',
    AuditEntity req adminID w = Some ((res, e), w')
    ∧ regs w' = regs w
    ∧ AdminService.ngos (admin w') = AdminService.ngos (admin w)
    ∧ AdminService.donations (admin w') = AdminService.donations (admin w)
    ∧ donationService w' = donationService w
    ∧ expenseService w' = expenseService w
    ∧ AuditResult.EntityType res = AuditRequest.EntityType req
    ∧ AuditResult.EntityID res = AuditRequest.EntityID req
    ∧ AuditResult.ValidationDate res = clock w (ticks w)
    ∧ match e with
      | None =>
          AuditResult.BlockchainValid res
          = verifyBlockchainReference (AuditResult.BlockchainRef res)
          ∧ AuditResult.IPFSValid res
            = verifyIPFSReference (AuditResult.IPFSRef res)
          ∧ AuditResult.ValidationErrors res
            = (if AuditResult.BlockchainValid res then []
               else [err_blockchain_invalid])
              ++ (if AuditResult.IPFSValid res then []
                  else [err_ipfs_invalid])
          ∧ ∃ entry,
              AdminService.auditLogs (admin w')
              = AdminService.auditLogs (admin w) ++ [entry]
              ∧ AuditLog.Action entry = "audit_performed"
              ∧ AuditLog.AdminID entry = adminID
              ∧ AuditLog.EntityType entry = AuditRequest.EntityType req
              ∧ AuditLog.EntityID entry = AuditRequest.EntityID req
              ∧ AuditLog.BlockchainValid entry = false
              ∧ AuditLog.IPFSValid entry = false
              ∧ AuditLog.ValidationErrors entry = []
      | Some _ =>
          AuditResult.BlockchainValid res = false
          ∧ AuditResult.IPFSValid res = false
          ∧ AuditResult.BlockchainRef res = ""
          ∧ AuditResult.IPFSRef res = ""
          ∧ AuditResult.ValidationErrors res = []
          ∧ AdminService.auditLogs (admin w')
            = AdminService.auditLogs (admin w)
      end.
Proof.
  destruct (resolve_references req w) as [[b i]|msg] eqn:Hr.
  - rewrite (AuditEntity_run w req adminID b i Hr).
    eexists _, None, _. split; [reflexivity|].
    repeat (split; [reflexivity|]).
    eexists. split; [reflexivity|]. by repeat split.
  - rewrite (AuditEntity_error w req adminID msg Hr).
    eexists _, (Some msg), _. split; [reflexivity|]. by repeat split.
Qed.

(** X15.  An audit fails exactly when the entity is missing.
    [AuditEntity] returns an error if and only if the request names no
    stored entity: a type other than "ngo", "donation" and "expense", or
    an ID that no entity of that type has.  Malformed references never
    make it fail: they are reported in the result. *)
Theorem AuditEntity_fails_iff_entity_missing (w : World)
    (req : AuditRequest.t) (adminID : N) :
  ∃ res e w',
    AuditEntity req adminID w = Some ((res, e), w')
    ∧ (e = None ↔ entity_exists req w)
    ∧ (¬ (AuditRequest.EntityType req = "ngo"
          ∨ AuditRequest.EntityType req = "donation"
          ∨ AuditRequest.EntityType req = "expense") →
       e = Some ("tipo de entidade desconhecido: "
                 +:+ AuditRequest.EntityType req)).
Proof.
  destruct (resolve_references req w) as [[b i]|msg] eqn:Hr.
  - rewrite (AuditEntity_run w req adminID b i Hr).
    eexists _, None, _. split; [reflexivity|].
    assert (Hex : entity_exists req w) by (apply resolve_references_inl; eauto).
    split; [done|]. intros Hn. exfalso. apply Hn.
    destruct Hex as [[? _]|[[? _]|[? _]]]; auto.
  - rewrite (AuditEntity_error w req adminID msg Hr).
    eexists _, (Some msg), _. split; [reflexivity|]. split.
    + split; [done|]. intros Hex. apply resolve_references_inl in Hex as [r H].
      congruence.
    + intros Hn. f_equal. unfold resolve_references in Hr.
      destruct (String.eqb_spec (AuditRequest.EntityType req) "ngo");
        [tauto|].
      destruct (String.eqb_spec (AuditRequest.EntityType req) "donation");
        [tauto|].
      destruct (String.eqb_spec (AuditRequest.EntityType req) "expense");
        [tauto|].
      congruence.
Qed.

(** X16.  A donation without a receipt fails the document check.  When
    the audited donation exists and no receipt names it, the audit
    returns without error, checks the transaction hash of the donation,
    and reports the document reference as empty and invalid. *)
Theorem audit_donation_without_receipt (w : World) (req : AuditRequest.t)
    (adminID : N) (i : nat) (d : Donation.t) :
  AuditRequest.EntityType req = "donation" →
  list_find (λ x, Donation.ID x = AuditRequest.EntityID req)
    (DonationService.donations (donationService w)) = Some (i, d) →
  Forall (λ r, DonationReceipt.DonationID r ≠ AuditRequest.EntityID req)
    (DonationService.receipts (donationService w)) →
  ∃ res w',
    AuditEntity req adminID w = Some ((res, None), w')
    ∧ AuditResult.BlockchainRef res = Donation.TransactionHash d
    ∧ AuditResult.BlockchainValid res
      = verifyBlockchainReference (Donation.TransactionHash d)
    ∧ AuditResult.IPFSRef res = ""
    ∧ AuditResult.IPFSValid res = false
    ∧ err_ipfs_invalid ∈ AuditResult.ValidationErrors res.
Proof.
  intros Ht Hf Hnone.
  assert (Hr : resolve_references req w
               = inl (Donation.TransactionHash d, "")).
  { unfold resolve_references. rewrite Ht.
    change (String.eqb "donation" "ngo") with false.
    change (String.eqb "donation" "donation") with true.
    cbv iota. rewrite Hf.
    by rewrite (proj2 (list_find_None _ _) Hnone). }
  rewrite (AuditEntity_run w req adminID _ _ Hr).
  eexists _, _. split; [reflexivity|].
  repeat (split; [reflexivity|]).
  unfold audit_result, validation_errors. cbn [AuditResult.ValidationErrors].
  apply elem_of_app. right. change (verifyIPFSReference "") with false.
  by apply list_elem_of_singleton.
Qed.

Lemma audit_donation_without_receipt_witness :
  ∃ res w',
    AuditEntity (AuditRequest.mk "donation" 1) 9 world_one_donation
    = Some ((res, None), w')
    ∧ AuditResult.IPFSValid res = false
    ∧ AuditResult.BlockchainValid res = false.
Proof.
  destruct (audit_donation_without_receipt world_one_donation
              (AuditRequest.mk "donation" 1) 9 0
              (Donation.mk 1 2 3 0 "confirmed" "0xabc")
              eq_refl eq_refl (Forall_nil_2 _))
    as (res & w' & Hrun & _ & Hb & _ & Hi & _).
  exists res, w'. split; [exact Hrun|]. split; [exact Hi|].
  rewrite Hb. reflexivity.
Defined.

(** ** The readings of the audit trail *)

Lemma GetAuditLogsByEntityType_filter (s : AdminService.t)
    (entityType : string) :
  GetAuditLogsByEntityType s entityType
  = filter (λ log, AuditLog.EntityType log = entityType)
      (AdminService.auditLogs s).
Proof.
  unfold GetAuditLogsByEntityType. rewrite range_append_filter. simpl.
  apply list_filter_iff. intros log. apply String.eqb_eq.
Qed.

Lemma GetAuditLogsByEntityID_filter (s : AdminService.t)
    (entityType : string) (entityID : N) :
  GetAuditLogsByEntityID s entityType entityID
  = filter (λ log, AuditLog.EntityType log = entityType
                   ∧ AuditLog.EntityID log = entityID)
      (AdminService.auditLogs s).
Proof.
  unfold GetAuditLogsByEntityID. rewrite range_append_filter. simpl.
  apply list_filter_iff. intros log.
  rewrite andb_true_iff, String.eqb_eq, N.eqb_eq. done.
Qed.

(** X17.  The two filtered readings of the audit trail.
    [GetAuditLogsByEntityType] returns the entries of that entity type,
    in the order of the trail; [GetAuditLogsByEntityID] returns, among
    those, the entries of that entity ID; both are sublists of what
    [GetAuditLogs] returns, and an entry is in the result exactly when it
    is in the trail and matches. *)
Theorem audit_log_queries (s : AdminService.t) (entityType : string)
    (entityID : N) :
  GetAuditLogsByEntityType s entityType
  = filter (λ log, AuditLog.EntityType log = entityType) (GetAuditLogs s)
  ∧ GetAuditLogsByEntityID s entityType entityID
    = filter (λ log, AuditLog.EntityID log = entityID)
        (GetAuditLogsByEntityType s entityType)
  ∧ GetAuditLogsByEntityID s entityType entityID
    `sublist_of` GetAuditLogsByEntityType s entityType
  ∧ GetAuditLogsByEntityType s entityType `sublist_of` GetAuditLogs s
  ∧ ∀ log, log ∈ GetAuditLogsByEntityID s entityType entityID
           ↔ log ∈ GetAuditLogs s
             ∧ AuditLog.EntityType log = entityType
             ∧ AuditLog.EntityID log = entityID.
Proof.
  assert (H2 : GetAuditLogsByEntityID s entityType entityID
               = filter (λ log, AuditLog.EntityID log = entityID)
                   (GetAuditLogsByEntityType s entityType)).
  { rewrite GetAuditLogsByEntityID_filter, GetAuditLogsByEntityType_filter.
    rewrite list_filter_filter. apply list_filter_iff. tauto. }
  split; [apply GetAuditLogsByEntityType_filter|]. split; [exact H2|].
  split; [rewrite H2; apply sublist_filter|].
  split; [rewrite GetAuditLogsByEntityType_filter; apply sublist_filter|].
  intros log. rewrite GetAuditLogsByEntityID_filter, list_elem_of_filter.
  unfold GetAuditLogs. tauto.
Qed.

(** X18.  An approval is logged under the organization, not under the
    registration.  After a successful [ApproveNGO] the entries that
    [GetAuditLogsByEntityID] returns for the registration are the ones it
    returned before; the new entry is returned for entity type "ngo" and
    the ID of the new organization, and its previous state is Validating
    whatever the status of the registration was. *)
Theorem approval_logged_under_organization (w w' : World)
    (registrationID adminID : N) (comments : string) (ngo : NGO.t) :
  ApproveNGO registrationID adminID comments w = Some ((ngo, None), w') →
  GetAuditLogsByEntityID (admin w') "ngo_registration" registrationID
  = GetAuditLogsByEntityID (admin w) "ngo_registration" registrationID
  ∧ GetAuditLogsByEntityType (admin w') "ngo_registration"
    = GetAuditLogsByEntityType (admin w) "ngo_registration"
  ∧ ∃ entry,
      GetAuditLogsByEntityID (admin w') "ngo" (NGO.ID ngo)
      = GetAuditLogsByEntityID (admin w) "ngo" (NGO.ID ngo) ++ [entry]
      ∧ AuditLog.Action entry = "ngo_approved"
      ∧ AuditLog.PreviousState entry = NGOStatusValidating
      ∧ NGO.ID ngo = N.of_nat (length (AdminService.ngos (admin w)) + 1).
Proof.
  intros H.
  destruct (list_find (λ r, NGORegistration.ID r = registrationID) (regs w))
    as [[i reg]|] eqn:Hf.
  2:{ rewrite (ApproveNGO_not_found w _ adminID comments Hf) in H. done. }
  destruct (NGORegistration.CNPJValid reg) eqn:Hv.
  2:{ rewrite (ApproveNGO_invalid w _ adminID comments i reg Hf Hv) in H.
      done. }
  destruct (decide (NGORegistration.DocumentsIPFS reg = "")) as [Hd|Hd].
  { rewrite (ApproveNGO_no_documents w _ adminID comments i reg Hf Hv Hd) in H.
    done. }
  destruct (ApproveNGO_run w registrationID adminID comments i reg Hf Hv Hd)
    as (ref & Hok & Hrun).
  cbv zeta in Hrun. rewrite Hrun in H. injection H as <- <-.
  rewrite !GetAuditLogsByEntityID_filter, !GetAuditLogsByEntityType_filter.
  world_norm. rewrite !filter_app.
  split.
  { rewrite filter_cons_False, filter_nil, app_nil_r; [done|].
    unfold audit_log. cbn [AuditLog.EntityType]. by intros [? _]. }
  split.
  { rewrite filter_cons_False, filter_nil, app_nil_r; [done|].
    unfold audit_log. by cbn [AuditLog.EntityType]. }
  eexists. split.
  { rewrite filter_cons_True, filter_nil; [reflexivity|].
    unfold audit_log, minted_ngo. by cbn [AuditLog.EntityType AuditLog.EntityID NGO.ID]. }
  by repeat split.
Qed.

Lemma approval_logged_under_organization_witness :
  ∃ w w' ngo,
    ApproveNGO 1 9 "ok" w = Some ((ngo, None), w')
    ∧ GetAuditLogsByEntityID (admin w') "ngo_registration" 1
      = GetAuditLogsByEntityID (admin w) "ngo_registration" 1.
Proof.
  set (r := NGORegistration.mk 1 "Casa" "abrigo" "Saúde" "11222333000181"
              true msg_valid "casa@example.com" "555" "Rua 1" 7 "" "QmDocs" ""
              NGOStatusValidating "" 0 0).
  set (w := with_admin (set_ngoRegistrations [r] NewAdminService) world0).
  assert (Hf : list_find (λ x, NGORegistration.ID x = 1%N) (regs w)
               = Some (0%nat, r)) by reflexivity.
  assert (Hd : NGORegistration.DocumentsIPFS r ≠ "") by done.
  destruct (ApproveNGO_run w 1 9 "ok" 0 r Hf eq_refl Hd) as (ref & _ & Hrun).
  cbv zeta in Hrun.
  eexists w, _, _. split; [exact Hrun|].
  exact (proj1 (approval_logged_under_organization w _ 1 9 "ok" _ Hrun)).
Defined.

(** ** What no call touches *)

Lemma same_submission_refl (reg : NGORegistration.t) : same_submission reg reg.
Proof. by repeat split. Qed.

Lemma same_submission_update (l : list NGORegistration.t) (i j : nat)
    (reg reg' x : NGORegistration.t) :
  l !! i = Some reg → same_submission reg reg' →
  l !! j = Some x →
  ∃ x', <[i := reg']> l !! j = Some x' ∧ same_submission x x'.
Proof.
  intros Hi Hs Hj. destruct (decide (i = j)) as [->|Hne].
  - exists reg'. split.
    + apply list_lookup_insert_eq. by eapply lookup_lt_Some.
    + rewrite Hi in Hj. by injection Hj as <-.
  - exists x. split; [by rewrite list_lookup_insert_ne|].
    apply same_submission_refl.
Qed.

(** X19.  No call deletes or rewrites what was submitted.  Whatever a
    call of the service does, every registration stays at its position
    with the fields of its submission; the organizations already there
    stay, and what is appended to those of the administration service is
    appended to those of the donation service as well, at most one a
    call; the donations, the receipts and the expenses are not touched;
    the clock only moves forward. *)
Theorem nothing_is_deleted (op : Op) (w w' : World) (e : error) :
  run_op op w = Some (e, w') →
  (∀ i reg, regs w !! i = Some reg →
            ∃ reg', regs w' !! i = Some reg' ∧ same_submission reg reg')
  ∧ (∃ new, AdminService.ngos (admin w') = AdminService.ngos (admin w) ++ new
            ∧ DonationService.ngos (donationService w')
              = DonationService.ngos (donationService w) ++ new
            ∧ (length new ≤ 1)%nat)
  ∧ AdminService.donations (admin w') = AdminService.donations (admin w)
  ∧ DonationService.donations (donationService w')
    = DonationService.donations (donationService w)
  ∧ DonationService.receipts (donationService w')
    = DonationService.receipts (donationService w)
  ∧ expenseService w' = expenseService w
  ∧ clock w' = clock w ∧ prng w' = prng w ∧ (ticks w ≤ ticks w')%nat.
Proof.
  intros H. apply run_op_outcome in H.
  assert (Hkeep : ∀ i reg, regs w !! i = Some reg →
            ∃ reg', regs w !! i = Some reg' ∧ same_submission reg reg').
  { intros i reg Hi. exists reg. split; [done | apply same_submission_refl]. }
  assert (Hnone : ∃ new : list NGO.t,
             AdminService.ngos (admin w) = AdminService.ngos (admin w) ++ new
             ∧ DonationService.ngos (donationService w)
               = DonationService.ngos (donationService w) ++ new
             ∧ (length new ≤ 1)%nat).
  { exists []. rewrite !app_nil_r. simpl. split; [done|]. split; [done|]. lia. }
  destruct H as [req e Hdup He | req Hfree
               | id Hf | id i reg Hf Hv | id i reg Hf Hv
               | id f Hf | id f i reg Hf Hv | id f i reg h Hf Hv Hh
               | id a c Hf | id a c i reg Hf Hv | id a c i reg Hf Hv Hd
               | id a c i reg ref Hf Hv Hd Hok
               | id a c Hf | id a c i reg Hf
               | req a msg Hr | req a b r Hr];
    try (by repeat (split; [done|]));
    try (apply list_find_Some in Hf as (Hi & _ & _));
    world_norm.
  - split.
    { intros i reg Hi. exists reg.
      split; [by apply lookup_app_l_Some | apply same_submission_refl]. }
    split; [exact Hnone|]. repeat (split; [done|]). lia.
  - split.
    { intros j x Hj.
      by apply (same_submission_update _ i j reg _ x Hi). }
    split; [exact Hnone|]. repeat (split; [done|]). lia.
  - split.
    { intros j x Hj.
      by apply (same_submission_update _ i j reg _ x Hi). }
    split; [exact Hnone|]. repeat (split; [done|]). lia.
  - split.
    { intros j x Hj.
      by apply (same_submission_update _ i j reg _ x Hi). }
    split.
    { eexists [_]. split; [reflexivity|]. split; [reflexivity|]. simpl. lia. }
    repeat (split; [done|]). lia.
  - split.
    { intros j x Hj.
      by apply (same_submission_update _ i j reg _ x Hi). }
    split; [exact Hnone|]. repeat (split; [done|]). lia.
  - split; [exact Hkeep|]. split; [exact Hnone|]. repeat (split; [done|]). lia.
  - split; [exact Hkeep|]. split; [exact Hnone|]. repeat (split; [done|]). lia.
Qed.

Lemma nothing_is_deleted_witness :
  ∃ w reg w' reg',
    regs w !! 0%nat = Some reg
    ∧ run_op (OpReject 1 9 "no") w = Some (None, w')
    ∧ regs w' !! 0%nat = Some reg'
    ∧ same_submission reg reg'.
Proof.
  destruct approved_run as (w & reg & ngo & Hreach & Hf & _).
  pose proof (RejectNGO_run w 1 9 "no" 0 reg Hf) as Hrun. cbv zeta in Hrun.
  pose proof (run_op_of _ _ _ _ _ Hrun) as Hop.
  pose proof (proj1 (list_find_Some _ _ _ _) Hf) as (Hi & _).
  destruct (proj1 (nothing_is_deleted (OpReject 1 9 "no") _ _ _ Hop)
              0%nat reg Hi)
    as (reg' & Hi' & Hs).
  eexists w, reg, _, reg'. done.
Defined.

(** ** The rate limiter over a run *)

Lemma serve_cons (rl : RateLimiter.t) (ip : string) (now : Z)
    (rest : list (string * Z)) :
  serve rl ((ip, now) :: rest)
  = ((serve (RateLimit rl now (gin.request ip)).1 rest).1,
     (RateLimit rl now (gin.request ip)).2
     :: (serve (RateLimit rl now (gin.request ip)).1 rest).2).
Proof. reflexivity. Qed.

Lemma requests_of_ipLimits (rl rl' : RateLimiter.t) (ip : string) :
  RateLimiter.ipLimits rl' !! ip = RateLimiter.ipLimits rl !! ip →
  requests_of rl' ip = requests_of rl ip.
Proof. unfold requests_of. by intros ->. Qed.

Lemma admitted_in_calls (ip : string) (calls : list (string * Z))
    (cs : list gin.Context) (t : Z) :
  t ∈ admitted ip calls cs → ∃ p, p ∈ calls ∧ p.2 = t.
Proof.
  unfold admitted. intros H.
  apply list_elem_of_fmap in H as ([[ip' u] c] & -> & H).
  apply list_elem_of_filter in H as [_ H]. apply elem_of_zip_l in H.
  by exists (ip', u).
Qed.

Lemma admitted_later (ip : string) (calls : list (string * Z))
    (cs : list gin.Context) (now lo hi : Z) :
  Forall (λ p, now ≤ p.2) calls → hi < now →
  filter (λ t, lo < t ≤ hi) (admitted ip calls cs) = [].
Proof.
  intros Hall Hlt. apply filter_none. apply Forall_forall. intros t Ht.
  apply admitted_in_calls in Ht as (p & Hp & <-).
  pose proof (proj1 (Forall_forall _ _) Hall p Hp) as Hle. simpl in Hle. lia.
Qed.

(** The state after one call, read off [RateLimit_admission]. *)
Lemma RateLimit_step (rl : RateLimiter.t) (ip : string) (now : Z) :
  RateLimiter.enabled rl = true →
  let r := RateLimit rl now (gin.request ip) in
  let kept := filter (λ t, ¬ t ≤ now - RateLimiter.windowLength rl)
                (requests_of rl ip) in
  RateLimiter.maxRequests r.1 = RateLimiter.maxRequests rl
  ∧ RateLimiter.windowLength r.1 = RateLimiter.windowLength rl
  ∧ RateLimiter.enabled r.1 = true
  ∧ gin.ClientIP r.2 = ip
  ∧ (∀ ip', ip' ≠ ip → requests_of r.1 ip' = requests_of rl ip')
  ∧ (RateLimiter.maxRequests rl ≤ Z.of_nat (length kept)
     ∧ gin.NextCalled r.2 = false
     ∧ gin.Aborted r.2 = Some (StatusTooManyRequests, err_rate_limited)
     ∧ requests_of r.1 ip = kept
     ∨ Z.of_nat (length kept) < RateLimiter.maxRequests rl
       ∧ gin.NextCalled r.2 = true
       ∧ gin.Aborted r.2 = None
       ∧ requests_of r.1 ip = kept ++ [now]).
Proof.
  intros Hen r kept.
  assert (Hother : ∀ (m : gmap string (list Z)) l ip',
            ip' ≠ ip →
            requests_of (RateLimiter.set_ipLimits (<[ip := l]> m) rl) ip'
            = default [] (m !! ip')).
  { intros m l ip' Hne. unfold requests_of. cbn [RateLimiter.ipLimits
      RateLimiter.set_ipLimits]. by rewrite lookup_insert_ne. }
  assert (Hself : ∀ (m : gmap string (list Z)) l,
            requests_of (RateLimiter.set_ipLimits (<[ip := l]> m) rl) ip = l).
  { intros m l. unfold requests_of. cbn [RateLimiter.ipLimits
      RateLimiter.set_ipLimits]. by rewrite lookup_insert_eq. }
  assert (Hkept : retained rl ip now = kept) by apply retained_spec.
  destruct (decide (RateLimiter.maxRequests rl ≤ Z.of_nat (length kept)))
    as [Hfull|Hroom].
  - pose proof (RateLimit_reject rl ip now Hen) as Hr.
    rewrite Hkept in Hr. specialize (Hr Hfull). fold r in Hr. rewrite Hr.
    cbn [fst snd]. repeat (split; [done|]). split.
    { intros ip' Hne. by rewrite Hother. }
    left. by rewrite Hself.
  - pose proof (RateLimit_accept rl ip now Hen) as Hr.
    rewrite Hkept in Hr. specialize (Hr ltac:(lia)). fold r in Hr. rewrite Hr.
    cbn [fst snd]. repeat (split; [done|]). split.
    { intros ip' Hne. by rewrite Hother. }
    right. rewrite Hself. split; [lia | done].
Qed.

Lemma window_count (ip : string) (calls : list (string * Z))
    (rl : RateLimiter.t) (T : Z) :
  RateLimiter.enabled rl = true →
  chronological calls →
  Z.of_nat (length (requests_of rl ip)) ≤ RateLimiter.maxRequests rl →
  Z.of_nat (length (filter (λ t, T - RateLimiter.windowLength rl < t ≤ T)
                      (requests_of rl ip)))
  + Z.of_nat (length (filter (λ t, T - RateLimiter.windowLength rl < t ≤ T)
                        (admitted ip calls (serve rl calls).2)))
  ≤ RateLimiter.maxRequests rl.
Proof.
  revert rl. induction calls as [|[ip' now] rest IH]; intros rl Hen Hchr Hlen.
  { unfold admitted. simpl.
    pose proof (length_filter
                  (λ t, T - RateLimiter.windowLength rl < t ≤ T)
                  (requests_of rl ip)). lia. }
  destruct Hchr as [Hlater Hchr].
  rewrite serve_cons. cbn [snd].
  destruct (RateLimit_step rl ip' now Hen)
    as (HN & HW & Hen' & Hip & Hother & Hself).
  set (r := RateLimit rl now (gin.request ip')) in *.
  specialize (IH r.1 Hen' Hchr). rewrite HN, HW in IH.
  set (W := RateLimiter.windowLength rl) in *.
  set (N := RateLimiter.maxRequests rl) in *.
  set (win := λ t : Z, T - W < t ≤ T) in *.
  pose proof (length_filter win (requests_of rl ip)) as Hle.
  unfold admitted. cbn [zip zip_with].
  destruct (decide (ip' = ip)) as [->|Hne].
  2:{ rewrite filter_cons_False by (cbn; tauto).
      fold (admitted ip rest (serve r.1 rest).2).
      rewrite (Hother ip) in IH by done. by apply IH. }
  set (kept := filter (λ t, ¬ t ≤ now - W) (requests_of rl ip)) in *.
  pose proof (length_filter (λ t, ¬ t ≤ now - W) (requests_of rl ip))
    as Hkept. fold kept in Hkept.
  assert (Hsame : now ≤ T → filter win kept = filter win (requests_of rl ip)).
  { intros HT. apply list_filter_filter_l. unfold win. intros t. lia. }
  assert (Hlate : ¬ now ≤ T →
            filter win (admitted ip rest (serve r.1 rest).2) = []).
  { intros HT. apply (admitted_later ip rest _ now); [done | lia]. }
  destruct Hself as [(Hfull & Hnext & _ & Hreq)|(Hroom & Hnext & _ & Hreq)].
  - rewrite filter_cons_False by (cbn; rewrite Hnext; by intros [_ ?]).
    fold (admitted ip rest (serve r.1 rest).2).
    rewrite Hreq in IH. specialize (IH ltac:(lia)).
    destruct (decide (now ≤ T)) as [HT|HT].
    + by rewrite <- (Hsame HT).
    + rewrite (Hlate HT). simpl. lia.
  - rewrite filter_cons_True by (cbn; by rewrite Hnext).
    fold (admitted ip rest (serve r.1 rest).2).
    rewrite Hreq in IH. rewrite length_app in IH. cbn [length] in IH.
    specialize (IH ltac:(lia)). rewrite filter_app, length_app in IH.
    rewrite fmap_cons. cbn [fst snd].
    fold (admitted ip rest (serve r.1 rest).2).
    destruct (decide (now ≤ T)) as [HT|HT].
    + rewrite (Hsame HT) in IH.
      destruct (decide (win now)) as [Hin|Hout].
      * rewrite filter_cons_True by done.
        rewrite (filter_cons_True win now []) in IH by done.
        cbn [length] in *. rewrite filter_nil in IH. cbn [length] in IH. lia.
      * rewrite filter_cons_False by done. lia.
    + rewrite filter_cons_False by (unfold win; lia).
      rewrite (Hlate HT). simpl. lia.
Qed.

(** X20.  The limit holds over every window.  In a run of a new limiter
    with a limit that is not negative, on calls that arrive in the order
    of their instants, the calls of one caller that are let through with
    an instant in a window [(T - W, T]] are at most [N], whatever [T] and
    whatever the other callers do. *)
Theorem at_most_N_per_window (N W : Z) (calls : list (string * Z))
    (ip : string) (T : Z) :
  0 ≤ N →
  chronological calls →
  Z.of_nat (length (filter (λ t, T - W < t ≤ T)
                      (admitted ip calls
                         (serve (NewRateLimiter N W) calls).2)))
  ≤ N.
Proof.
  intros HN Hchr.
  pose proof (window_count ip calls (NewRateLimiter N W) T eq_refl Hchr) as H.
  cbn [NewRateLimiter RateLimiter.maxRequests RateLimiter.windowLength] in H.
  unfold requests_of in H at 1 2. cbn [NewRateLimiter RateLimiter.ipLimits] in H.
  rewrite lookup_empty in H. simpl in H. specialize (H HN). lia.
Qed.

Lemma at_most_N_per_window_witness :
  Z.of_nat (length (filter (λ t, 30 - 60 < t ≤ 30)
                      (admitted "10.0.0.1"
                         [("10.0.0.1", 0); ("10.0.0.2", 5); ("10.0.0.1", 10);
                          ("10.0.0.1", 20); ("10.0.0.1", 30)]
                         (serve (NewRateLimiter 3 60)
                            [("10.0.0.1", 0); ("10.0.0.2", 5);
                             ("10.0.0.1", 10); ("10.0.0.1", 20);
                             ("10.0.0.1", 30)]).2)))
  ≤ 3.
Proof.
  apply at_most_N_per_window; [lia|].
  simpl. repeat split; repeat constructor; simpl; lia.
Defined.

Lemma GetLimits_lookup (rl : RateLimiter.t) (ip : string) :
  GetLimits rl !! ip
  = (λ requests, Z.of_nat (length requests)) <$> RateLimiter.ipLimits rl !! ip.
Proof.
  unfold GetLimits.
  apply (map_fold_weak_ind
           (λ (limits : gmap string Z) (m : gmap string (list Z)),
              limits !! ip = (λ requests, Z.of_nat (length requests))
                             <$> m !! ip)).
  - by rewrite !lookup_empty.
  - intros ip' requests m limits _ IH.
    destruct (decide (ip' = ip)) as [->|Hne].
    + by rewrite !lookup_insert_eq.
    + by rewrite !lookup_insert_ne.
Qed.

(** The callers a limiter has a record of are those of the calls, and
    no record is longer than the limit. *)
Lemma serve_records (calls : list (string * Z)) (rl : RateLimiter.t)
    (ip : string) :
  RateLimiter.enabled rl = true →
  0 ≤ RateLimiter.maxRequests rl →
  (∀ l, RateLimiter.ipLimits rl !! ip = Some l →
        Z.of_nat (length l) ≤ RateLimiter.maxRequests rl) →
  let rl' := (serve rl calls).1 in
  (is_Some (RateLimiter.ipLimits rl' !! ip)
   ↔ is_Some (RateLimiter.ipLimits rl !! ip) ∨ ip ∈ calls.*1)
  ∧ ∀ l, RateLimiter.ipLimits rl' !! ip = Some l →
         Z.of_nat (length l) ≤ RateLimiter.maxRequests rl.
Proof.
  revert rl. induction calls as [|[ip' now] rest IH]; intros rl Hen HN Hlen.
  { simpl. split; [|done]. split; [by left|]. intros [H|H]; [done|].
    by apply elem_of_nil in H. }
  rewrite serve_cons. cbn [fst].
  destruct (RateLimit_admission rl ip' now Hen) as (Hm & HN' & HW' & Hen' & _).
  cbv zeta in Hm.
  set (r := RateLimit rl now (gin.request ip')) in *.
  set (d := RateLimiterSpec.admission (RateLimiter.maxRequests rl)
              (RateLimiter.windowLength rl) (requests_of rl ip') now) in *.
  specialize (IH r.1 Hen'). rewrite HN' in IH. specialize (IH HN).
  rewrite Hm in IH.
  destruct (decide (ip' = ip)) as [->|Hne].
  - rewrite lookup_insert_eq in IH.
    assert (Hd : Z.of_nat (length d.2) ≤ RateLimiter.maxRequests rl).
    { unfold d, RateLimiterSpec.admission.
      pose proof (length_filter
                    (λ t, ¬ t ≤ now - RateLimiter.windowLength rl)
                    (requests_of rl ip)) as Hle.
      case_bool_decide as Hfull; cbn [snd].
      - assert (Z.of_nat (length (requests_of rl ip))
                ≤ RateLimiter.maxRequests rl); [|lia].
        unfold requests_of.
        destruct (RateLimiter.ipLimits rl !! ip) as [l|] eqn:Hl; simpl; [|lia].
        by apply Hlen.
      - rewrite length_app. simpl. lia. }
    destruct IH as [IHdom IHlen]. { intros l [= <-]. exact Hd. }
    split; [|exact IHlen]. rewrite IHdom. cbn [fmap list_fmap fst].
    split; [intros _; right; apply elem_of_cons; by left|]. intros _. by left.
  - rewrite lookup_insert_ne in IH by done.
    destruct IH as [IHdom IHlen]; [exact Hlen|].
    split; [|exact IHlen]. rewrite IHdom. cbn [fmap list_fmap fst].
    rewrite elem_of_cons. split; [tauto|].
    intros [?|[?|?]]; [tauto | congruence | tauto].
Qed.

(** X21.  What [GetLimits] reports after a run.  After any calls on a
    new limiter with a limit that is not negative, [GetLimits] has an
    entry exactly for the callers of the calls; the entry is the number
    of instants recorded for the caller, rejected calls not counted, and
    it lies between zero and the limit. *)
Theorem GetLimits_after_serve (N W : Z) (calls : list (string * Z))
    (ip : string) :
  0 ≤ N →
  let rl := (serve (NewRateLimiter N W) calls).1 in
  match GetLimits rl !! ip with
  | Some k =>
      ip ∈ calls.*1 ∧ k = Z.of_nat (length (requests_of rl ip)) ∧ 0 ≤ k ≤ N
  | None => ip ∉ calls.*1
  end.
Proof.
  intros HN rl.
  destruct (serve_records calls (NewRateLimiter N W) ip eq_refl HN)
    as [Hdom Hlen].
  { intros l H. cbn [NewRateLimiter RateLimiter.ipLimits] in H.
    by rewrite lookup_empty in H. }
  fold rl in Hdom, Hlen.
  cbn [NewRateLimiter RateLimiter.ipLimits RateLimiter.maxRequests]
    in Hdom, Hlen.
  rewrite lookup_empty in Hdom.
  rewrite GetLimits_lookup. unfold requests_of.
  destruct (RateLimiter.ipLimits rl !! ip) as [l|] eqn:Hl; simpl.
  - split.
    + destruct (proj1 Hdom) as [H|H]; [done | by destruct H | done].
    + split; [done|]. specialize (Hlen l eq_refl). lia.
  - intros Hin. destruct (proj2 Hdom (or_intror Hin)) as [l H]. done.
Qed.

Lemma GetLimits_after_serve_witness :
  match GetLimits (serve (NewRateLimiter 3 60)
                     [("10.0.0.1", 0); ("10.0.0.2", 5)]).1 !! "10.0.0.1" with
  | Some k => 0 ≤ k ≤ 3
  | None => False
  end.
Proof.
  pose proof (GetLimits_after_serve 3 60
                [("10.0.0.1", 0); ("10.0.0.2", 5)] "10.0.0.1"
                ltac:(lia)) as H.
  cbv zeta in H.
  destruct (GetLimits _ !! "10.0.0.1") as [k|].
  - by destruct H as (_ & _ & H).
  - apply H. simpl. apply elem_of_cons. by left.
Defined.

(** What a call does to the record of its caller and to its context
    depends on the limiter only through the limit, the window, the switch
    and the record of that caller. *)
Lemma RateLimit_own_record (rl1 rl2 : RateLimiter.t) (ip : string) (now : Z) :
  RateLimiter.maxRequests rl1 = RateLimiter.maxRequests rl2 →
  RateLimiter.windowLength rl1 = RateLimiter.windowLength rl2 →
  RateLimiter.enabled rl1 = RateLimiter.enabled rl2 →
  requests_of rl1 ip = requests_of rl2 ip →
  let r1 := RateLimit rl1 now (gin.request ip) in
  let r2 := RateLimit rl2 now (gin.request ip) in
  r1.2 = r2.2
  ∧ RateLimiter.maxRequests r1.1 = RateLimiter.maxRequests r2.1
  ∧ RateLimiter.windowLength r1.1 = RateLimiter.windowLength r2.1
  ∧ RateLimiter.enabled r1.1 = RateLimiter.enabled r2.1
  ∧ requests_of r1.1 ip = requests_of r2.1 ip.
Proof.
  intros HN HW Hen Hreq r1 r2. subst r1 r2.
  destruct (RateLimiter.enabled rl2) eqn:Hen2.
  2:{ unfold RateLimit. rewrite Hen, Hen2. cbn [negb fst snd].
      repeat split; congruence. }
  assert (Hk : retained rl1 ip now = retained rl2 ip now).
  { unfold retained. by rewrite HW, Hreq. }
  destruct (decide (RateLimiter.maxRequests rl2
                    ≤ Z.of_nat (length (retained rl2 ip now)))) as [Hfull|Hroom].
  - rewrite (RateLimit_reject rl2 ip now Hen2 Hfull).
    rewrite (RateLimit_reject rl1 ip now Hen) by (by rewrite HN, Hk).
    cbn [fst snd]. rewrite HN, Hk.
    unfold requests_of, RateLimiter.set_ipLimits.
    cbn [RateLimiter.ipLimits RateLimiter.maxRequests
         RateLimiter.windowLength RateLimiter.enabled].
    rewrite !lookup_insert_eq. repeat split; congruence.
  - rewrite (RateLimit_accept rl2 ip now Hen2) by lia.
    rewrite (RateLimit_accept rl1 ip now Hen) by (rewrite HN, Hk; lia).
    cbn [fst snd]. rewrite HN, Hk.
    unfold requests_of, RateLimiter.set_ipLimits.
    cbn [RateLimiter.ipLimits RateLimiter.maxRequests
         RateLimiter.windowLength RateLimiter.enabled].
    rewrite !lookup_insert_eq. repeat split; congruence.
Qed.

Lemma RateLimit_other_record (rl : RateLimiter.t) (ip ip' : string) (now : Z) :
  ip' ≠ ip →
  let r := RateLimit rl now (gin.request ip') in
  gin.ClientIP r.2 = ip'
  ∧ RateLimiter.maxRequests r.1 = RateLimiter.maxRequests rl
  ∧ RateLimiter.windowLength r.1 = RateLimiter.windowLength rl
  ∧ RateLimiter.enabled r.1 = RateLimiter.enabled rl
  ∧ requests_of r.1 ip = requests_of rl ip.
Proof.
  intros Hne r. subst r.
  destruct (RateLimiter.enabled rl) eqn:Hen.
  - destruct (RateLimit_step rl ip' now Hen)
      as (HN & HW & Hen' & Hip & Hother & _).
    repeat (split; [done|]). by apply Hother.
  - unfold RateLimit. rewrite Hen. by cbn.
Qed.

Lemma serve_own_calls (ip : string) (calls : list (string * Z))
    (rl1 rl2 : RateLimiter.t) :
  RateLimiter.maxRequests rl1 = RateLimiter.maxRequests rl2 →
  RateLimiter.windowLength rl1 = RateLimiter.windowLength rl2 →
  RateLimiter.enabled rl1 = RateLimiter.enabled rl2 →
  requests_of rl1 ip = requests_of rl2 ip →
  filter (λ c, gin.ClientIP c = ip) (serve rl1 calls).2
  = (serve rl2 (filter (λ p, p.1 = ip) calls)).2.
Proof.
  revert rl1 rl2.
  induction calls as [|[ip' now] rest IH]; intros rl1 rl2 HN HW Hen Hreq.
  { reflexivity. }
  rewrite serve_cons. cbn [snd].
  destruct (decide (ip' = ip)) as [->|Hne].
  - rewrite (filter_cons_True (λ p, p.1 = ip)) by done.
    rewrite serve_cons. cbn [snd].
    destruct (RateLimit_own_record rl1 rl2 ip now HN HW Hen Hreq)
      as (Hc & HN' & HW' & Hen' & Hreq').
    rewrite filter_cons_True.
    2:{ rewrite Hc.
        destruct (RateLimiter.enabled rl2) eqn:Hen2.
        - by destruct (RateLimit_step rl2 ip now Hen2) as (_ & _ & _ & ? & _).
        - unfold RateLimit. rewrite Hen2. by cbn. }
    rewrite Hc. f_equal. by apply IH.
  - rewrite (filter_cons_False (λ p, p.1 = ip)) by done.
    destruct (RateLimit_other_record rl1 ip ip' now Hne)
      as (Hip & HN' & HW' & Hen' & Hreq').
    rewrite filter_cons_False by (rewrite Hip; done).
    apply IH; congruence.
Qed.

(** X22.  Callers do not affect each other.  In a run of a limiter the
    contexts the calls of one caller end with (admitted or rejected, and
    the headers) are those of the run in which the other callers make no
    call at all. *)
Theorem callers_do_not_interfere (N W : Z) (calls : list (string * Z))
    (ip : string) :
  filter (λ c, gin.ClientIP c = ip) (serve (NewRateLimiter N W) calls).2
  = (serve (NewRateLimiter N W) (filter (λ p, p.1 = ip) calls)).2.
Proof. by apply serve_own_calls. Qed.

(** X23.  A limiter that is switched off lets every call through and
    records nothing: the contexts get no header, and when the limiter is
    switched on again it is in the state it was switched off in, the
    calls in between not counted. *)
Theorem disabled_limiter_records_nothing (rl : RateLimiter.t)
    (calls : list (string * Z)) :
  serve (SetEnabled false rl) calls
  = (SetEnabled false rl, (λ p, gin.Next (gin.request p.1)) <$> calls)
  ∧ SetEnabled true (serve (SetEnabled false rl) calls).1 = SetEnabled true rl
  ∧ GetLimits (serve (SetEnabled false rl) calls).1 = GetLimits rl.
Proof.
  assert (H : serve (SetEnabled false rl) calls
              = (SetEnabled false rl,
                 (λ p, gin.Next (gin.request p.1)) <$> calls)).
  { induction calls as [|[ip now] rest IH]; [reflexivity|].
    rewrite serve_cons, RateLimit_disabled. cbn [fst snd]. by rewrite IH. }
  rewrite H. by repeat split.
Qed.

(** X24.  A limit of zero or less rejects every call.  With
    [maxRequests ≤ 0] the limiter, while switched on, lets no call
    through: every call is aborted with status 429 and "0" remaining,
    and no instant is ever recorded. *)
Theorem nonpositive_limit_rejects_all (N W : Z) (calls : list (string * Z)) :
  N ≤ 0 →
  Forall (λ c, gin.NextCalled c = false
               ∧ gin.Aborted c = Some (StatusTooManyRequests, err_rate_limited)
               ∧ gin.Headers c !! "X-RateLimit-Remaining" = Some "0")
    (serve (NewRateLimiter N W) calls).2
  ∧ ∀ ip, requests_of (serve (NewRateLimiter N W) calls).1 ip = [].
Proof.
  intros HN.
  assert (G : ∀ rl, RateLimiter.enabled rl = true →
                    RateLimiter.maxRequests rl = N →
                    (∀ ip, requests_of rl ip = []) →
                    Forall (λ c, gin.NextCalled c = false
                                 ∧ gin.Aborted c
                                   = Some (StatusTooManyRequests,
                                           err_rate_limited)
                                 ∧ gin.Headers c !! "X-RateLimit-Remaining"
                                   = Some "0")
                      (serve rl calls).2
                    ∧ ∀ ip, requests_of (serve rl calls).1 ip = []).
  { induction calls as [|[ip now] rest IH]; intros rl Hen Hmax Hempty.
    { split; [constructor | exact Hempty]. }
    rewrite serve_cons. cbn [fst snd].
    assert (Hk : retained rl ip now = []).
    { unfold retained. by rewrite Hempty. }
    assert (Hfull : RateLimiter.maxRequests rl
                    ≤ Z.of_nat (length (retained rl ip now))).
    { rewrite Hk, Hmax. simpl. lia. }
    rewrite (RateLimit_reject rl ip now Hen Hfull). cbn [fst snd].
    destruct (IH (RateLimiter.set_ipLimits
                    (<[ip := retained rl ip now]> (RateLimiter.ipLimits rl))
                    rl)) as [IH1 IH2]; [done | done | |].
    { intros ip'. unfold requests_of.
      cbn [RateLimiter.set_ipLimits RateLimiter.ipLimits].
      destruct (decide (ip = ip')) as [->|Hne].
      - by rewrite lookup_insert_eq, Hk.
      - rewrite lookup_insert_ne by done. apply Hempty. }
    split; [|exact IH2]. constructor; [|exact IH1].
    cbn [gin.NextCalled gin.Aborted gin.Headers].
    split; [done|]. split; [done|].
    rewrite lookup_insert_ne by done. by rewrite lookup_insert_eq. }
  apply G; [done | done |]. intros ip. unfold requests_of.
  cbn [NewRateLimiter RateLimiter.ipLimits]. by rewrite lookup_empty.
Qed.

Lemma nonpositive_limit_rejects_all_witness :
  Forall (λ c, gin.NextCalled c = false
               ∧ gin.Aborted c = Some (StatusTooManyRequests, err_rate_limited)
               ∧ gin.Headers c !! "X-RateLimit-Remaining" = Some "0")
    (serve (NewRateLimiter 0 60) [("10.0.0.1", 0); ("10.0.0.1", 100)]).2.
Proof.
  exact (proj1 (nonpositive_limit_rejects_all 0 60
                  [("10.0.0.1", 0); ("10.0.0.1", 100)] ltac:(lia))).
Defined.

(** ** The document reference and the hash generators *)

Lemma verifyIPFSReference_Qm_iff (reference : string) :
  verifyIPFSReference reference = true
  ↔ ∃ h : string, reference = "Qm" +:+ h ∧ (44 ≤ String.length h)%nat.
Proof.
  split.
  - unfold verifyIPFSReference.
    destruct reference as [|a [|b h]]; try done.
    cbn [String.eqb len String.length substring].
    rewrite substring_0_0. cbn [String.eqb Nat.ltb Nat.leb orb].
    destruct (Ascii.eqb_spec a "Q") as [->|Ha]; [|done].
    destruct (Ascii.eqb_spec b "m") as [->|Hb]; [|done].
    cbn [negb].
    destruct (Nat.leb_spec (String.length h) 43) as [Hl|Hl]; [done|].
    intros _. exists h. split; [done | lia].
  - intros (h & -> & Hl). by apply verifyIPFSReference_Qm.
Qed.

(** X25.  What [verifyIPFSReference] accepts.  A document reference
    passes exactly when it is "Qm" followed by at least 44 characters;
    the characters after the prefix are not looked at, so a reference
    of 46 characters with any bytes after "Qm" passes, and the empty
    reference does not. *)
Theorem verifyIPFSReference_spec (reference : string) :
  (verifyIPFSReference reference = true
   ↔ ∃ h : string, reference = "Qm" +:+ h ∧ (44 ≤ String.length h)%nat)
  ∧ verifyIPFSReference "" = false
  ∧ ∀ h : string, String.length h = 44%nat →
                  verifyIPFSReference ("Qm" +:+ h) = true.
Proof.
  split; [apply verifyIPFSReference_Qm_iff|]. split; [reflexivity|].
  intros h Hh. apply verifyIPFSReference_Qm. lia.
Qed.

(** X26.  The shape of a mock hash.  [generateMockHash] never panics;
    it reads the clock once and changes nothing else; it returns as many
    characters as asked for (none for a length of zero or less), all of
    them letters or digits of its charset; and "Qm" followed by the hash
    passes [verifyIPFSReference] exactly when the length asked for is at
    least 44. *)
Theorem generateMockHash_shape (w : World) (n : Z) :
  ∃ h,
    generateMockHash n w = Some (h, with_ticks (S (ticks w)) w)
    ∧ String.length h = Z.to_nat n
    ∧ Forall (λ c, c ∈ bytes charset_alnum) (bytes h)
    ∧ (verifyIPFSReference ("Qm" +:+ h) = true ↔ 44 ≤ n).
Proof.
  unfold generateMockHash.
  destruct (hash_loop_run (with_ticks (S (ticks w)) w) charset_alnum
              (clock w (ticks w)) 0 (Z.to_nat n) "")
    as (h & l & Hrun & Hb & Hl & Hall); [cbn; lia|].
  simpl in Hb. subst l.
  exists h. split.
  { unfold mbind, M_bind, time_Now, get_world, or_panic. rewrite Hrun. done. }
  rewrite length_bytes in Hl.
  split; [done|]. split; [done|].
  rewrite verifyIPFSReference_Qm_iff. split.
  - intros (h' & Heq & Hlen).
    change ("Qm" +:+ h) with (String "Q" (String "m" h)) in Heq.
    change ("Qm" +:+ h') with (String "Q" (String "m" h')) in Heq.
    injection Heq as <-. lia.
  - intros Hn. exists h. split; [done | lia].
Qed.

(** ** Tax IDs and their punctuation *)

Lemma validate_same_digits (a b : string) :
  strip_non_digits a = strip_non_digits b →
  ChecksumSpec.validate a = ChecksumSpec.validate b.
Proof.
  intros H.
  assert (Hv : validateCNPJFormat a = validateCNPJFormat b).
  { unfold validateCNPJFormat. by rewrite H. }
  rewrite !validateCNPJFormat_eq_validate in Hv. by injection Hv.
Qed.

(** X28.  The uniqueness rule compares the tax IDs as they are written.
    The validator strips everything that is not a digit before it
    checks, but [RegisterNGO] compares the strings of the requests: two
    requests whose tax IDs have the same digits and differ in their
    punctuation are both registered, one after the other, and get the
    same verdict and the same message. *)
Theorem same_tax_id_in_two_formats (w : World)
    (req1 req2 : NGORegistrationRequest.t) :
  ¬ tax_id_in_use (NGORegistrationRequest.CNPJ req1) w →
  ¬ tax_id_in_use (NGORegistrationRequest.CNPJ req2) w →
  NGORegistrationRequest.CNPJ req1 ≠ NGORegistrationRequest.CNPJ req2 →
  strip_non_digits (NGORegistrationRequest.CNPJ req1)
  = strip_non_digits (NGORegistrationRequest.CNPJ req2) →
  ∃ reg1 w1 reg2 w2,
    RegisterNGO req1 w = Some ((reg1, None), w1)
    ∧ RegisterNGO req2 w1 = Some ((reg2, None), w2)
    ∧ regs w2 = regs w ++ [reg1; reg2]
    ∧ NGORegistration.CNPJ reg1 = NGORegistrationRequest.CNPJ req1
    ∧ NGORegistration.CNPJ reg2 = NGORegistrationRequest.CNPJ req2
    ∧ NGORegistration.CNPJValid reg2 = NGORegistration.CNPJValid reg1
    ∧ NGORegistration.CNPJValidationMsg reg2
      = NGORegistration.CNPJValidationMsg reg1.
Proof.
  intros Hfree1 Hfree2 Hne Hdigits.
  pose proof (RegisterNGO_run w req1 Hfree1) as H1.
  match type of H1 with _ = Some ((_, _), ?x) => set (w1 := x) in * end.
  assert (Hregs1 : regs w1 = regs w ++ [new_registration w req1]).
  { unfold w1. world_norm. reflexivity. }
  assert (Hngos1 : AdminService.ngos (admin w1) = AdminService.ngos (admin w)).
  { unfold w1. world_norm. reflexivity. }
  clearbody w1.
  assert (Hfree : ¬ tax_id_in_use (NGORegistrationRequest.CNPJ req2) w1).
  { unfold tax_id_in_use. rewrite Hregs1, Hngos1, Exists_app.
    intros [[H|H]|H].
    - apply Hfree2. by left.
    - apply Exists_cons in H as [H|H]; [|by apply Exists_nil in H].
      by apply Hne.
    - apply Hfree2. by right. }
  pose proof (RegisterNGO_run w1 req2 Hfree) as H2.
  match type of H2 with _ = Some ((_, _), ?x) => set (w2 := x) in * end.
  assert (Hregs2 : regs w2 = regs w1 ++ [new_registration w1 req2]).
  { unfold w2. world_norm. reflexivity. }
  clearbody w2.
  eexists _, w1, _, w2. split; [exact H1|]. split; [exact H2|].
  split. { rewrite Hregs2, Hregs1, <- app_assoc. reflexivity. }
  split; [reflexivity|]. split; [reflexivity|].
  unfold new_registration.
  cbn [NGORegistration.CNPJValid NGORegistration.CNPJValidationMsg].
  by rewrite (validate_same_digits _ _ Hdigits).
Qed.

Lemma same_tax_id_in_two_formats_witness :
  ∃ reg1 w1 reg2 w2,
    RegisterNGO req_casa world0 = Some ((reg1, None), w1)
    ∧ RegisterNGO req_casa_formatted w1 = Some ((reg2, None), w2)
    ∧ length (regs w2) = 2%nat.
Proof.
  assert (Hfree : ∀ cnpj, ¬ tax_id_in_use cnpj world0).
  { intros cnpj [H|H]; inversion H. }
  destruct (same_tax_id_in_two_formats world0 req_casa req_casa_formatted
              (Hfree _) (Hfree _) ltac:(discriminate) eq_refl)
    as (reg1 & w1 & reg2 & w2 & H1 & H2 & Hregs & _).
  exists reg1, w1, reg2, w2. split; [exact H1|]. split; [exact H2|].
  by rewrite Hregs.
Defined.
